(** * modules.py: neural-network building blocks over a DGL graph

    A shallow embedding of [src/modules.py].  Python exceptions are an error
    monad, tensors are nested lists of scalars of an abstract scalar type,
    the graph is its node count and its edge list, and the primitives of the
    libraries the file imports ([torch], [dgl.ops]) are modelled by their
    documented behaviour. *)

From Stdlib Require Import String List Bool Arith ZArith QArith Reals Lia Lra.
Import ListNotations.

Close Scope R_scope.
Close Scope Q_scope.
Open Scope nat_scope.

Set Implicit Arguments.

(** ** Exceptions *)

Module Py.

Inductive exn : Type :=
| ValueError (msg : string)
| ConfigurationError
| ZeroDivisionError
| TypeError
| AttributeError
| IndexError
| AssertionError
| RuntimeError (msg : string)
| DGLError.

Inductive result (A : Type) : Type :=
| Ok (a : A)
| Raise (e : exn).

Arguments Ok {A} a.
Arguments Raise {A} e.

Definition bind {A B} (r : result A) (k : A -> result B) : result B :=
  match r with
  | Ok a => k a
  | Raise e => Raise e
  end.

End Py.
Import Py.

Declare Scope py_scope.
Delimit Scope py_scope with py.
Notation "x <- c ;; k" := (bind c (fun x => k))
  (at level 61, c at next level, right associativity) : py_scope.
Notation "' pat <- c ;; k" := (bind c (fun x => match x with pat => k end))
  (at level 61, pat pattern, c at next level, right associativity) : py_scope.
Open Scope py_scope.

(** ** ResidualModulesWrapper (modules.py, lines 9-31)

    The wrapper is generic in what it wraps, so the graph and the tensor are
    abstract here, and [x + x_res] is the addition of the tensor library
    (it raises when the two shapes cannot be broadcast). *)

Module ResidualModulesWrapper.
Section Defs.

Variables graph tensor : Type.
Variable tensor_add : tensor -> tensor -> result tensor.

(** A positional argument of a call [module(...)]. *)
Inductive arg : Type :=
| AGraph (g : graph)
| ATensor (x : tensor).

(** An [nn.Module] as the wrapper sees it: the parameter names of its
    bound [forward] (what [signature(module.forward).parameters] holds),
    what calling it on positional arguments does, and the attribute
    [takes_graph_as_input], absent ([None]) until someone sets it. *)
Record nn_Module : Type := {
  forward_parameters : list string;
  call : list arg -> result tensor;
  takes_graph_as_input : option bool
}.

(** ['graph' in signature(module.forward).parameters] *)
Definition declares_graph (m : nn_Module) : bool :=
  existsb (String.eqb "graph") (forward_parameters m).

(** [module.takes_graph_as_input = ...] (line 17). *)
Definition set_takes_graph_as_input (m : nn_Module) : nn_Module :=
  {| forward_parameters := forward_parameters m;
     call := call m;
     takes_graph_as_input := Some (declares_graph m) |}.

(** The constructor's argument: one module, or a list of modules. *)
Inductive modules_arg : Type :=
| OneModule (m : nn_Module)
| ModuleSeq (ms : list nn_Module).

Record t : Type := { wrapped_modules : list nn_Module }.

Definition __init__ (modules : modules_arg) : t :=
  let modules :=
    match modules with
    | OneModule m => [m]
    | ModuleSeq ms => ms
    end in
  {| wrapped_modules := map set_takes_graph_as_input modules |}.

(** One iteration of the loop of [forward] (lines 24-27). *)
Definition loop_body (g : graph) (x_res : tensor) (m : nn_Module)
  : result tensor :=
  match takes_graph_as_input m with
  | Some true => call m [AGraph g; ATensor x_res]
  | Some false => call m [ATensor x_res]
  | None => Raise AttributeError
  end.

Definition forward (self : t) (g : graph) (x : tensor) : result tensor :=
  x_res <- fold_left (fun acc m => x_res <- acc ;; loop_body g x_res m)
                     (wrapped_modules self) (Ok x) ;;
  tensor_add x x_res.

(** The reference the wrapper is compared with: the modules chained by
    hand, the graph handed to those whose signature declares it. *)
Definition call_by_signature (g : graph) (m : nn_Module) (x : tensor)
  : result tensor :=
  if declares_graph m then call m [AGraph g; ATensor x]
  else call m [ATensor x].

Fixpoint manual_chain (g : graph) (ms : list nn_Module) (x : tensor)
  : result tensor :=
  match ms with
  | [] => Ok x
  | m :: ms' => y <- call_by_signature g m x ;; manual_chain g ms' y
  end.

End Defs.
End ResidualModulesWrapper.

(** ** Scalars

    The entries of a tensor are floating-point numbers.  The code is
    modelled over any type carrying the operations it uses; laws of the
    arithmetic are hypotheses of the theorems that need them, so a theorem
    without such a hypothesis holds for the operations whatever they are. *)

Class Scalar (T : Type) : Type := {
  f0 : T;                      (* the literal 0 *)
  flt : T -> T -> bool         (* a < b *)
}.

Class FloatArith (T : Type) : Type := {
  fa_scalar :: Scalar T;
  f1 : T;
  fadd : T -> T -> T;
  fmul : T -> T -> T;
  fdiv : T -> T -> T;
  fexp : T -> T;
  fsqrt : T -> T;
  of_nat : nat -> T
}.

Class FloatSpecial (T : Type) : Type := {
  fs_scalar :: Scalar T;
  neg_inf : T;
  isinf : T -> bool;           (* torch.isinf: true on +inf and on -inf *)
  isnan : T -> bool
}.

(** ** Tensors *)

Definition mat (T : Type) : Type := list (list T).

(** A tensor whose rank is only known at run time: [x.dim() == 2] or
    [x.dim() == 3]. *)
Inductive tensor (T : Type) : Type :=
| T2 (m : mat T)
| T3 (c : list (mat T)).

Arguments T2 {T} m.
Arguments T3 {T} c.

Definition ncols {T} (x : mat T) : nat :=
  match x with
  | [] => 0
  | r :: _ => length r
  end.

Definition entry {T} `{Scalar T} (x : mat T) (n j : nat) : T :=
  nth j (nth n x []) f0.

(** The sizes of the second and of the third axis of a 3-dimensional
    tensor, and one of its entries. *)
Definition dim1 {T} (x : list (mat T)) : nat :=
  match x with
  | [] => 0
  | m :: _ => length m
  end.

Definition dim2 {T} (x : list (mat T)) : nat :=
  match x with
  | [] => 0
  | m :: _ => ncols m
  end.

Definition entry3 {T} `{Scalar T} (x : list (mat T)) (n i j : nat) : T :=
  entry (nth n x []) i j.

Fixpoint chunk_aux {A} (fuel n : nat) (l : list A) : list (list A) :=
  match fuel with
  | 0 => []
  | S fuel' =>
      match l with
      | [] => []
      | _ :: _ => firstn n l :: chunk_aux fuel' n (skipn n l)
      end
  end.

(** Consecutive blocks of [n] elements (row-major view of a flat buffer). *)
Definition chunk {A} (n : nat) (l : list A) : list (list A) :=
  chunk_aux (length l) n l.

Module torch.
Section Defs.
Context {T : Type}.

Definition shape_error : exn :=
  RuntimeError "Sizes of tensors must match except in dimension -1".
Definition rank_error : exn :=
  RuntimeError "Tensors must have same number of dimensions".
Definition reshape_error : exn :=
  RuntimeError "shape is invalid for input size".

Definition cat_rows (a b : mat T) : mat T :=
  map (fun p => fst p ++ snd p) (combine a b).

(** [torch.cat([a, b], axis=-1)]: the tensors have the same number of
    dimensions and agree on every dimension but the last. *)
Definition cat_last (a b : tensor T) : result (tensor T) :=
  match a, b with
  | T2 a, T2 b =>
      if length a =? length b then Ok (T2 (cat_rows a b))
      else Raise shape_error
  | T3 a, T3 b =>
      if (length a =? length b)
         && forallb (fun p => length (fst p) =? length (snd p)) (combine a b)
      then Ok (T3 (map (fun p => cat_rows (fst p) (snd p)) (combine a b)))
      else Raise shape_error
  | _, _ => Raise rank_error
  end.

(** [x.reshape(-1, d1, d2)] of a matrix: the row-major buffer cut into
    blocks of [d1 * d2], each block cut into rows of [d2]. *)
Definition reshape_3d (x : mat T) (d1 d2 : nat) : result (list (mat T)) :=
  let flat := concat x in
  if (d1 * d2 =? 0) || negb (length flat mod (d1 * d2) =? 0)
  then Raise reshape_error
  else Ok (map (chunk d2) (chunk (d1 * d2) flat)).

(** [x.reshape(-1, d)] of a 3-dimensional tensor. *)
Definition reshape_2d (x : list (mat T)) (d : nat) : result (mat T) :=
  let flat := concat (map (@concat T) x) in
  if (d =? 0) || negb (length flat mod d =? 0)
  then Raise reshape_error
  else Ok (chunk d flat).

Definition split_error : exn :=
  RuntimeError "split_with_sizes expects split_sizes to sum exactly to the size of the dimension".

(** [x.split(split_size=(s1, s2, s3), dim=-1)] of a 3-dimensional tensor:
    the sizes must add up to the size of the last axis. *)
Definition split3 (x : list (mat T)) (s1 s2 s3 : nat)
  : result (list (mat T) * list (mat T) * list (mat T)) :=
  if forallb (forallb (fun r => length r =? s1 + s2 + s3)) x then
    Ok (map (map (firstn s1)) x,
        map (map (fun r => firstn s2 (skipn s1 r))) x,
        map (map (skipn (s1 + s2))) x)
  else Raise split_error.

(** A 2-dimensional tensor kept with its shape; [item] is read on
    [0 <= i < shape0], [0 <= j < shape1]. *)
Record Matrix : Type := {
  shape0 : nat;
  shape1 : nat;
  item : nat -> nat -> T
}.

End Defs.
Arguments Matrix T : clear implicits.
End torch.

(** ** The graph and the message-passing primitives of [dgl.ops]

    The primitives belong to DGL; they are modelled by what DGL documents:
    a reduction runs over the incoming edges of each node in edge order,
    the sum starts from 0 and the maximum from minus infinity, the mean
    divides the sum by the in-degree clamped to at least 1, and the feature
    shapes of the two operands of a binary operator are broadcast aligned
    on the right. *)

Module ops.

Record DGLGraph : Type := {
  num_nodes : nat;
  edges : list (nat * nat)       (* (source, destination), by edge id *)
}.

(** The incoming edges of [v]: (edge id, source), in edge order. *)
Definition in_edges (g : DGLGraph) (v : nat) : list (nat * nat) :=
  map (fun p => (fst p, fst (snd p)))
      (filter (fun p => snd (snd p) =? v)
              (combine (seq 0 (length (edges g))) (edges g))).

Definition well_formed (g : DGLGraph) : Prop :=
  Forall (fun e => fst e < num_nodes g /\ snd e < num_nodes g) (edges g).

Section Arith.
Context {T : Type} `{FloatArith T}.

Definition copy_u_mean (g : DGLGraph) (x : mat T) : result (mat T) :=
  if length x =? num_nodes g then
    Ok (map (fun v =>
               let es := in_edges g v in
               map (fun j =>
                      fdiv (fold_left (fun acc e => fadd acc (entry x (snd e) j))
                                      es f0)
                           (of_nat (Nat.max 1 (length es))))
                   (seq 0 (ncols x)))
            (seq 0 (num_nodes g)))
  else Raise DGLError.

(** [u_add_v(g, a, b)]: on edge (u, v), [a[u] + b[v]]. *)
Definition u_add_v (g : DGLGraph) (a b : mat T) : result (mat T) :=
  if (length a =? num_nodes g) && (length b =? num_nodes g)
     && (ncols a =? ncols b) then
    Ok (map (fun e =>
               map (fun h => fadd (entry a (fst e) h) (entry b (snd e) h))
                   (seq 0 (ncols a)))
            (edges g))
  else Raise DGLError.

(** [edge_softmax(g, s)]: softmax of the scores of the edges that share
    a destination, per column. *)
Definition edge_softmax (g : DGLGraph) (s : mat T) : result (mat T) :=
  if length s =? length (edges g) then
    Ok (map (fun p =>
               let es := in_edges g (snd (snd p)) in
               map (fun h =>
                      fdiv (fexp (entry s (fst p) h))
                           (fold_left (fun acc e => fadd acc (fexp (entry s (fst e) h)))
                                      es f0))
                   (seq 0 (ncols s)))
            (combine (seq 0 (length (edges g))) (edges g)))
  else Raise DGLError.

(** [u_mul_e_sum(g, x, p)] for node features of shape (N, d1, d2) and
    edge features of shape (E, d2): the edge feature is broadcast along
    [d1], and node [v] receives the sum over its incoming edges (u, v) of
    [x[u] * p[e]].  (Only the case where the last dimensions coincide is
    modelled; it is the one [forward] below produces.) *)
Definition u_mul_e_sum (g : DGLGraph) (x : list (mat T)) (p : mat T)
  : result (list (mat T)) :=
  let d1 := match x with [] => 0 | m :: _ => length m end in
  let d2 := match x with [] => 0 | m :: _ => ncols m end in
  if (length x =? num_nodes g) && (length p =? length (edges g))
     && ((ncols p =? d2) || (length p =? 0)) then
    Ok (map (fun v =>
               map (fun i =>
                      map (fun h =>
                             fold_left
                               (fun acc e =>
                                  fadd acc (fmul (entry (nth (snd e) x []) i h)
                                                 (entry p (fst e) h)))
                               (in_edges g v) f0)
                          (seq 0 d2))
                   (seq 0 d1))
            (seq 0 (num_nodes g)))
  else Raise DGLError.

(** The same primitives as the transformer attention uses them, on node
    features of shape (N, H, d) and edge features of shape (E, H, 1). *)

(** [u_dot_v(g, a, b)]: on edge (u, v) and for each head, the dot product
    of [a[u]] and [b[v]] along the last axis, which is kept with size 1.
    (Only operands of one shape are modelled; they are the ones [forward]
    produces.) *)
Definition u_dot_v (g : DGLGraph) (a b : list (mat T)) : result (list (mat T)) :=
  if (length a =? num_nodes g) && (length b =? num_nodes g)
     && (dim1 a =? dim1 b) && (dim2 a =? dim2 b) then
    Ok (map (fun e =>
               map (fun h =>
                      [fold_left
                         (fun acc k =>
                            fadd acc (fmul (entry3 a (fst e) h k)
                                           (entry3 b (snd e) h k)))
                         (seq 0 (dim2 a)) f0])
                   (seq 0 (dim1 a)))
            (edges g))
  else Raise DGLError.

(** [edge_softmax(g, s)] on scores with a head axis: the softmax runs over
    the edges that share a destination, per entry of the feature. *)
Definition edge_softmax_heads (g : DGLGraph) (s : list (mat T))
  : result (list (mat T)) :=
  if length s =? length (edges g) then
    Ok (map (fun p =>
               let es := in_edges g (snd (snd p)) in
               map (fun h =>
                      map (fun k =>
                             fdiv (fexp (entry3 s (fst p) h k))
                                  (fold_left
                                     (fun acc e =>
                                        fadd acc (fexp (entry3 s (fst e) h k)))
                                     es f0))
                          (seq 0 (dim2 s)))
                   (seq 0 (dim1 s)))
            (combine (seq 0 (length (edges g))) (edges g)))
  else Raise DGLError.

(** [u_mul_e_sum(g, x, p)] for [x] of shape (N, H, d) and [p] of shape
    (E, H, 1): the edge feature of a head is broadcast along [d]. *)
Definition u_mul_e_sum_heads (g : DGLGraph) (x p : list (mat T))
  : result (list (mat T)) :=
  if (length x =? num_nodes g) && (length p =? length (edges g))
     && (((dim1 p =? dim1 x) && (dim2 p =? 1)) || (length p =? 0)) then
    Ok (map (fun v =>
               map (fun h =>
                      map (fun k =>
                             fold_left
                               (fun acc e =>
                                  fadd acc (fmul (entry3 x (snd e) h k)
                                                 (entry3 p (fst e) h 0)))
                               (in_edges g v) f0)
                          (seq 0 (dim2 x)))
                   (seq 0 (dim1 x)))
            (seq 0 (num_nodes g)))
  else Raise DGLError.

End Arith.

Section Special.
Context {T : Type} `{FloatSpecial T}.

Definition copy_u_max (g : DGLGraph) (x : mat T) : result (mat T) :=
  if length x =? num_nodes g then
    Ok (map (fun v =>
               map (fun j =>
                      fold_left (fun acc e =>
                                   let val := entry x (snd e) j in
                                   if flt acc val then val else acc)
                                (in_edges g v) neg_inf)
                   (seq 0 (ncols x)))
            (seq 0 (num_nodes g)))
  else Raise DGLError.

End Special.
End ops.

(** ** GraphMeanAggregationModule (lines 53-61) *)

Module GraphMeanAggregationModule.
Section Defs.
Context {T : Type} `{FloatArith T}.

Definition forward (graph : ops.DGLGraph) (x : mat T) : result (tensor T) :=
  x_aggregated <- ops.copy_u_mean graph x ;;
  torch.cat_last (T2 x) (T2 x_aggregated).

End Defs.
End GraphMeanAggregationModule.

(** ** GraphMaxAggregationModule (lines 64-73) *)

Module GraphMaxAggregationModule.
Section Defs.
Context {T : Type} `{FloatSpecial T}.

(** [t[t.isinf()] = 0] *)
Definition zero_where_isinf (t : mat T) : mat T :=
  map (map (fun a => if isinf a then f0 else a)) t.

Definition forward (graph : ops.DGLGraph) (x : mat T) : result (tensor T) :=
  x_aggregated <- ops.copy_u_max graph x ;;
  let x_aggregated := zero_where_isinf x_aggregated in
  torch.cat_last (T2 x) (T2 x_aggregated).

End Defs.
End GraphMaxAggregationModule.

(** ** Layers of [torch.nn]

    A freshly built layer draws its parameters at random; the draw is an
    argument of the model's constructors, a function from the parameter's
    name and the position in it to the value drawn.  Of the checks torch
    makes on the arguments of a layer, the model keeps those on the sizes
    of the tensors the layer allocates. *)

Definition initializer (T : Type) : Type := string -> nat -> nat -> T.

Definition tabulate2 {T} (r c : nat) (f : nat -> nat -> T) : mat T :=
  map (fun i => map (f i) (seq 0 c)) (seq 0 r).

(** The rows of a matrix kept with its shape. *)
Definition rows_of {T} (m : torch.Matrix T) : mat T :=
  tabulate2 (torch.shape0 m) (torch.shape1 m) (torch.item m).

Module nn.

Definition negative_dimension : exn :=
  RuntimeError "Trying to create tensor with negative dimension".

Module Linear.
Section Defs.
Context {T : Type} `{FloatArith T}.

Record t : Type := {
  in_features : nat;
  out_features : nat;
  weight : mat T;              (* out_features rows of in_features *)
  bias : option (list T)
}.

Definition __init__ (init : initializer T) (name : string)
    (in_features out_features : Z) (with_bias : bool) : result t :=
  if ((in_features <? 0) || (out_features <? 0))%Z
  then Raise negative_dimension
  else
    let i := Z.to_nat in_features in
    let o := Z.to_nat out_features in
    Ok {| in_features := i;
          out_features := o;
          weight := tabulate2 o i (init (name ++ ".weight")%string);
          bias := if with_bias
                  then Some (map (init (name ++ ".bias")%string 0) (seq 0 o))
                  else None |}.

Definition dot (r w : list T) : T :=
  fold_left (fun acc p => fadd acc (fmul (fst p) (snd p))) (combine r w) f0.

(** [x @ weight.T + bias] on the rows of [x]. *)
Definition forward (self : t) (x : mat T) : result (mat T) :=
  if forallb (fun r => length r =? in_features self) x then
    Ok (map (fun r =>
               map (fun o =>
                      let y := dot r (nth o (weight self) []) in
                      match bias self with
                      | Some b => fadd y (nth o b f0)
                      | None => y
                      end)
                   (seq 0 (out_features self)))
            x)
  else Raise (RuntimeError "mat1 and mat2 shapes cannot be multiplied").

End Defs.
Arguments t T : clear implicits.
End Linear.

(** [nn.LeakyReLU(negative_slope)] on one entry. *)
Definition LeakyReLU {T} `{FloatArith T} (negative_slope a : T) : T :=
  if flt a f0 then fmul negative_slope a else a.

Module Embedding.
Section Defs.
Context {T : Type}.

Record t : Type := {
  num_embeddings : nat;
  embedding_dim : nat;
  weight : torch.Matrix T
}.

(** [nn.Embedding(num_embeddings, embedding_dim, _weight=...)]: a given
    weight must have exactly the shape asked for. *)
Definition __init__ (init : initializer T) (name : string)
    (num_embeddings' embedding_dim' : Z) (_weight : option (torch.Matrix T))
  : result t :=
  match _weight with
  | None =>
      if ((num_embeddings' <? 0) || (embedding_dim' <? 0))%Z
      then Raise negative_dimension
      else
        let n := Z.to_nat num_embeddings' in
        let d := Z.to_nat embedding_dim' in
        Ok {| num_embeddings := n;
              embedding_dim := d;
              weight := {| torch.shape0 := n; torch.shape1 := d;
                           torch.item := init (name ++ ".weight")%string |} |}
  | Some w =>
      if ((Z.of_nat (torch.shape0 w) =? num_embeddings')
          && (Z.of_nat (torch.shape1 w) =? embedding_dim'))%Z
      then Ok {| num_embeddings := Z.to_nat num_embeddings';
                 embedding_dim := Z.to_nat embedding_dim';
                 weight := w |}
      else Raise AssertionError
  end.

End Defs.
Arguments t T : clear implicits.
End Embedding.

End nn.

(** [nn.Dropout(p)]: the identity unless the module is in training mode and
    the probability is positive; what it does then is a random draw, an
    argument of the [forward] methods: the layer's name, its probability
    and its input give its output. *)

Definition dropout_draw (T : Type) : Type := string -> T -> mat T -> mat T.

Definition nn_Dropout {T} `{FloatArith T} (draw : dropout_draw T) (name : string)
    (training : bool) (p : T) (x : mat T) : mat T :=
  if training && flt f0 p then draw name p x else x.

(** ** utils._check_dim_and_num_heads_consistency *)

Module utils.

(** [a % b] on Python integers. *)
Definition py_mod (a b : Z) : result Z :=
  if (b =? 0)%Z then Raise ZeroDivisionError else Ok (a mod b)%Z.

(** Modelled from the spec: [utils.py] is not among the sources; the spec
    has the constructors fail with a configuration error when the
    dimension is not divisible by the head count, which is the test
    [dim % num_heads != 0]. *)
Definition _check_dim_and_num_heads_consistency (dim num_heads : Z)
  : result unit :=
  r <- py_mod dim num_heads ;;
  if (r =? 0)%Z then Ok tt else Raise ConfigurationError.

End utils.

(** ** GraphAttnGATAggregationModule (lines 76-102) *)

Module GraphAttnGATAggregationModule.
Section Defs.
Context {T : Type} `{FloatArith T}.

Record t : Type := {
  dim : nat;
  num_heads : nat;
  head_dim : nat;
  attn_linear_u : nn.Linear.t T;
  attn_linear_v : nn.Linear.t T;
  attn_act : T                   (* the negative slope of the LeakyReLU *)
}.

Definition __init__ (init : initializer T) (dim num_heads : Z) : result t :=
  _ <- utils._check_dim_and_num_heads_consistency dim num_heads ;;
  attn_linear_u <- nn.Linear.__init__ init "attn_linear_u" dim num_heads true ;;
  attn_linear_v <- nn.Linear.__init__ init "attn_linear_v" dim num_heads false ;;
  Ok {| dim := Z.to_nat dim;
        num_heads := Z.to_nat num_heads;
        head_dim := Z.to_nat (dim / num_heads);
        attn_linear_u := attn_linear_u;
        attn_linear_v := attn_linear_v;
        attn_act := fdiv (of_nat 2) (of_nat 10) |}.

(** Lines 90-94: the attention probabilities, one row per edge and one
    column per head. *)
Definition attn_probs (self : t) (graph : ops.DGLGraph) (x : mat T)
  : result (mat T) :=
  attn_scores_u <- nn.Linear.forward (attn_linear_u self) x ;;
  attn_scores_v <- nn.Linear.forward (attn_linear_v self) x ;;
  attn_scores <- ops.u_add_v graph attn_scores_u attn_scores_v ;;
  let attn_scores := map (map (nn.LeakyReLU (attn_act self))) attn_scores in
  ops.edge_softmax graph attn_scores.

(** Lines 90-98: the rebound [x] and [x_aggregated], as they stand just
    before the concatenation of line 100. *)
Definition aggregate (self : t) (graph : ops.DGLGraph) (x : mat T)
  : result (list (mat T) * mat T) :=
  attn_probs <- attn_probs self graph x ;;
  x <- torch.reshape_3d x (head_dim self) (num_heads self) ;;
  x_aggregated <- ops.u_mul_e_sum graph x attn_probs ;;
  x_aggregated <- torch.reshape_2d x_aggregated (dim self) ;;
  Ok (x, x_aggregated).

Definition forward (self : t) (graph : ops.DGLGraph) (x : mat T)
  : result (tensor T) :=
  ' (x, x_aggregated) <- aggregate self graph x ;;
  torch.cat_last (T3 x) (T2 x_aggregated).

End Defs.
Arguments t T : clear implicits.
End GraphAttnGATAggregationModule.

(** ** GraphAttnTrfAggregationModule (lines 105-136) *)

Module GraphAttnTrfAggregationModule.
Section Defs.
Context {T : Type} `{FloatArith T}.

Record t : Type := {
  dim : nat;
  num_heads : nat;
  head_dim : nat;
  attn_scores_multiplier : T;
  attn_qkv_linear : nn.Linear.t T;
  output_linear : nn.Linear.t T;
  dropout : T
}.

Definition __init__ (init : initializer T) (dim num_heads : Z) (dropout : T)
  : result t :=
  _ <- utils._check_dim_and_num_heads_consistency dim num_heads ;;
  let head_dim := Z.to_nat (dim / num_heads) in
  attn_qkv_linear <- nn.Linear.__init__ init "attn_qkv_linear" dim (dim * 3) true ;;
  output_linear <- nn.Linear.__init__ init "output_linear" dim dim true ;;
  Ok {| dim := Z.to_nat dim;
        num_heads := Z.to_nat num_heads;
        head_dim := head_dim;
        attn_scores_multiplier := fdiv f1 (fsqrt (of_nat head_dim));
        attn_qkv_linear := attn_qkv_linear;
        output_linear := output_linear;
        dropout := dropout |}.

(** Lines 121-129: [x_aggregated] as it stands before the output layer. *)
Definition aggregate (self : t) (graph : ops.DGLGraph) (x : mat T)
  : result (mat T) :=
  qkvs <- nn.Linear.forward (attn_qkv_linear self) x ;;
  qkvs <- torch.reshape_3d qkvs (num_heads self) (head_dim self * 3) ;;
  ' (queries, keys, values) <-
    torch.split3 qkvs (head_dim self) (head_dim self) (head_dim self) ;;
  attn_scores <- ops.u_dot_v graph keys queries ;;
  let attn_scores :=
    map (map (map (fun a => fmul a (attn_scores_multiplier self)))) attn_scores in
  attn_probs <- ops.edge_softmax_heads graph attn_scores ;;
  x_aggregated <- ops.u_mul_e_sum_heads graph values attn_probs ;;
  torch.reshape_2d x_aggregated (dim self).

(** Lines 120-136; [training] is the mode the module is in
    ([self.training]). *)
Definition forward (draw : dropout_draw T) (training : bool) (self : t)
    (graph : ops.DGLGraph) (x : mat T) : result (tensor T) :=
  x_aggregated <- aggregate self graph x ;;
  x_aggregated <- nn.Linear.forward (output_linear self) x_aggregated ;;
  let x_aggregated :=
    nn_Dropout draw "dropout" training (dropout self) x_aggregated in
  torch.cat_last (T2 x) (T2 x_aggregated).

End Defs.
Arguments t T : clear implicits.
End GraphAttnTrfAggregationModule.

(** ** TransformerSequenceEncoderModule: the constructor (lines 158-173) *)

Module TransformerSequenceEncoderModule.
Section Defs.
Context {T : Type} `{FloatSpecial T}.

(** The arguments [nn.TransformerEncoderLayer] is built with. *)
Record TransformerEncoderLayer : Type := {
  d_model : Z;
  nhead : Z;
  dim_feedforward : Z;
  layer_dropout : T;
  activation : string;
  norm_first : bool;
  batch_first : bool
}.

Record t : Type := {
  bidir_attn : bool;
  attn_mask : option (mat T);
  positional_embeddings : nn.Embedding.t T;
  transformer_blocks : list TransformerEncoderLayer
}.

(** [nn.Transformer.generate_square_subsequent_mask(n)]: minus infinity
    above the diagonal, 0 on and below it. *)
Definition generate_square_subsequent_mask (n : nat) : mat T :=
  tabulate2 n n (fun i j => if i <? j then neg_inf else f0).

Definition __init__ (init : initializer T)
    (num_layers dim num_heads seq_len : Z) (bidir_attn : bool) (dropout : T)
  : result t :=
  _ <- utils._check_dim_and_num_heads_consistency dim num_heads ;;
  attn_mask <-
    (if bidir_attn then Ok None
     else if (seq_len <? 0)%Z then Raise nn.negative_dimension
     else Ok (Some (generate_square_subsequent_mask (Z.to_nat seq_len)))) ;;
  positional_embeddings <-
    nn.Embedding.__init__ init "positional_embeddings" seq_len dim None ;;
  Ok {| bidir_attn := bidir_attn;
        attn_mask := attn_mask;
        positional_embeddings := positional_embeddings;
        transformer_blocks :=
          repeat {| d_model := dim; nhead := num_heads;
                    dim_feedforward := dim; layer_dropout := dropout;
                    activation := "gelu"; norm_first := true;
                    batch_first := true |}
                 (Z.to_nat num_layers) |}.

End Defs.
Arguments t T : clear implicits.
End TransformerSequenceEncoderModule.

(** ** PLREmbeddings *)

Module PLREmbeddings.
Section Defs.
Context {T : Type}.

(** Modelled from the spec: [plr_embeddings.py] is not among the sources.
    The spec gives the layer's interface: it is configured by a frequency
    count, a frequency scale, an embedding dimension and two sharing
    flags, and its forward maps [..., F] to [..., F, embedding_dim].  What
    the layer has learned is [embed]: the feature's position and value,
    and the component of the embedding asked for. *)
Record t : Type := {
  features_dim : nat;
  frequencies_dim : nat;
  frequencies_scale : T;
  embedding_dim : nat;
  shared_linear : bool;
  shared_frequencies : bool;
  embed : nat -> T -> nat -> T
}.

(** Modelled from the spec: the forward on one vector of features (the
    last axis of the input), one row of [embedding_dim] entries per
    feature. *)
Definition forward (self : t) (x : list T) : mat T :=
  map (fun p => map (embed self (fst p) (snd p)) (seq 0 (embedding_dim self)))
      (combine (seq 0 (length x)) x).

End Defs.
Arguments t T : clear implicits.
End PLREmbeddings.

(** ** FeaturesPreparatorForDeepModels (lines 185-272)

    Sizes are natural numbers (torch builds no tensor of negative size);
    [output_dim] is computed on integers as the code does. *)

(** [t[mask]] along one axis, once the shapes are known to agree. *)
Definition mask_select {A} (mask : list bool) (l : list A) : list A :=
  map snd (filter fst (combine mask l)).

(** [t[..., mask]] on one vector: the mask must be as long as the axis. *)
Definition index_by_mask {A} (mask : list bool) (l : list A) : result (list A) :=
  if length mask =? length l then Ok (mask_select mask l) else Raise IndexError.

(** [mask.sum()] *)
Definition mask_sum (mask : list bool) : nat :=
  length (filter (fun b => b) mask).

(** [f] on every vector along the last axis. *)
Fixpoint map_result {A B} (f : A -> result B) (l : list A) : result (list B) :=
  match l with
  | [] => Ok []
  | a :: l' => b <- f a ;; bs <- map_result f l' ;; Ok (b :: bs)
  end.

Definition on_last_axis {T} (f : list T -> result (list T)) (x : tensor T)
  : result (tensor T) :=
  match x with
  | T2 m => m' <- map_result f m ;; Ok (T2 m')
  | T3 c => c' <- map_result (map_result f) c ;; Ok (T3 c')
  end.

Module FeaturesPreparatorForDeepModels.

Module Args.
Section Defs.
Context {T : Type}.

(** The constructor's arguments, and the draws of the parameters the
    constructor creates. *)
Record t : Type := {
  features_dim : nat;
  use_learnable_node_embeddings : bool;
  num_nodes : nat;
  learnable_node_embeddings_dim : nat;
  initialize_learnable_node_embeddings_with_deepwalk : bool;
  deepwalk_node_embeddings : option (torch.Matrix T);
  use_plr_for_num_features : bool;
  num_features_mask : list bool;
  plr_num_features_frequencies_dim : nat;
  plr_num_features_frequencies_scale : T;
  plr_num_features_embedding_dim : nat;
  plr_num_features_shared_linear : bool;
  plr_num_features_shared_frequencies : bool;
  use_plr_for_past_targets : bool;
  past_targets_mask : list bool;
  plr_past_targets_frequencies_dim : nat;
  plr_past_targets_frequencies_scale : T;
  plr_past_targets_embedding_dim : nat;
  plr_past_targets_shared_linear : bool;
  plr_past_targets_shared_frequencies : bool;
  init : initializer T;
  plr_num_features_embed : nat -> T -> nat -> T;
  plr_past_targets_embed : nat -> T -> nat -> T
}.
End Defs.
Arguments t T : clear implicits.
End Args.

Section Defs.
Context {T : Type}.

Record t : Type := {
  use_learnable_node_embeddings : bool;
  node_embeddings : option (nn.Embedding.t T);
  use_plr_for_num_features : bool;
  plr_embeddings_num_features : option (PLREmbeddings.t T);
  num_features_mask : option (list bool);
  use_plr_for_past_targtes : bool;
  plr_embeddings_past_targets : option (PLREmbeddings.t T);
  past_targets_mask : option (list bool);
  output_dim : Z
}.

Definition deepwalk_mismatch : exn :=
  ValueError "learnable_node_embeddings_dim does not match the dimension of the precomputed DeepWalk node embeddings".

(** Lines 239-244: the mask of the past targets in the layout the first
    step leaves. *)
Definition shifted_past_targets_mask
    (num_features_mask past_targets_mask : list bool)
    (plr_num_features_embedding_dim : nat) : result (list bool) :=
  past_targets_mask <-
    index_by_mask (map negb num_features_mask) past_targets_mask ;;
  let num_features_dim := mask_sum num_features_mask in
  let embedded_num_features_dim :=
    num_features_dim * plr_num_features_embedding_dim in
  let embedded_num_features_shift := repeat false embedded_num_features_dim in
  Ok (embedded_num_features_shift ++ past_targets_mask).

Definition __init__ (a : Args.t T) : result t :=
  let output_dim := Z.of_nat (Args.features_dim a) in
  ' (output_dim, node_embeddings) <-
    (if Args.use_learnable_node_embeddings a then
       let output_dim :=
         (output_dim + Z.of_nat (Args.learnable_node_embeddings_dim a))%Z in
       if Args.initialize_learnable_node_embeddings_with_deepwalk a then
         match Args.deepwalk_node_embeddings a with
         | None => Raise AttributeError
         | Some deepwalk =>
             if negb (Args.learnable_node_embeddings_dim a
                      =? torch.shape1 deepwalk)
             then Raise deepwalk_mismatch
             else
               e <- nn.Embedding.__init__ (Args.init a) "node_embeddings"
                      (Z.of_nat (Args.num_nodes a))
                      (Z.of_nat (Args.learnable_node_embeddings_dim a))
                      (Some deepwalk) ;;
               Ok (output_dim, Some e)
         end
       else
         e <- nn.Embedding.__init__ (Args.init a) "node_embeddings"
                (Z.of_nat (Args.num_nodes a))
                (Z.of_nat (Args.learnable_node_embeddings_dim a))
                None ;;
         Ok (output_dim, Some e)
     else Ok (output_dim, None)) ;;
  let ' (output_dim, plr_embeddings_num_features, num_features_mask) :=
    if Args.use_plr_for_num_features a then
      let num_features_dim := mask_sum (Args.num_features_mask a) in
      ((output_dim - Z.of_nat num_features_dim
        + Z.of_nat num_features_dim
          * Z.of_nat (Args.plr_num_features_embedding_dim a))%Z,
       Some {| PLREmbeddings.features_dim := num_features_dim;
               PLREmbeddings.frequencies_dim :=
                 Args.plr_num_features_frequencies_dim a;
               PLREmbeddings.frequencies_scale :=
                 Args.plr_num_features_frequencies_scale a;
               PLREmbeddings.embedding_dim :=
                 Args.plr_num_features_embedding_dim a;
               PLREmbeddings.shared_linear :=
                 Args.plr_num_features_shared_linear a;
               PLREmbeddings.shared_frequencies :=
                 Args.plr_num_features_shared_frequencies a;
               PLREmbeddings.embed := Args.plr_num_features_embed a |},
       Some (Args.num_features_mask a))
    else (output_dim, None, None) in
  ' (output_dim, plr_embeddings_past_targets, past_targets_mask) <-
    (if Args.use_plr_for_past_targets a then
       let past_targets_dim := mask_sum (Args.past_targets_mask a) in
       let output_dim :=
         (output_dim - Z.of_nat past_targets_dim
          + Z.of_nat past_targets_dim
            * Z.of_nat (Args.plr_past_targets_embedding_dim a))%Z in
       let plr :=
         {| PLREmbeddings.features_dim := past_targets_dim;
            PLREmbeddings.frequencies_dim :=
              Args.plr_past_targets_frequencies_dim a;
            PLREmbeddings.frequencies_scale :=
              Args.plr_past_targets_frequencies_scale a;
            PLREmbeddings.embedding_dim :=
              Args.plr_past_targets_embedding_dim a;
            PLREmbeddings.shared_linear :=
              Args.plr_past_targets_shared_linear a;
            PLREmbeddings.shared_frequencies :=
              Args.plr_past_targets_shared_frequencies a;
            PLREmbeddings.embed := Args.plr_past_targets_embed a |} in
       past_targets_mask <-
         (if Args.use_plr_for_num_features a then
            shifted_past_targets_mask (Args.num_features_mask a)
              (Args.past_targets_mask a)
              (Args.plr_num_features_embedding_dim a)
          else Ok (Args.past_targets_mask a)) ;;
       Ok (output_dim, Some plr, Some past_targets_mask)
     else Ok (output_dim, None, None)) ;;
  Ok {| use_learnable_node_embeddings := Args.use_learnable_node_embeddings a;
        node_embeddings := node_embeddings;
        use_plr_for_num_features := Args.use_plr_for_num_features a;
        plr_embeddings_num_features := plr_embeddings_num_features;
        num_features_mask := num_features_mask;
        use_plr_for_past_targtes := Args.use_plr_for_past_targets a;
        plr_embeddings_past_targets := plr_embeddings_past_targets;
        past_targets_mask := past_targets_mask;
        output_dim := output_dim |}.

(** Lines 252-254 and 257-259 on one vector along the last axis: the
    selected columns embedded and flattened, then the other columns. *)
Definition embed_columns (mask : option (list bool))
    (plr : option (PLREmbeddings.t T)) (x : list T) : result (list T) :=
  match mask, plr with
  | Some mask, Some plr =>
      x_sel <- index_by_mask mask x ;;
      let x_embedded := concat (PLREmbeddings.forward plr x_sel) in
      x_rest <- index_by_mask (map negb mask) x ;;
      Ok (x_embedded ++ x_rest)
  | _, _ => Raise AttributeError
  end.

Definition shape_0 (x : tensor T) : nat :=
  match x with T2 m => length m | T3 c => length c end.

(** Lines 262-270. *)
Definition append_node_embeddings (e : nn.Embedding.t T) (x : tensor T)
  : result (tensor T) :=
  let weight := nn.Embedding.weight e in
  if torch.shape0 weight =? 0 then Raise ZeroDivisionError
  else
    let graph_batch_size := shape_0 x / torch.shape0 weight in
    let node_embs := concat (repeat (rows_of weight) graph_batch_size) in
    match x with
    | T3 c =>
        let seq_len := match c with [] => 0 | m :: _ => length m end in
        torch.cat_last x (T3 (map (fun r => repeat r seq_len) node_embs))
    | T2 _ => torch.cat_last x (T2 node_embs)
    end.

Definition forward (self : t) (x : tensor T) : result (tensor T) :=
  x <- (if use_plr_for_num_features self
        then on_last_axis (embed_columns (num_features_mask self)
                                         (plr_embeddings_num_features self)) x
        else Ok x) ;;
  x <- (if use_plr_for_past_targtes self
        then on_last_axis (embed_columns (past_targets_mask self)
                                         (plr_embeddings_past_targets self)) x
        else Ok x) ;;
  if use_learnable_node_embeddings self then
    match node_embeddings self with
    | Some e => append_node_embeddings e x
    | None => Raise AttributeError
    end
  else Ok x.

End Defs.
Arguments t T : clear implicits.
End FeaturesPreparatorForDeepModels.

(** ** Two scalar types

    The real numbers carry the arithmetic; rationals extended with the two
    infinities and a NaN carry the comparisons and [isinf]. *)

#[export] Instance R_Scalar : Scalar R := {|
  f0 := 0%R;
  flt := fun a b => if Rlt_dec a b then true else false
|}.

#[export] Instance R_FloatArith : FloatArith R := {|
  fa_scalar := R_Scalar;
  f1 := 1%R;
  fadd := Rplus;
  fmul := Rmult;
  fdiv := Rdiv;
  fexp := exp;
  fsqrt := sqrt;
  of_nat := INR
|}.

Inductive xfloat : Type :=
| XNegInf
| XFin (q : Q)
| XPosInf
| XNaN.

Definition xfloat_lt (a b : xfloat) : bool :=
  match a, b with
  | XNaN, _ | _, XNaN => false
  | _, XNegInf => false
  | XNegInf, _ => true
  | XPosInf, _ => false
  | XFin _, XPosInf => true
  | XFin p, XFin q => negb (Qle_bool q p)
  end.

#[export] Instance xfloat_Scalar : Scalar xfloat := {|
  f0 := XFin 0%Q;
  flt := xfloat_lt
|}.

#[export] Instance xfloat_FloatSpecial : FloatSpecial xfloat := {|
  fs_scalar := xfloat_Scalar;
  neg_inf := XNegInf;
  isinf := fun a => match a with XNegInf | XPosInf => true | _ => false end;
  isnan := fun a => match a with XNaN => true | _ => false end
|}.

(** ** Notions the statements below are written with *)

(** The sources of the incoming edges of [v], in edge order. *)
Definition in_neighbors (g : ops.DGLGraph) (v : nat) : list nat :=
  map snd (ops.in_edges g v).

(** Neither infinite nor NaN. *)
Definition is_finite {T} `{FloatSpecial T} (a : T) : Prop :=
  isinf a = false /\ isnan a = false.

(** The sum of a list of values divided by their number. *)
Definition arithmetic_mean {T} `{FloatArith T} (vs : list T) : T :=
  fdiv (fold_left fadd vs f0) (of_nat (length vs)).

(** Every vector along the last axis of [x] has length [d]. *)
Definition last_dim_is {T} (x : tensor T) (d : nat) : Prop :=
  match x with
  | T2 m => Forall (fun r => length r = d) m
  | T3 c => Forall (Forall (fun r => length r = d)) c
  end.

(** [x.shape == shape] *)
Definition has_shape {T} (x : tensor T) (shape : list nat) : Prop :=
  match x, shape with
  | T2 m, [n; d] => length m = n /\ Forall (fun r => length r = d) m
  | T3 c, [n; s; d] =>
      length c = n
      /\ Forall (fun m => length m = s /\ Forall (fun r => length r = d) m) c
  | _, _ => False
  end.

(** The positions at which a mask is true, in increasing order, counted
    from [s]. *)
Fixpoint true_positions_from (s : nat) (mask : list bool) : list nat :=
  match mask with
  | [] => []
  | b :: mask' => (if b then [s] else []) ++ true_positions_from (S s) mask'
  end.

Definition true_positions (mask : list bool) : list nat :=
  true_positions_from 0 mask.

(** No position is true in both masks. *)
Definition disjoint_masks (m1 m2 : list bool) : bool :=
  forallb (fun p => negb (fst p && snd p)) (combine m1 m2).

(** The number of columns before column [i] that [mask] does not select:
    where column [i] lands among the columns that are left. *)
Definition rank_outside (mask : list bool) (i : nat) : nat :=
  mask_sum (map negb (firstn i mask)).

(** The columns that are neither numeric features nor past targets. *)
Definition plain_mask (num past : list bool) : list bool :=
  map (fun p => negb (fst p) && negb (snd p)) (combine num past).

(** The output dimension as the spec computes it by hand: [F], minus [k]
    plus [k * e] for the numeric features, minus [p] plus [p * e'] for the
    past targets, plus the dimension of the node embeddings. *)
Definition expected_output_dim {T} (a : FeaturesPreparatorForDeepModels.Args.t T)
  : Z :=
  let F := Z.of_nat (FeaturesPreparatorForDeepModels.Args.features_dim a) in
  let k := Z.of_nat (mask_sum (FeaturesPreparatorForDeepModels.Args.num_features_mask a)) in
  let e := Z.of_nat (FeaturesPreparatorForDeepModels.Args.plr_num_features_embedding_dim a) in
  let p := Z.of_nat (mask_sum (FeaturesPreparatorForDeepModels.Args.past_targets_mask a)) in
  let e' := Z.of_nat (FeaturesPreparatorForDeepModels.Args.plr_past_targets_embedding_dim a) in
  let L := Z.of_nat (FeaturesPreparatorForDeepModels.Args.learnable_node_embeddings_dim a) in
  (F
   + (if FeaturesPreparatorForDeepModels.Args.use_plr_for_num_features a
      then - k + k * e else 0)
   + (if FeaturesPreparatorForDeepModels.Args.use_plr_for_past_targets a
      then - p + p * e' else 0)
   + (if FeaturesPreparatorForDeepModels.Args.use_learnable_node_embeddings a
      then L else 0))%Z.

(** Output [o] of a linear layer on the vector [r]. *)
Definition linear_entry {T} `{FloatArith T} (l : nn.Linear.t T) (r : list T)
    (o : nat) : T :=
  let y := nn.Linear.dot r (nth o (nn.Linear.weight l) []) in
  match nn.Linear.bias l with
  | Some b => fadd y (nth o b f0)
  | None => y
  end.

(** The attention score of head [h] on an edge from [u] to [v]:
    [LeakyReLU(linear_u(x_u) + linear_v(x_v))]. *)
Definition gat_score {T} `{FloatArith T} (self : GraphAttnGATAggregationModule.t T)
    (x : mat T) (u v h : nat) : T :=
  nn.LeakyReLU
    (GraphAttnGATAggregationModule.attn_act self)
    (fadd (linear_entry (GraphAttnGATAggregationModule.attn_linear_u self)
                        (nth u x []) h)
          (linear_entry (GraphAttnGATAggregationModule.attn_linear_v self)
                        (nth v x []) h)).

(** The softmax of the scores of head [h] over the incoming edges of [v],
    at the edge from [u]. *)
Definition gat_prob {T} `{FloatArith T} (self : GraphAttnGATAggregationModule.t T)
    (g : ops.DGLGraph) (x : mat T) (u v h : nat) : T :=
  fdiv (fexp (gat_score self x u v h))
       (fold_left (fun acc e => fadd acc (fexp (gat_score self x (snd e) v h)))
                  (ops.in_edges g v) f0).

(** Entry [j] of the aggregated row of [v] if the heads were the contiguous
    slices [[h * head_dim, (h + 1) * head_dim)] of the features: position
    [j] would be weighted by the probabilities of head [j / head_dim]. *)
Definition contiguous_head_sum {T} `{FloatArith T}
    (self : GraphAttnGATAggregationModule.t T)
    (g : ops.DGLGraph) (x : mat T) (v j : nat) : T :=
  fold_left (fun acc e =>
               fadd acc
                    (fmul (gat_prob self g x (snd e) v
                                    (j / GraphAttnGATAggregationModule.head_dim self))
                          (entry x (snd e) j)))
            (ops.in_edges g v) f0.

(** What the constructor establishes about the sizes of a GAT module. *)
Definition gat_sizes_agree {T} `{FloatArith T}
    (self : GraphAttnGATAggregationModule.t T) : Prop :=
  GraphAttnGATAggregationModule.dim self
  = GraphAttnGATAggregationModule.head_dim self
    * GraphAttnGATAggregationModule.num_heads self
  /\ 0 < GraphAttnGATAggregationModule.num_heads self
  /\ nn.Linear.in_features (GraphAttnGATAggregationModule.attn_linear_u self)
     = GraphAttnGATAggregationModule.dim self
  /\ nn.Linear.out_features (GraphAttnGATAggregationModule.attn_linear_u self)
     = GraphAttnGATAggregationModule.num_heads self
  /\ nn.Linear.in_features (GraphAttnGATAggregationModule.attn_linear_v self)
     = GraphAttnGATAggregationModule.dim self
  /\ nn.Linear.out_features (GraphAttnGATAggregationModule.attn_linear_v self)
     = GraphAttnGATAggregationModule.num_heads self.

(** ** Concrete inputs *)

(** Blocks of [h] rows of [d] entries: a 3-dimensional tensor of shape
    (_, h, d). *)
Definition blocks_of_shape {A} (h d : nat) (c : list (list (list A))) : Prop :=
  Forall (fun m => length m = h /\ Forall (fun r => length r = d) m) c.

(** What the constructor establishes about the sizes of a transformer
    attention module built with positive arguments. *)
Definition trf_sizes_agree {T} `{FloatArith T}
    (self : GraphAttnTrfAggregationModule.t T) : Prop :=
  GraphAttnTrfAggregationModule.dim self
  = GraphAttnTrfAggregationModule.num_heads self
    * GraphAttnTrfAggregationModule.head_dim self
  /\ 0 < GraphAttnTrfAggregationModule.num_heads self
  /\ 0 < GraphAttnTrfAggregationModule.head_dim self
  /\ nn.Linear.in_features (GraphAttnTrfAggregationModule.attn_qkv_linear self)
     = GraphAttnTrfAggregationModule.dim self
  /\ nn.Linear.out_features (GraphAttnTrfAggregationModule.attn_qkv_linear self)
     = GraphAttnTrfAggregationModule.dim self * 3
  /\ nn.Linear.in_features (GraphAttnTrfAggregationModule.output_linear self)
     = GraphAttnTrfAggregationModule.dim self
  /\ nn.Linear.out_features (GraphAttnTrfAggregationModule.output_linear self)
     = GraphAttnTrfAggregationModule.dim self.

(** Component [k] of the query, of the key and of the value of head [h] at
    node [u]: head [h] owns the columns
    [[h * 3 * head_dim, (h + 1) * 3 * head_dim)] of the fused projection,
    its query first, then its key, then its value. *)
Definition trf_query {T} `{FloatArith T} (self : GraphAttnTrfAggregationModule.t T)
    (x : mat T) (u h k : nat) : T :=
  linear_entry (GraphAttnTrfAggregationModule.attn_qkv_linear self) (nth u x [])
               (h * (GraphAttnTrfAggregationModule.head_dim self * 3) + k).

Definition trf_key {T} `{FloatArith T} (self : GraphAttnTrfAggregationModule.t T)
    (x : mat T) (u h k : nat) : T :=
  linear_entry (GraphAttnTrfAggregationModule.attn_qkv_linear self) (nth u x [])
               (h * (GraphAttnTrfAggregationModule.head_dim self * 3)
                + (GraphAttnTrfAggregationModule.head_dim self + k)).

Definition trf_value {T} `{FloatArith T} (self : GraphAttnTrfAggregationModule.t T)
    (x : mat T) (u h k : nat) : T :=
  linear_entry (GraphAttnTrfAggregationModule.attn_qkv_linear self) (nth u x [])
               (h * (GraphAttnTrfAggregationModule.head_dim self * 3)
                + (GraphAttnTrfAggregationModule.head_dim self
                   + GraphAttnTrfAggregationModule.head_dim self + k)).

(** The attention score of head [h] on an edge from [u] to [v]: the key of
    the source against the query of the destination, scaled. *)
Definition trf_score {T} `{FloatArith T} (self : GraphAttnTrfAggregationModule.t T)
    (x : mat T) (u v h : nat) : T :=
  fmul (fold_left (fun acc k =>
                     fadd acc (fmul (trf_key self x u h k) (trf_query self x v h k)))
                  (seq 0 (GraphAttnTrfAggregationModule.head_dim self)) f0)
       (GraphAttnTrfAggregationModule.attn_scores_multiplier self).

Definition trf_prob {T} `{FloatArith T} (self : GraphAttnTrfAggregationModule.t T)
    (g : ops.DGLGraph) (x : mat T) (u v h : nat) : T :=
  fdiv (fexp (trf_score self x u v h))
       (fold_left (fun acc e => fadd acc (fexp (trf_score self x (snd e) v h)))
                  (ops.in_edges g v) f0).

Module Examples.

(** Three nodes pointing at a fourth one. *)
Definition star : ops.DGLGraph :=
  {| ops.num_nodes := 4; ops.edges := [(0, 3); (1, 3); (2, 3)] |}.

Definition star_features : mat R :=
  [[1; 2]; [3; 4]; [5; 6]; [0; 0]]%R.

Definition star_finite_features : mat xfloat :=
  [[XFin 1; XFin 5]; [XFin 3; XFin 4]; [XFin 2; XFin 6]; [XFin 0; XFin 0]]%Q.

(** One edge, from node 0 to node 1; node 2 is isolated. *)
Definition pair_and_loner : ops.DGLGraph :=
  {| ops.num_nodes := 3; ops.edges := [(0, 1)] |}.

Definition pair_and_loner_features : mat xfloat :=
  [[XPosInf; XNegInf; XFin 1]; [XFin 2; XFin 3; XFin 4]; [XFin 5; XNaN; XNegInf]]%Q.

(** The graph of the spec's end-to-end scenario. *)
Definition scenario : ops.DGLGraph :=
  {| ops.num_nodes := 5; ops.edges := [(0, 1); (1, 2); (2, 0); (3, 4)] |}.

Definition scenario_features : mat R :=
  [[1; 2; 3; 4]; [5; 6; 7; 8]; [9; 10; 11; 12]; [13; 14; 15; 16];
   [17; 18; 19; 20]]%R.

Definition scenario_init : initializer R :=
  fun _ i j => INR (i + 2 * j).

(** Two nodes pointing at a third one; the only non-zero weight of the
    attention makes the score of head 1 the first feature of the source. *)
Definition fork : ops.DGLGraph :=
  {| ops.num_nodes := 3; ops.edges := [(0, 2); (1, 2)] |}.

Definition fork_features : mat R :=
  [[1; 1; 0; 0]; [0; 0; 0; 0]; [0; 0; 0; 0]]%R.

Definition fork_init : initializer R :=
  fun name i j =>
    if String.eqb name "attn_linear_u.weight" && (i =? 1) && (j =? 0)
    then 1%R else 0%R.

(** The module [GraphAttnGATAggregationModule(dim=4, num_heads=2)] built
    with these weights. *)
Definition fork_module : GraphAttnGATAggregationModule.t R :=
  {| GraphAttnGATAggregationModule.dim := 4;
     GraphAttnGATAggregationModule.num_heads := 2;
     GraphAttnGATAggregationModule.head_dim := 2;
     GraphAttnGATAggregationModule.attn_linear_u :=
       {| nn.Linear.in_features := 4;
          nn.Linear.out_features := 2;
          nn.Linear.weight := [[0; 0; 0; 0]; [1; 0; 0; 0]]%R;
          nn.Linear.bias := Some [0; 0]%R |};
     GraphAttnGATAggregationModule.attn_linear_v :=
       {| nn.Linear.in_features := 4;
          nn.Linear.out_features := 2;
          nn.Linear.weight := [[0; 0; 0; 0]; [0; 0; 0; 0]]%R;
          nn.Linear.bias := None |};
     GraphAttnGATAggregationModule.attn_act := (INR 2 / INR 10)%R |}.

(** A preparator over integer scalars: four features, the first and the
    last numeric, the second a past target, two nodes. *)
Definition deepwalk : torch.Matrix Z :=
  {| torch.shape0 := 2; torch.shape1 := 2;
     torch.item := fun i j => Z.of_nat (100 + 10 * i + j) |}.

Definition args (num_features_mask past_targets_mask : list bool)
    (learnable_node_embeddings_dim : nat)
  : FeaturesPreparatorForDeepModels.Args.t Z :=
  {| FeaturesPreparatorForDeepModels.Args.features_dim := 4;
     FeaturesPreparatorForDeepModels.Args.use_learnable_node_embeddings := true;
     FeaturesPreparatorForDeepModels.Args.num_nodes := 2;
     FeaturesPreparatorForDeepModels.Args.learnable_node_embeddings_dim :=
       learnable_node_embeddings_dim;
     FeaturesPreparatorForDeepModels.Args.initialize_learnable_node_embeddings_with_deepwalk := true;
     FeaturesPreparatorForDeepModels.Args.deepwalk_node_embeddings := Some deepwalk;
     FeaturesPreparatorForDeepModels.Args.use_plr_for_num_features := true;
     FeaturesPreparatorForDeepModels.Args.num_features_mask := num_features_mask;
     FeaturesPreparatorForDeepModels.Args.plr_num_features_frequencies_dim := 8;
     FeaturesPreparatorForDeepModels.Args.plr_num_features_frequencies_scale := 1%Z;
     FeaturesPreparatorForDeepModels.Args.plr_num_features_embedding_dim := 2;
     FeaturesPreparatorForDeepModels.Args.plr_num_features_shared_linear := false;
     FeaturesPreparatorForDeepModels.Args.plr_num_features_shared_frequencies := false;
     FeaturesPreparatorForDeepModels.Args.use_plr_for_past_targets := true;
     FeaturesPreparatorForDeepModels.Args.past_targets_mask := past_targets_mask;
     FeaturesPreparatorForDeepModels.Args.plr_past_targets_frequencies_dim := 8;
     FeaturesPreparatorForDeepModels.Args.plr_past_targets_frequencies_scale := 1%Z;
     FeaturesPreparatorForDeepModels.Args.plr_past_targets_embedding_dim := 3;
     FeaturesPreparatorForDeepModels.Args.plr_past_targets_shared_linear := true;
     FeaturesPreparatorForDeepModels.Args.plr_past_targets_shared_frequencies := true;
     FeaturesPreparatorForDeepModels.Args.init := fun _ _ _ => 0%Z;
     FeaturesPreparatorForDeepModels.Args.plr_num_features_embed :=
       fun _ t c => (10 * t + Z.of_nat c)%Z;
     FeaturesPreparatorForDeepModels.Args.plr_past_targets_embed :=
       fun _ t c => (- (10 * t + Z.of_nat c))%Z |}.

Definition disjoint_args : FeaturesPreparatorForDeepModels.Args.t Z :=
  args [true; false; false; true] [false; true; false; false] 2.

(** The second feature is numeric and a past target at once. *)
Definition overlapping_args : FeaturesPreparatorForDeepModels.Args.t Z :=
  args [true; true; false; false] [false; true; true; false] 2.

Definition mismatched_args : FeaturesPreparatorForDeepModels.Args.t Z :=
  args [true; false; false; true] [false; true; false; false] 3.

Definition features : tensor Z :=
  T2 [[1; 2; 3; 4]; [5; 6; 7; 8]]%Z.

(** The same preparator with no embedding of the features: only the node
    embeddings are appended. *)
Definition embedding_only_args : FeaturesPreparatorForDeepModels.Args.t Z :=
  {| FeaturesPreparatorForDeepModels.Args.features_dim := 4;
     FeaturesPreparatorForDeepModels.Args.use_learnable_node_embeddings := true;
     FeaturesPreparatorForDeepModels.Args.num_nodes := 2;
     FeaturesPreparatorForDeepModels.Args.learnable_node_embeddings_dim := 2;
     FeaturesPreparatorForDeepModels.Args.initialize_learnable_node_embeddings_with_deepwalk := true;
     FeaturesPreparatorForDeepModels.Args.deepwalk_node_embeddings := Some deepwalk;
     FeaturesPreparatorForDeepModels.Args.use_plr_for_num_features := false;
     FeaturesPreparatorForDeepModels.Args.num_features_mask := [];
     FeaturesPreparatorForDeepModels.Args.plr_num_features_frequencies_dim := 8;
     FeaturesPreparatorForDeepModels.Args.plr_num_features_frequencies_scale := 1%Z;
     FeaturesPreparatorForDeepModels.Args.plr_num_features_embedding_dim := 2;
     FeaturesPreparatorForDeepModels.Args.plr_num_features_shared_linear := false;
     FeaturesPreparatorForDeepModels.Args.plr_num_features_shared_frequencies := false;
     FeaturesPreparatorForDeepModels.Args.use_plr_for_past_targets := false;
     FeaturesPreparatorForDeepModels.Args.past_targets_mask := [];
     FeaturesPreparatorForDeepModels.Args.plr_past_targets_frequencies_dim := 8;
     FeaturesPreparatorForDeepModels.Args.plr_past_targets_frequencies_scale := 1%Z;
     FeaturesPreparatorForDeepModels.Args.plr_past_targets_embedding_dim := 3;
     FeaturesPreparatorForDeepModels.Args.plr_past_targets_shared_linear := true;
     FeaturesPreparatorForDeepModels.Args.plr_past_targets_shared_frequencies := true;
     FeaturesPreparatorForDeepModels.Args.init := fun _ _ _ => 0%Z;
     FeaturesPreparatorForDeepModels.Args.plr_num_features_embed := fun _ t _ => t;
     FeaturesPreparatorForDeepModels.Args.plr_past_targets_embed := fun _ t _ => t |}.

(** Two samples, each a sequence of two vectors of features. *)
Definition sequence_features : list (mat Z) :=
  [[[1; 2; 3; 4]; [5; 6; 7; 8]]; [[9; 10; 11; 12]; [13; 14; 15; 16]]]%Z.

(** An activation and two parameter draws for the feed-forward module; the
    second draw leaves the second linear layer at zero. *)
Definition act : R -> R := Rmax 0.

Definition zero_tail_init : initializer R :=
  fun name i j =>
    if String.eqb name "linear_2.weight" || String.eqb name "linear_2.bias"
    then 0%R else INR (i + 2 * j).

End Examples.

(** ** Addition of node-feature matrices

    [a + b] on 2-dimensional tensors, with torch's broadcasting: along each
    axis the sizes agree or one of them is 1.  (A matrix without rows has
    lost its width in this representation, so the widths of two such
    matrices are not compared.) *)

Module elementwise.
Section Defs.
Context {T : Type} `{FloatArith T}.

Definition size_mismatch : exn :=
  RuntimeError "The size of tensor a must match the size of tensor b".

Definition add_vec (a b : list T) : result (list T) :=
  match a, b with
  | [x], _ => Ok (map (fadd x) b)
  | _, [y] => Ok (map (fun x => fadd x y) a)
  | _, _ =>
      if length a =? length b
      then Ok (map (fun p => fadd (fst p) (snd p)) (combine a b))
      else Raise size_mismatch
  end.

Definition add (a b : mat T) : result (mat T) :=
  match a, b with
  | [r], _ => map_result (add_vec r) b
  | _, [r] => map_result (fun r' => add_vec r' r) a
  | _, _ =>
      if length a =? length b
      then map_result (fun p => add_vec (fst p) (snd p)) (combine a b)
      else Raise size_mismatch
  end.

End Defs.
End elementwise.

(** ** Modules as the wrapper calls them

    A call [module(...)] binds the positional arguments to the parameters of
    [forward]; a call whose arguments do not fit is a TypeError.  The
    parameter names are those of the [forward] methods of modules.py. *)

Module callable.
Section Defs.
Variables graph tensor : Type.

(** A module whose method is [forward(self, graph, x)]. *)
Definition with_graph (fwd : graph -> tensor -> result tensor)
  : ResidualModulesWrapper.nn_Module graph tensor :=
  {| ResidualModulesWrapper.forward_parameters := ["graph"; "x"]%string;
     ResidualModulesWrapper.call :=
       fun args =>
         match args with
         | [ResidualModulesWrapper.AGraph _ g; ResidualModulesWrapper.ATensor _ x] =>
             fwd g x
         | _ => Raise TypeError
         end;
     ResidualModulesWrapper.takes_graph_as_input := None |}.

(** A module whose method is [forward(self, x)]. *)
Definition without_graph (fwd : tensor -> result tensor)
  : ResidualModulesWrapper.nn_Module graph tensor :=
  {| ResidualModulesWrapper.forward_parameters := ["x"]%string;
     ResidualModulesWrapper.call :=
       fun args =>
         match args with
         | [ResidualModulesWrapper.ATensor _ x] => fwd x
         | _ => Raise TypeError
         end;
     ResidualModulesWrapper.takes_graph_as_input := None |}.

(** A [ResidualModulesWrapper] is itself a module, with
    [forward(self, graph, x)]. *)
Definition of_wrapper (tensor_add : tensor -> tensor -> result tensor)
    (w : ResidualModulesWrapper.t graph tensor)
  : ResidualModulesWrapper.nn_Module graph tensor :=
  with_graph (ResidualModulesWrapper.forward tensor_add w).

End Defs.
End callable.

(** The matrix a module returned, when it is 2-dimensional. *)
Definition as_matrix {T} (r : result (tensor T)) : result (mat T) :=
  t <- r ;;
  match t with
  | T2 m => Ok m
  | T3 _ => Raise TypeError
  end.

(** ** FeedForwardModule (lines 34-50)

    The activation is the library's GELU, an argument of the constructor
    here. *)

Module FeedForwardModule.
Section Defs.
Context {T : Type} `{FloatArith T}.

Record t : Type := {
  linear_1 : nn.Linear.t T;
  dropout_1 : T;
  act : T -> T;
  linear_2 : nn.Linear.t T;
  dropout_2 : T;
  training : bool
}.

Definition __init__ (init : initializer T) (GELU : T -> T)
    (dim num_inputs : Z) (dropout : T) : result t :=
  linear_1 <- nn.Linear.__init__ init "linear_1" (dim * num_inputs) dim true ;;
  linear_2 <- nn.Linear.__init__ init "linear_2" dim dim true ;;
  Ok {| linear_1 := linear_1;
        dropout_1 := dropout;
        act := GELU;
        linear_2 := linear_2;
        dropout_2 := dropout;
        training := true |}.

(** [module.eval()] *)
Definition eval (self : t) : t :=
  {| linear_1 := linear_1 self;
     dropout_1 := dropout_1 self;
     act := act self;
     linear_2 := linear_2 self;
     dropout_2 := dropout_2 self;
     training := false |}.

Definition forward (draw : dropout_draw T) (self : t) (x : mat T)
  : result (mat T) :=
  x <- nn.Linear.forward (linear_1 self) x ;;
  let x := nn_Dropout draw "dropout_1" (training self) (dropout_1 self) x in
  let x := map (map (act self)) x in
  x <- nn.Linear.forward (linear_2 self) x ;;
  let x := nn_Dropout draw "dropout_2" (training self) (dropout_2 self) x in
  Ok x.

End Defs.
Arguments t T : clear implicits.
End FeedForwardModule.

(** A dropout that drops every entry. *)
Definition drop_all : dropout_draw R := fun _ _ m => map (map (fun _ => 0%R)) m.

(** A dropout draw that keeps the shape of its input, as torch's does. *)
Definition preserves_shape {T} (draw : dropout_draw T) : Prop :=
  forall name p m d,
    Forall (fun r => length r = d) m ->
    length (draw name p m) = length m
    /\ Forall (fun r => length r = d) (draw name p m).

(** The entrywise sum of two matrices of the same shape. *)
Definition zip_add {T} `{FloatArith T} (a b : mat T) : mat T :=
  map (fun p => map (fun q => fadd (fst q) (snd q)) (combine (fst p) (snd p)))
      (combine a b).

(** ** Proof automation

    [outcome_leaf] closes one case of a case analysis on the outcome of a
    constructor: it splits the goal, opens the conjunctions and the
    existentials of the context and tries the obvious witnesses. *)

Ltac use_facts :=
  repeat match goal with
  | H : _ /\ _ |- _ => destruct H
  | H : exists _, _ |- _ => destruct H
  | H : Some _ = Some _ |- _ => inversion H; subst; clear H
  | H : true = true /\ true = true -> _ |- _ =>
      specialize (H (conj eq_refl eq_refl))
  end.

Ltac outcome_leaf :=
  repeat split; intros; use_facts;
  try discriminate; try congruence; try tauto;
  try (eexists; reflexivity);
  try (eexists; repeat split; (reflexivity || congruence || eassumption)).

(** * Properties *)

Unset Implicit Arguments.

Section ResidualFacts.

Variables graph tensor : Type.
Variable tensor_add : tensor -> tensor -> result tensor.

Import ResidualModulesWrapper.

Lemma loop_raise (g : graph) (ms : list (nn_Module graph tensor)) e :
  fold_left (fun acc m => x_res <- acc ;; loop_body g x_res m) ms (Raise e)
  = Raise e.
Proof. induction ms as [|m ms IH]; simpl; auto. Qed.

Lemma loop_body_flagged (g : graph) (m : nn_Module graph tensor) x :
  loop_body g x (set_takes_graph_as_input m) = call_by_signature g m x.
Proof.
  unfold loop_body, call_by_signature; simpl.
  destruct (declares_graph m); reflexivity.
Qed.

Lemma loop_is_chain (g : graph) (ms : list (nn_Module graph tensor)) x :
  fold_left (fun acc m => x_res <- acc ;; loop_body g x_res m)
            (map (@set_takes_graph_as_input _ _) ms) (Ok x)
  = manual_chain g ms x.
Proof.
  revert x; induction ms as [|m ms IH]; intros x; simpl; [reflexivity|].
  rewrite loop_body_flagged.
  destruct (call_by_signature g m x) as [y|e]; simpl.
  - apply IH.
  - apply loop_raise.
Qed.

(** C1: [forward(g, x)] of a wrapper built from a list of modules is
    [x + x_res], where [x_res] is [x] threaded through the modules in list
    order, the graph passed as first argument exactly to the modules whose
    [forward] signature has a parameter named [graph]; that is the manual
    chain followed by the addition of the input. *)
Theorem residual_forward_is_manual_chain
    (ms : list (nn_Module graph tensor)) (g : graph) (x : tensor) :
  forward tensor_add (__init__ (ModuleSeq ms)) g x
  = (x_res <- manual_chain g ms x ;; tensor_add x x_res).
Proof.
  unfold forward, __init__; simpl.
  rewrite loop_is_chain. reflexivity.
Qed.

(** C9: a wrapper built from one bare module is the wrapper built from the
    one-element list holding that module, so the two return the same on
    every graph and input. *)
Theorem residual_bare_module_is_singleton_list
    (m : nn_Module graph tensor) (g : graph) (x : tensor) :
  __init__ (OneModule m) = __init__ (ModuleSeq [m])
  /\ forward tensor_add (__init__ (OneModule m)) g x
     = forward tensor_add (__init__ (ModuleSeq [m])) g x.
Proof. split; reflexivity. Qed.

(** The scenario of the spec: a graph-aware module followed by a
    graph-agnostic one. *)
Lemma residual_two_modules (m1 m2 : nn_Module graph tensor) (g : graph) (x : tensor) :
declares_graph m1 = true ->
declares_graph m2 = false ->
forward tensor_add (__init__ (ModuleSeq [m1; m2])) g x
= (y <- call m1 [@AGraph graph tensor g; @ATensor graph tensor x] ;;
   z <- call m2 [@ATensor graph tensor y] ;;
   tensor_add x z).
Proof.
intros H1 H2. unfold forward, __init__. cbn [wrapped_modules].
rewrite loop_is_chain. simpl. unfold call_by_signature. rewrite H1, H2.
destruct (call m1 _) as [y|e]; simpl; [|reflexivity].
destruct (call m2 _) as [z|e]; reflexivity.
Qed.

End ResidualFacts.

(** ** Lists *)

Lemma nth_map_seq {A} (f : nat -> A) (n i : nat) (d : A) :
  i < n -> nth i (map f (seq 0 n)) d = f i.
Proof.
  intros Hi.
  rewrite (nth_indep _ d (f 0)) by (rewrite length_map, length_seq; exact Hi).
  rewrite (map_nth f (seq 0 n) 0 i), seq_nth by exact Hi.
  reflexivity.
Qed.

Lemma fold_left_map {A B C} (f : A -> C -> A) (g : B -> C) (l : list B) (a : A) :
  fold_left f (map g l) a = fold_left (fun acc b => f acc (g b)) l a.
Proof. revert a; induction l as [|b l IH]; intros a; simpl; auto. Qed.

Lemma Forall_nth_length {A} (l : list (list A)) (d i : nat) :
  Forall (fun r => length r = d) l -> i < length l -> length (nth i l []) = d.
Proof.
  intros HF Hi. rewrite Forall_forall in HF.
  apply HF, nth_In, Hi.
Qed.

Lemma ncols_uniform {A} (l : list (list A)) (d : nat) :
  Forall (fun r => length r = d) l -> l <> [] -> ncols l = d.
Proof. intros HF Hne. destruct l as [|r l]; [congruence|]. inversion HF; auto. Qed.

Section CatRows.
Context {T : Type}.

Lemma length_cat_rows (a b : mat T) :
  length a = length b -> length (torch.cat_rows a b) = length a.
Proof.
  intros E. unfold torch.cat_rows.
  rewrite length_map, length_combine, <- E. apply Nat.min_id.
Qed.

Lemma nth_cat_rows (a b : mat T) (v : nat) :
  length a = length b -> v < length a ->
  nth v (torch.cat_rows a b) [] = nth v a [] ++ nth v b [].
Proof.
  intros E Hv. unfold torch.cat_rows.
  rewrite (nth_indep _ [] ((fun p => fst p ++ snd p) (@nil T, @nil T)))
    by (rewrite length_map, length_combine, <- E, Nat.min_id; exact Hv).
  rewrite (map_nth (fun p => fst p ++ snd p)), combine_nth by exact E.
  reflexivity.
Qed.

End CatRows.

(** ** The message-passing primitives *)

Lemma In_combine_seq {A} (l : list A) (s e : nat) (a : A) :
  In (e, a) (combine (seq s (length l)) l)
  <-> s <= e /\ nth_error l (e - s) = Some a.
Proof.
  revert s; induction l as [|b l IH]; intros s; simpl.
  - split; [contradiction|]. intros [_ H]. destruct (e - s); discriminate.
  - rewrite IH. split.
    + intros [H|[Hle H]].
      * inversion H; subst. rewrite Nat.sub_diag. split; [lia|reflexivity].
      * split; [lia|]. replace (e - s) with (S (e - S s)) by lia. exact H.
    + intros [Hle H]. destruct (e - s) as [|k] eqn:E.
      * left. simpl in H. inversion H. f_equal. lia.
      * right. split; [lia|]. simpl in H. replace (e - S s) with k by lia. exact H.
Qed.

Lemma in_edges_spec (g : ops.DGLGraph) (v e u : nat) :
  In (e, u) (ops.in_edges g v) <-> nth_error (ops.edges g) e = Some (u, v).
Proof.
  unfold ops.in_edges. rewrite in_map_iff. split.
  - intros [[e' [u' v']] [Heq Hin]]. simpl in Heq. inversion Heq; subst.
    apply filter_In in Hin. destruct Hin as [Hin Hv]. simpl in Hv.
    apply Nat.eqb_eq in Hv. subst v'.
    apply In_combine_seq in Hin. rewrite Nat.sub_0_r in Hin. apply Hin.
  - intros H. exists (e, (u, v)). split; [reflexivity|].
    apply filter_In. split; [|simpl; apply Nat.eqb_refl].
    apply In_combine_seq. rewrite Nat.sub_0_r. split; [lia|exact H].
Qed.

Lemma in_edges_source_lt (g : ops.DGLGraph) (v e u : nat) :
  ops.well_formed g -> In (e, u) (ops.in_edges g v) ->
  e < length (ops.edges g) /\ u < ops.num_nodes g.
Proof.
  intros Hwf Hin. apply in_edges_spec in Hin. split.
  - apply nth_error_Some. congruence.
  - apply nth_error_In in Hin. unfold ops.well_formed in Hwf.
    rewrite Forall_forall in Hwf. apply (Hwf _ Hin).
Qed.

(** ** GraphMeanAggregationModule *)

Section MeanFacts.
Context {T : Type} `{FloatArith T}.

Lemma copy_u_mean_ok (g : ops.DGLGraph) (x : mat T) :
  length x = ops.num_nodes g ->
  exists m, ops.copy_u_mean g x = Ok m
    /\ length m = ops.num_nodes g
    /\ forall v, v < ops.num_nodes g ->
         nth v m [] =
         map (fun j =>
                fdiv (fold_left (fun acc e => fadd acc (entry x (snd e) j))
                                (ops.in_edges g v) f0)
                     (of_nat (Nat.max 1 (length (ops.in_edges g v)))))
             (seq 0 (ncols x)).
Proof.
  intros Hx. unfold ops.copy_u_mean.
  rewrite (proj2 (Nat.eqb_eq _ _) Hx).
  eexists; split; [reflexivity|]. split.
  - rewrite length_map, length_seq. reflexivity.
  - intros v Hv. rewrite nth_map_seq by exact Hv. reflexivity.
Qed.

(** C6: [forward(graph, x)] is [x] with the mean aggregation appended
    row by row, so of width [2 * d]; at a node with an incoming edge the
    appended entries are the arithmetic means of the in-neighbours'
    entries, and with in-neighbour vectors [a, b, c] they are
    [(a + b + c) / 3]. *)
Theorem mean_forward_appends_neighbor_mean
    (g : ops.DGLGraph) (x : mat T) (d : nat) :
  length x = ops.num_nodes g ->
  Forall (fun r => length r = d) x ->
  exists m,
    GraphMeanAggregationModule.forward g x = Ok (T2 (torch.cat_rows x m))
    /\ last_dim_is (T2 (torch.cat_rows x m)) (2 * d)
    /\ forall v, v < ops.num_nodes g ->
         nth v (torch.cat_rows x m) [] = nth v x [] ++ nth v m []
         /\ length (nth v x []) = d
         /\ length (nth v m []) = d
         /\ (in_neighbors g v <> [] ->
             forall j, j < d ->
               entry m v j
               = arithmetic_mean (map (fun u => entry x u j) (in_neighbors g v)))
         /\ ((forall a : T, fadd f0 a = a) ->
             forall ua ub uc, in_neighbors g v = [ua; ub; uc] ->
             forall j, j < d ->
               entry m v j
               = fdiv (fadd (fadd (entry x ua j) (entry x ub j)) (entry x uc j))
                      (of_nat 3)).
Proof.
  intros Hx HF.
  destruct (copy_u_mean_ok g x Hx) as (m & Hm & Hlen & Hrow).
  assert (Hcols : forall v, v < ops.num_nodes g -> ncols x = d).
  { intros v Hv. apply ncols_uniform; [exact HF|].
    intros E. rewrite E in Hx. simpl in Hx. lia. }
  assert (Hentry : forall v j, v < ops.num_nodes g -> j < d ->
            entry m v j
            = fdiv (fold_left fadd (map (fun u => entry x u j) (in_neighbors g v)) f0)
                   (of_nat (Nat.max 1 (length (in_neighbors g v))))).
  { intros v j Hv Hj. unfold entry at 1. rewrite (Hrow v Hv), (Hcols v Hv).
    rewrite nth_map_seq by exact Hj.
    unfold in_neighbors. rewrite !fold_left_map, length_map. reflexivity. }
  exists m. split; [|split].
  - unfold GraphMeanAggregationModule.forward. rewrite Hm. simpl.
    rewrite Hx, Hlen, Nat.eqb_refl. reflexivity.
  - simpl. apply Forall_forall. intros r Hr.
    apply (In_nth _ _ []) in Hr. destruct Hr as (v & Hv & <-).
    rewrite length_cat_rows in Hv by congruence.
    rewrite nth_cat_rows by congruence.
    rewrite length_app, (Forall_nth_length _ _ _ HF Hv).
    rewrite Hx in Hv. rewrite (Hrow v Hv), length_map, length_seq, (Hcols v Hv).
    lia.
  - intros v Hv. split; [|split; [|split; [|split]]].
    + apply nth_cat_rows; congruence.
    + apply (Forall_nth_length _ _ _ HF). congruence.
    + rewrite (Hrow v Hv), length_map, length_seq. eauto.
    + intros Hne j Hj. rewrite (Hentry v j Hv Hj). unfold arithmetic_mean.
      rewrite length_map.
      destruct (in_neighbors g v) as [|u us]; [congruence|]. reflexivity.
    + intros Hadd ua ub uc Hn j Hj. rewrite (Hentry v j Hv Hj), Hn. simpl.
      rewrite Hadd. reflexivity.
Qed.

End MeanFacts.

(** ** GraphMaxAggregationModule *)

Section MaxFacts.
Context {T : Type} `{FloatSpecial T}.

Lemma copy_u_max_ok (g : ops.DGLGraph) (x : mat T) :
  length x = ops.num_nodes g ->
  exists r, ops.copy_u_max g x = Ok r
    /\ length r = ops.num_nodes g
    /\ forall v, v < ops.num_nodes g ->
         nth v r [] =
         map (fun j =>
                fold_left (fun acc e =>
                             let val := entry x (snd e) j in
                             if flt acc val then val else acc)
                          (ops.in_edges g v) neg_inf)
             (seq 0 (ncols x)).
Proof.
  intros Hx. unfold ops.copy_u_max.
  rewrite (proj2 (Nat.eqb_eq _ _) Hx).
  eexists; split; [reflexivity|]. split.
  - rewrite length_map, length_seq. reflexivity.
  - intros v Hv. rewrite nth_map_seq by exact Hv. reflexivity.
Qed.

Lemma nth_zero_where_isinf (r : mat T) (v : nat) :
  nth v (GraphMaxAggregationModule.zero_where_isinf r) []
  = map (fun a => if isinf a then f0 else a) (nth v r []).
Proof.
  unfold GraphMaxAggregationModule.zero_where_isinf.
  change (@nil T) with (map (fun a : T => if isinf a then f0 else a) []) at 1.
  apply map_nth.
Qed.

Lemma length_zero_where_isinf (r : mat T) :
  length (GraphMaxAggregationModule.zero_where_isinf r) = length r.
Proof. apply length_map. Qed.

(** What [forward] returns on a well-shaped input, row by row. *)
Lemma max_forward_rows (g : ops.DGLGraph) (x : mat T) (d : nat) :
  length x = ops.num_nodes g ->
  Forall (fun r => length r = d) x ->
  exists r y,
    ops.copy_u_max g x = Ok r
    /\ GraphMaxAggregationModule.forward g x = Ok (T2 y)
    /\ forall v, v < ops.num_nodes g ->
         length (nth v x []) = d
         /\ length (nth v r []) = d
         /\ nth v r [] =
            map (fun j =>
                   fold_left (fun acc e =>
                                let val := entry x (snd e) j in
                                if flt acc val then val else acc)
                             (ops.in_edges g v) neg_inf)
                (seq 0 d)
         /\ nth v y [] =
            nth v x [] ++ map (fun a => if isinf a then f0 else a) (nth v r []).
Proof.
  intros Hx HF.
  destruct (copy_u_max_ok g x Hx) as (r & Hr & Hlen & Hrow).
  exists r, (torch.cat_rows x (GraphMaxAggregationModule.zero_where_isinf r)).
  split; [exact Hr|]. split.
  - unfold GraphMaxAggregationModule.forward. rewrite Hr. simpl.
    rewrite length_zero_where_isinf, Hx, Hlen, Nat.eqb_refl. reflexivity.
  - intros v Hv.
    assert (Hc : ncols x = d).
    { apply ncols_uniform; [exact HF|]. intros E. rewrite E in Hx. simpl in Hx. lia. }
    rewrite (Hrow v Hv), Hc, length_map, length_seq.
    split; [apply (Forall_nth_length _ _ _ HF); congruence|].
    split; [reflexivity|]. split; [reflexivity|].
    rewrite nth_cat_rows
      by (rewrite ?length_zero_where_isinf; congruence).
    rewrite nth_zero_where_isinf, (Hrow v Hv), Hc. reflexivity.
Qed.

(** C5: at a node without incoming edges the aggregated half of the
    output row is the zero vector, whatever [x] holds: the row of minus
    infinities the reduction leaves there is replaced entry by entry.
    No entry of it is infinite or NaN. *)
Theorem max_forward_isolated_node_is_zero
    (g : ops.DGLGraph) (x : mat T) (d v : nat) :
  isinf neg_inf = true ->
  length x = ops.num_nodes g ->
  Forall (fun r => length r = d) x ->
  v < ops.num_nodes g ->
  ops.in_edges g v = [] ->
  exists y,
    GraphMaxAggregationModule.forward g x = Ok (T2 y)
    /\ nth v y [] = nth v x [] ++ repeat f0 d
    /\ (isinf f0 = false -> isnan f0 = false ->
        Forall (fun a => isinf a = false /\ isnan a = false)
               (skipn d (nth v y []))).
Proof.
  intros Hinf Hx HF Hv Hiso.
  destruct (max_forward_rows g x d Hx HF) as (r & y & _ & Hy & Hrows).
  destruct (Hrows v Hv) as (Hlx & _ & Hr & Hyv).
  assert (Hz : map (fun a => if isinf a then f0 else a) (nth v r []) = repeat f0 d).
  { rewrite Hr, Hiso. simpl. rewrite map_map, Hinf.
    clear. generalize 0. induction d as [|d IH]; intros s; simpl; [reflexivity|].
    f_equal. apply IH. }
  exists y. split; [exact Hy|]. rewrite Hyv, Hz. split; [reflexivity|].
  intros H0 Hn. rewrite skipn_app, <- Hlx, skipn_all, Nat.sub_diag. simpl.
  apply Forall_forall. intros a Ha. apply repeat_spec in Ha. subst a. auto.
Qed.

(** C10: the first half of every output row is the row of [x]; entry [j]
    of the second half is 0 where the max-reduced entry is infinite, of
    either sign, and the max-reduced entry elsewhere, so no entry of the
    second half is infinite.  In particular the infinite entry of a sole
    in-neighbour is zeroed. *)
Theorem max_forward_zeroes_infinite_entries
    (g : ops.DGLGraph) (x : mat T) (d : nat) :
  length x = ops.num_nodes g ->
  Forall (fun r => length r = d) x ->
  exists r y,
    ops.copy_u_max g x = Ok r
    /\ GraphMaxAggregationModule.forward g x = Ok (T2 y)
    /\ forall v, v < ops.num_nodes g ->
         firstn d (nth v y []) = nth v x []
         /\ length (nth v y []) = 2 * d
         /\ forall j, j < d ->
              nth (d + j) (nth v y []) f0
              = (if isinf (entry r v j) then f0 else entry r v j)
              /\ (isinf f0 = false -> isinf (nth (d + j) (nth v y []) f0) = false)
              /\ (isinf neg_inf = true ->
                  forall u, in_neighbors g v = [u] ->
                  isinf (entry x u j) = true ->
                  nth (d + j) (nth v y []) f0 = f0).
Proof.
  intros Hx HF.
  destruct (max_forward_rows g x d Hx HF) as (r & y & Hr & Hy & Hrows).
  exists r, y. split; [exact Hr|]. split; [exact Hy|].
  intros v Hv. destruct (Hrows v Hv) as (Hlx & Hlr & Hrv & Hyv).
  split; [|split].
  - rewrite Hyv, firstn_app, <- Hlx, firstn_all, Nat.sub_diag. simpl.
    apply app_nil_r.
  - rewrite Hyv, length_app, length_map. lia.
  - intros j Hj.
    assert (E : nth (d + j) (nth v y []) f0
                = (if isinf (entry r v j) then f0 else entry r v j)).
    { rewrite Hyv, app_nth2 by lia.
      replace (d + j - length (nth v x [])) with j by lia.
      rewrite (nth_indep _ f0 ((fun a => if isinf a then f0 else a) f0))
        by (rewrite length_map; lia).
      rewrite (map_nth (fun a => if isinf a then f0 else a)). reflexivity. }
    split; [exact E|]. split.
    + intros H0. rewrite E. destruct (isinf (entry r v j)) eqn:Ei; auto.
    + intros Hinf u Hu Hxu. rewrite E.
      assert (Ei : isinf (entry r v j) = true).
      { unfold entry at 1. rewrite Hrv, nth_map_seq by exact Hj.
        unfold in_neighbors in Hu.
        destruct (ops.in_edges g v) as [|[e u'] [|? ?]]; try discriminate.
        simpl in Hu. inversion Hu; subst u'. simpl.
        destruct (flt neg_inf (entry x u j)); assumption. }
      rewrite Ei. reflexivity.
Qed.

End MaxFacts.

(** ** The head-count check of the constructors *)

Section HeadCountFacts.
Context {T : Type} `{FloatArith T}.
Context {T' : Type} `{FloatSpecial T'}.

Lemma check_raises (dim num_heads r : Z) :
  utils.py_mod dim num_heads = Ok r -> r <> 0%Z ->
  utils._check_dim_and_num_heads_consistency dim num_heads
  = Raise ConfigurationError.
Proof.
  intros Hr Hne. unfold utils._check_dim_and_num_heads_consistency.
  rewrite Hr. simpl.
  destruct (Z.eqb_spec r 0); [contradiction|reflexivity].
Qed.

Lemma check_passes (dim num_heads : Z) :
  utils.py_mod dim num_heads = Ok 0%Z ->
  utils._check_dim_and_num_heads_consistency dim num_heads = Ok tt.
Proof.
  intros Hr. unfold utils._check_dim_and_num_heads_consistency.
  rewrite Hr. reflexivity.
Qed.

Lemma linear_init_not_configuration_error
    (init : initializer T) (name : string) (i o : Z) (b : bool) (e : exn) :
  nn.Linear.__init__ init name i o b = Raise e -> e <> ConfigurationError.
Proof.
  unfold nn.Linear.__init__.
  destruct ((i <? 0)%Z || (o <? 0)%Z); intros E; inversion E; discriminate.
Qed.

(** C7: when [dim % num_heads] is not 0, each of the three constructors
    raises the configuration error, and it does so in its first step,
    before any layer is built; when [dim % num_heads] is 0 the check
    passes and none of the three raises that error. *)
Theorem constructors_check_head_count
    (init : initializer T) (init' : initializer T')
    (dim num_heads num_layers seq_len : Z)
    (dropout : T) (dropout' : T') (bidir_attn : bool) :
  (forall r, utils.py_mod dim num_heads = Ok r -> r <> 0%Z ->
     GraphAttnGATAggregationModule.__init__ init dim num_heads
     = Raise ConfigurationError
     /\ GraphAttnTrfAggregationModule.__init__ init dim num_heads dropout
        = Raise ConfigurationError
     /\ TransformerSequenceEncoderModule.__init__
          init' num_layers dim num_heads seq_len bidir_attn dropout'
        = Raise ConfigurationError)
  /\ (utils.py_mod dim num_heads = Ok 0%Z ->
      utils._check_dim_and_num_heads_consistency dim num_heads = Ok tt
      /\ GraphAttnGATAggregationModule.__init__ init dim num_heads
         <> Raise ConfigurationError
      /\ GraphAttnTrfAggregationModule.__init__ init dim num_heads dropout
         <> Raise ConfigurationError
      /\ TransformerSequenceEncoderModule.__init__
           init' num_layers dim num_heads seq_len bidir_attn dropout'
         <> Raise ConfigurationError).
Proof.
  split.
  - intros r Hr Hne.
    unfold GraphAttnGATAggregationModule.__init__,
           GraphAttnTrfAggregationModule.__init__,
           TransformerSequenceEncoderModule.__init__.
    rewrite (check_raises dim num_heads r Hr Hne). auto.
  - intros Hr. split; [apply check_passes, Hr|].
    unfold GraphAttnGATAggregationModule.__init__,
           GraphAttnTrfAggregationModule.__init__,
           TransformerSequenceEncoderModule.__init__.
    rewrite (check_passes dim num_heads Hr). simpl.
    split; [|split].
    + destruct (nn.Linear.__init__ init "attn_linear_u" dim num_heads true)
        as [lu|e] eqn:Eu; simpl.
      * destruct (nn.Linear.__init__ init "attn_linear_v" dim num_heads false)
          as [lv|e] eqn:Ev; simpl; [discriminate|].
        intros E; inversion E; subst.
        exact (linear_init_not_configuration_error _ _ _ _ _ _ Ev eq_refl).
      * intros E; inversion E; subst.
        exact (linear_init_not_configuration_error _ _ _ _ _ _ Eu eq_refl).
    + destruct (nn.Linear.__init__ init "attn_qkv_linear" dim (dim * 3) true)
        as [lq|e] eqn:Eq; simpl.
      * destruct (nn.Linear.__init__ init "output_linear" dim dim true)
          as [lo|e] eqn:Eo; simpl; [discriminate|].
        intros E; inversion E; subst.
        exact (linear_init_not_configuration_error _ _ _ _ _ _ Eo eq_refl).
      * intros E; inversion E; subst.
        exact (linear_init_not_configuration_error _ _ _ _ _ _ Eq eq_refl).
    + destruct bidir_attn; simpl;
        repeat match goal with
               | |- context [if ?c then _ else _] => destruct c; simpl
               end;
        discriminate.
Qed.

End HeadCountFacts.

(** ** Masks *)

Lemma mask_select_cons {A} (b : bool) (mask : list bool) (a : A) (l : list A) :
  mask_select (b :: mask) (a :: l)
  = if b then a :: mask_select mask l else mask_select mask l.
Proof. unfold mask_select. simpl. destruct b; reflexivity. Qed.

Lemma mask_sum_cons (b : bool) (mask : list bool) :
  mask_sum (b :: mask) = (if b then 1 else 0) + mask_sum mask.
Proof. unfold mask_sum. simpl. destruct b; reflexivity. Qed.

Lemma mask_sum_app (m1 m2 : list bool) :
  mask_sum (m1 ++ m2) = mask_sum m1 + mask_sum m2.
Proof. unfold mask_sum. rewrite filter_app, length_app. reflexivity. Qed.

Lemma mask_sum_repeat_false (n : nat) : mask_sum (repeat false n) = 0.
Proof. induction n as [|n IH]; [reflexivity|]. simpl. rewrite mask_sum_cons, IH. reflexivity. Qed.

Lemma length_mask_select {A} (mask : list bool) (l : list A) :
  length mask = length l -> length (mask_select mask l) = mask_sum mask.
Proof.
  revert l; induction mask as [|b mask IH]; intros [|a l] E; try discriminate.
  - reflexivity.
  - rewrite mask_select_cons, mask_sum_cons. simpl in E.
    destruct b; simpl; rewrite IH by lia; reflexivity.
Qed.

Lemma mask_sum_negb (mask : list bool) :
  mask_sum (map negb mask) + mask_sum mask = length mask.
Proof.
  induction mask as [|b mask IH]; [reflexivity|].
  simpl map. rewrite !mask_sum_cons. destruct b; simpl in *; lia.
Qed.

Lemma mask_select_shift {A} (n : nat) (mask : list bool) (pre l : list A) :
  length pre = n ->
  mask_select (repeat false n ++ mask) (pre ++ l) = mask_select mask l.
Proof.
  revert pre; induction n as [|n IH]; intros [|a pre] E; try discriminate.
  - reflexivity.
  - simpl. rewrite mask_select_cons. apply IH. simpl in E. lia.
Qed.

(** Selecting the past targets among the columns the first mask leaves is
    selecting the past targets, when the masks are disjoint. *)
Lemma mask_select_outside {A} (num past : list bool) (l : list A) :
  length num = length past -> length num = length l ->
  disjoint_masks num past = true ->
  mask_select (mask_select (map negb num) past)
              (mask_select (map negb num) l)
  = mask_select past l.
Proof.
  revert past l; induction num as [|b num IH]; intros [|c past] [|a l] E1 E2 D;
    try discriminate; [reflexivity|].
  simpl in E1, E2. unfold disjoint_masks in D. simpl in D.
  apply andb_true_iff in D. destruct D as [Dh Dt].
  simpl map. rewrite !mask_select_cons.
  destruct b, c; simpl in Dh; try discriminate; simpl;
    rewrite ?mask_select_cons; rewrite IH by (auto; lia); reflexivity.
Qed.

Lemma mask_sum_outside (num past : list bool) :
  length num = length past ->
  disjoint_masks num past = true ->
  mask_sum (mask_select (map negb num) past) = mask_sum past.
Proof.
  revert past; induction num as [|b num IH]; intros [|c past] E D;
    try discriminate; [reflexivity|].
  simpl in E. unfold disjoint_masks in D. simpl in D.
  apply andb_true_iff in D. destruct D as [Dh Dt].
  simpl map. rewrite mask_select_cons, !mask_sum_cons.
  destruct b, c; simpl in Dh; try discriminate; simpl;
    rewrite ?mask_sum_cons; rewrite IH by (auto; lia); reflexivity.
Qed.

Lemma true_positions_from_S (s : nat) (mask : list bool) :
  true_positions_from (S s) mask = map S (true_positions_from s mask).
Proof.
  revert s; induction mask as [|b mask IH]; intros s; [reflexivity|].
  simpl. rewrite map_app, IH. destruct b; reflexivity.
Qed.

Lemma true_positions_from_shift (n s : nat) (mask : list bool) :
  true_positions_from s (repeat false n ++ mask)
  = true_positions_from (s + n) mask.
Proof.
  revert s; induction n as [|n IH]; intros s; simpl.
  - rewrite Nat.add_0_r. reflexivity.
  - rewrite IH. f_equal. lia.
Qed.

Lemma rank_outside_cons (b : bool) (mask : list bool) (j : nat) :
  rank_outside (b :: mask) (S j)
  = (if b then 0 else 1) + rank_outside mask j.
Proof. unfold rank_outside. simpl. rewrite mask_sum_cons. destruct b; reflexivity. Qed.

Lemma true_positions_outside (num past : list bool) (s : nat) :
  length num = length past ->
  disjoint_masks num past = true ->
  true_positions_from s (mask_select (map negb num) past)
  = map (fun i => s + rank_outside num i) (true_positions past).
Proof.
  unfold true_positions.
  revert past s; induction num as [|b num IH]; intros [|c past] s E D;
    try discriminate; [reflexivity|].
  simpl in E. unfold disjoint_masks in D. simpl in D.
  apply andb_true_iff in D. destruct D as [Dh Dt].
  simpl map. rewrite mask_select_cons.
  cbn [true_positions_from]. rewrite (true_positions_from_S 0), map_app, map_map.
  destruct b, c; simpl in Dh; try discriminate; cbn [negb app map].
  - rewrite IH by (auto; lia). apply map_ext. intros j.
    rewrite rank_outside_cons. reflexivity.
  - cbn [true_positions_from app]. rewrite IH by (auto; lia).
    f_equal; [unfold rank_outside, mask_sum; simpl; lia|].
    apply map_ext. intros j. rewrite rank_outside_cons. lia.
  - cbn [true_positions_from app]. rewrite IH by (auto; lia).
    apply map_ext. intros j. rewrite rank_outside_cons. lia.
Qed.

(** ** FeaturesPreparatorForDeepModels: the constructor *)

Section PreparatorInit.
Context {T : Type}.
Import FeaturesPreparatorForDeepModels.

Lemma embedding_init_inv (init : initializer T) (name : string) (n d : nat)
    (w : option (torch.Matrix T)) (e : nn.Embedding.t T) :
  nn.Embedding.__init__ init name (Z.of_nat n) (Z.of_nat d) w = Ok e ->
  torch.shape0 (nn.Embedding.weight e) = n
  /\ torch.shape1 (nn.Embedding.weight e) = d
  /\ (forall dw, w = Some dw -> nn.Embedding.weight e = dw).
Proof.
  unfold nn.Embedding.__init__. destruct w as [dw|].
  - destruct (_ && _) eqn:E; [|discriminate]. intros H; inversion H; subst; simpl.
    apply andb_true_iff in E. destruct E as [E0 E1].
    apply Z.eqb_eq in E0, E1.
    split; [lia|]. split; [lia|]. intros ? H'; inversion H'; reflexivity.
  - destruct (_ || _) eqn:E; [discriminate|]. intros H; inversion H; subst; simpl.
    rewrite !Nat2Z.id. split; [reflexivity|]. split; [reflexivity|].
    intros ? H'; discriminate.
Qed.

Lemma embedding_init_ok (init : initializer T) (name : string) (n d : nat)
    (w : option (torch.Matrix T)) :
  (forall dw, w = Some dw -> torch.shape0 dw = n /\ torch.shape1 dw = d) ->
  exists e, nn.Embedding.__init__ init name (Z.of_nat n) (Z.of_nat d) w = Ok e.
Proof.
  intros Hw. unfold nn.Embedding.__init__. destruct w as [dw|].
  - destruct (Hw dw eq_refl) as [-> ->]. rewrite !Z.eqb_refl. simpl. eauto.
  - replace ((Z.of_nat n <? 0)%Z || (Z.of_nat d <? 0)%Z) with false; [eauto|].
    symmetry. apply orb_false_iff. split; apply Z.ltb_ge; lia.
Qed.

Lemma init_inv (a : Args.t T) (self : t T) :
  __init__ a = Ok self ->
  use_learnable_node_embeddings self = Args.use_learnable_node_embeddings a
  /\ use_plr_for_num_features self = Args.use_plr_for_num_features a
  /\ use_plr_for_past_targtes self = Args.use_plr_for_past_targets a
  /\ output_dim self = expected_output_dim a
  /\ (Args.use_learnable_node_embeddings a = true ->
      exists e, node_embeddings self = Some e
        /\ torch.shape0 (nn.Embedding.weight e) = Args.num_nodes a
        /\ torch.shape1 (nn.Embedding.weight e)
           = Args.learnable_node_embeddings_dim a
        /\ (Args.initialize_learnable_node_embeddings_with_deepwalk a = true ->
            Args.deepwalk_node_embeddings a = Some (nn.Embedding.weight e)))
  /\ (Args.use_plr_for_num_features a = true ->
      num_features_mask self = Some (Args.num_features_mask a)
      /\ exists plr, plr_embeddings_num_features self = Some plr
           /\ PLREmbeddings.embedding_dim plr
              = Args.plr_num_features_embedding_dim a)
  /\ (Args.use_plr_for_past_targets a = true ->
      exists plr m, plr_embeddings_past_targets self = Some plr
        /\ PLREmbeddings.embedding_dim plr
           = Args.plr_past_targets_embedding_dim a
        /\ past_targets_mask self = Some m
        /\ (if Args.use_plr_for_num_features a
            then shifted_past_targets_mask (Args.num_features_mask a)
                   (Args.past_targets_mask a)
                   (Args.plr_num_features_embedding_dim a) = Ok m
            else m = Args.past_targets_mask a)).
Proof.
  intros Hinit. unfold __init__ in Hinit.
  match type of Hinit with
  | bind ?c _ = _ => destruct c as [[od ne]|err] eqn:Estep; [|discriminate]
  end.
  cbn [bind] in Hinit.
  assert (Hnode :
    od = (Z.of_nat (Args.features_dim a)
          + (if Args.use_learnable_node_embeddings a
             then Z.of_nat (Args.learnable_node_embeddings_dim a) else 0))%Z
    /\ (Args.use_learnable_node_embeddings a = true ->
        exists e, ne = Some e
          /\ torch.shape0 (nn.Embedding.weight e) = Args.num_nodes a
          /\ torch.shape1 (nn.Embedding.weight e)
             = Args.learnable_node_embeddings_dim a
          /\ (Args.initialize_learnable_node_embeddings_with_deepwalk a = true ->
              Args.deepwalk_node_embeddings a = Some (nn.Embedding.weight e)))).
  { destruct (Args.use_learnable_node_embeddings a).
    - destruct (Args.initialize_learnable_node_embeddings_with_deepwalk a).
      + destruct (Args.deepwalk_node_embeddings a) as [dw|]; [|discriminate].
        destruct (negb _); [discriminate|].
        destruct (nn.Embedding.__init__ _ _ _ _ _) as [e|] eqn:Ee; [|discriminate].
        inversion Estep; subst. split; [reflexivity|]. intros _.
        destruct (embedding_init_inv _ _ _ _ _ _ Ee) as (H0 & H1 & Hw).
        exists e. rewrite (Hw dw eq_refl) in *. auto.
      + destruct (nn.Embedding.__init__ _ _ _ _ _) as [e|] eqn:Ee; [|discriminate].
        inversion Estep; subst. split; [reflexivity|]. intros _.
        destruct (embedding_init_inv _ _ _ _ _ _ Ee) as (H0 & H1 & Hw).
        exists e. repeat split; auto. discriminate.
    - inversion Estep; subst. split; [lia|]. discriminate. }
  destruct Hnode as [Hod Hne].
  unfold expected_output_dim.
  destruct (Args.use_plr_for_num_features a) eqn:EN;
    destruct (Args.use_plr_for_past_targets a) eqn:EP;
    cbn [bind] in Hinit;
    try (destruct (shifted_past_targets_mask _ _ _) as [m|] eqn:Em;
         [|discriminate]; cbn [bind] in Hinit);
    inversion Hinit; subst self; simpl;
    (split; [reflexivity|]); (split; [reflexivity|]); (split; [reflexivity|]);
    (split; [rewrite Hod; destruct (Args.use_learnable_node_embeddings a); lia|]);
    (split; [exact Hne|]);
    (split; [first [discriminate | intros _; split; [reflexivity|]; eexists; split; reflexivity]|]);
    first [discriminate | intros _; do 2 eexists; repeat split; reflexivity].
Qed.

Lemma shifted_mask_ok (num past : list bool) (e : nat) :
  length num = length past ->
  shifted_past_targets_mask num past e
  = Ok (repeat false (mask_sum num * e) ++ mask_select (map negb num) past).
Proof.
  intros E. unfold shifted_past_targets_mask, index_by_mask.
  rewrite length_map, E, Nat.eqb_refl. reflexivity.
Qed.

Lemma shifted_mask_raises (num past : list bool) (e : nat) (err : exn) :
  shifted_past_targets_mask num past e = Raise err -> err = IndexError.
Proof.
  unfold shifted_past_targets_mask, index_by_mask.
  destruct (_ =? _); simpl; intros E; inversion E; reflexivity.
Qed.

(** C8: with learnable node embeddings initialised from DeepWalk, the
    constructor raises the ValueError of line 203 exactly when
    [learnable_node_embeddings_dim] differs from the second dimension of
    the DeepWalk matrix; no module is returned then.  When the two agree,
    every module the constructor returns holds the DeepWalk matrix as the
    weight of its node embeddings, and the constructor does return one
    when the matrix has [num_nodes] rows and the masks can be combined. *)
Theorem deepwalk_dimension_must_match (a : Args.t T) (dw : torch.Matrix T) :
  Args.use_learnable_node_embeddings a = true ->
  Args.initialize_learnable_node_embeddings_with_deepwalk a = true ->
  Args.deepwalk_node_embeddings a = Some dw ->
  (Args.learnable_node_embeddings_dim a <> torch.shape1 dw ->
   __init__ a = Raise deepwalk_mismatch)
  /\ (forall msg, __init__ a = Raise (ValueError msg) ->
      Args.learnable_node_embeddings_dim a <> torch.shape1 dw)
  /\ (forall self, __init__ a = Ok self ->
      Args.learnable_node_embeddings_dim a = torch.shape1 dw
      /\ exists e, node_embeddings self = Some e /\ nn.Embedding.weight e = dw)
  /\ (Args.learnable_node_embeddings_dim a = torch.shape1 dw ->
      Args.num_nodes a = torch.shape0 dw ->
      (Args.use_plr_for_num_features a = true ->
       Args.use_plr_for_past_targets a = true ->
       length (Args.num_features_mask a) = length (Args.past_targets_mask a)) ->
      exists self, __init__ a = Ok self).
Proof.
  intros EL ED Edw.
  assert (Hmis : Args.learnable_node_embeddings_dim a <> torch.shape1 dw ->
                 __init__ a = Raise deepwalk_mismatch).
  { intros Hne. unfold __init__. rewrite EL, ED, Edw.
    apply Nat.eqb_neq in Hne. rewrite Hne. reflexivity. }
  split; [exact Hmis|]. split; [|split].
  - intros msg Hraise Heq. revert Hraise. unfold __init__.
    rewrite EL, ED, Edw. rewrite (proj2 (Nat.eqb_eq _ _) Heq). cbn [negb].
    destruct (nn.Embedding.__init__ _ _ _ _ _) as [e|err] eqn:Ee; cbn [bind].
    + destruct (Args.use_plr_for_num_features a);
        destruct (Args.use_plr_for_past_targets a); cbn [bind];
        try discriminate;
        destruct (shifted_past_targets_mask _ _ _) as [m|err] eqn:Em;
        cbn [bind]; try discriminate.
      apply shifted_mask_raises in Em. subst err. discriminate.
    + unfold nn.Embedding.__init__ in Ee.
      destruct (_ && _); inversion Ee; subst. discriminate.
  - intros self Hok.
    destruct (Nat.eq_dec (Args.learnable_node_embeddings_dim a) (torch.shape1 dw))
      as [Heq|Hne]; [|rewrite (Hmis Hne) in Hok; discriminate].
    split; [exact Heq|].
    destruct (init_inv a self Hok) as (_ & _ & _ & _ & Hne & _).
    destruct (Hne EL) as (e & He & _ & _ & Hw).
    exists e. split; [exact He|]. specialize (Hw ED). rewrite Edw in Hw.
    inversion Hw; reflexivity.
  - intros Heq HN Hmasks. unfold __init__.
    rewrite EL, ED, Edw. rewrite (proj2 (Nat.eqb_eq _ _) Heq). cbn [negb].
    destruct (embedding_init_ok (Args.init a) "node_embeddings"
                (Args.num_nodes a) (Args.learnable_node_embeddings_dim a)
                (Some dw)) as [e Ee].
    { intros dw' H'; inversion H'; subst. auto. }
    rewrite Ee. cbn [bind].
    destruct (Args.use_plr_for_num_features a);
      destruct (Args.use_plr_for_past_targets a); cbn [bind];
      try rewrite (shifted_mask_ok _ _ _ (Hmasks eq_refl eq_refl));
      cbn [bind]; eauto.
Qed.

(** C4: with both PLR steps enabled and disjoint masks, the mask the
    constructor stores for the past targets has length
    [k * e + (F - k)], is false on its first [k * e] positions, is true
    exactly at the positions where the past-target columns land in the
    layout the first step leaves (in the same order), and selects from a
    vector in that layout the entries the original mask selects from the
    original vector. *)
Theorem stored_past_targets_mask_follows_layout (a : Args.t T) (self : t T) :
  Args.use_plr_for_num_features a = true ->
  Args.use_plr_for_past_targets a = true ->
  length (Args.num_features_mask a) = Args.features_dim a ->
  length (Args.past_targets_mask a) = Args.features_dim a ->
  disjoint_masks (Args.num_features_mask a) (Args.past_targets_mask a) = true ->
  __init__ a = Ok self ->
  let num := Args.num_features_mask a in
  let past := Args.past_targets_mask a in
  let k := mask_sum num in
  let e := Args.plr_num_features_embedding_dim a in
  exists stored,
    past_targets_mask self = Some stored
    /\ length stored = k * e + (Args.features_dim a - k)
    /\ firstn (k * e) stored = repeat false (k * e)
    /\ true_positions stored
       = map (fun i => k * e + rank_outside num i) (true_positions past)
    /\ forall (A : Type) (embedded x : list A),
         length embedded = k * e ->
         length x = Args.features_dim a ->
         mask_select stored (embedded ++ mask_select (map negb num) x)
         = mask_select past x.
Proof.
  intros EN EP Hnum Hpast Hdis Hinit num past k e.
  destruct (init_inv a self Hinit) as (_ & _ & _ & _ & _ & _ & Hp).
  destruct (Hp EP) as (plr & stored & _ & _ & Hstored & Hshift).
  rewrite EN in Hshift.
  rewrite shifted_mask_ok in Hshift by congruence.
  inversion Hshift as [Est]. fold num past k e in Est |- *. clear Hshift.
  exists stored. split; [exact Hstored|]. subst stored.
  split; [|split; [|split]].
  - rewrite length_app, repeat_length, length_mask_select
      by (rewrite length_map; unfold num, past; congruence).
    pose proof (mask_sum_negb num) as Hs.
    assert (Hl : length num = Args.features_dim a) by exact Hnum.
    rewrite Hl in Hs. unfold k. lia.
  - rewrite firstn_app, repeat_length, Nat.sub_diag, firstn_all2
      by (rewrite repeat_length; lia).
    simpl. apply app_nil_r.
  - unfold true_positions at 1.
    rewrite true_positions_from_shift.
    apply true_positions_outside; [unfold num, past; congruence|exact Hdis].
  - intros A embedded x Hemb Hx.
    rewrite mask_select_shift by exact Hemb.
    apply mask_select_outside; [unfold num, past; congruence| |exact Hdis].
    unfold num. congruence.
Qed.

End PreparatorInit.

(** ** FeaturesPreparatorForDeepModels: the forward pass *)

Section PreparatorForward.
Context {T : Type}.
Import FeaturesPreparatorForDeepModels.

Lemma map_result_Forall {A B} (f : A -> result B)
    (P : A -> Prop) (Q : B -> Prop) (l : list A) :
  (forall a, P a -> exists b, f a = Ok b /\ Q b) ->
  Forall P l ->
  exists bs, map_result f l = Ok bs /\ Forall Q bs /\ length bs = length l.
Proof.
  intros Hf HP. induction HP as [|a l Ha Hl IH]; simpl.
  - exists []. auto.
  - destruct (Hf a Ha) as (b & -> & Hb). destruct IH as (bs & -> & Hbs & Hlen).
    exists (b :: bs). simpl. auto.
Qed.

Lemma length_plr_forward (plr : PLREmbeddings.t T) (x : list T) :
  length (concat (PLREmbeddings.forward plr x))
  = length x * PLREmbeddings.embedding_dim plr.
Proof.
  unfold PLREmbeddings.forward.
  assert (G : forall (ps : list (nat * T)),
            length (concat (map (fun p => map (PLREmbeddings.embed plr (fst p) (snd p))
                                              (seq 0 (PLREmbeddings.embedding_dim plr))) ps))
            = length ps * PLREmbeddings.embedding_dim plr).
  { induction ps as [|p ps IH]; [reflexivity|].
    simpl. rewrite length_app, length_map, length_seq, IH. reflexivity. }
  rewrite G, length_combine, length_seq, Nat.min_id. reflexivity.
Qed.

Lemma mask_sum_le (mask : list bool) : mask_sum mask <= length mask.
Proof. pose proof (mask_sum_negb mask). lia. Qed.

Lemma embed_columns_length (mask : list bool) (plr : PLREmbeddings.t T)
    (x : list T) :
  length x = length mask ->
  exists y, embed_columns (Some mask) (Some plr) x = Ok y
    /\ length y = mask_sum mask * PLREmbeddings.embedding_dim plr
                  + (length mask - mask_sum mask).
Proof.
  intros E. unfold embed_columns, index_by_mask.
  rewrite length_map, E, Nat.eqb_refl. cbn [bind].
  eexists; split; [reflexivity|].
  rewrite length_app, length_plr_forward, !length_mask_select
    by (rewrite ?length_map; congruence).
  pose proof (mask_sum_negb mask). lia.
Qed.

Lemma on_last_axis_shape (f : list T -> result (list T)) (x : tensor T)
    (lead : list nat) (d d' : nat) :
  has_shape x (lead ++ [d]) ->
  (forall r, length r = d -> exists r', f r = Ok r' /\ length r' = d') ->
  exists y, on_last_axis f x = Ok y /\ has_shape y (lead ++ [d']).
Proof.
  intros Hs Hf.
  destruct x as [m|c]; destruct lead as [|n [|s [|? [|? ?]]]]; simpl in Hs;
    try contradiction.
  - destruct Hs as [Hn Hrows].
    destruct (map_result_Forall f _ (fun r => length r = d') m Hf Hrows)
      as (m' & Em & Hm' & Hlen).
    exists (T2 m'). simpl. rewrite Em. simpl. split; [reflexivity|].
    split; [congruence|exact Hm'].
  - destruct Hs as [Hn Hmats].
    assert (Hg : forall m : mat T,
              length m = s /\ Forall (fun r => length r = d) m ->
              exists m', map_result f m = Ok m'
                /\ (length m' = s /\ Forall (fun r => length r = d') m')).
    { intros m [Hlm Hrows].
      destruct (map_result_Forall f _ (fun r => length r = d') m Hf Hrows)
        as (m' & Em & Hm' & Hlen).
      exists m'. split; [exact Em|]. split; [exact (eq_trans Hlen Hlm)|exact Hm']. }
    destruct (map_result_Forall (map_result f) _ _ c Hg Hmats)
      as (c' & Ec & Hc' & Hlen).
    exists (T3 c'). simpl. rewrite Ec. simpl. split; [reflexivity|].
    split; [exact (eq_trans Hlen Hn)|exact Hc'].
Qed.

Lemma cat_rows_shape (a b : mat T) (d1 d2 : nat) :
  length a = length b ->
  Forall (fun r => length r = d1) a ->
  Forall (fun r => length r = d2) b ->
  length (torch.cat_rows a b) = length a
  /\ Forall (fun r => length r = d1 + d2) (torch.cat_rows a b).
Proof.
  intros E Ha. revert b E. unfold torch.cat_rows.
  induction Ha as [|r a Hr Ha IH]; intros [|r' b] E Hb; try discriminate.
  - simpl. auto.
  - inversion Hb; subst. simpl in E.
    destruct (IH b ltac:(lia) ltac:(assumption)) as [Hl HF].
    simpl. split; [lia|]. constructor; [|exact HF].
    rewrite length_app. reflexivity.
Qed.

Lemma cat_last_3d_shape (a b : list (mat T)) (s d1 d2 : nat) :
  length a = length b ->
  Forall (fun m => length m = s /\ Forall (fun r => length r = d1) m) a ->
  Forall (fun m => length m = s /\ Forall (fun r => length r = d2) m) b ->
  exists y, torch.cat_last (T3 a) (T3 b) = Ok y
    /\ has_shape y [length a; s; d1 + d2].
Proof.
  intros E Ha Hb. unfold torch.cat_last.
  rewrite (proj2 (Nat.eqb_eq _ _) E). cbn [andb].
  assert (G : forallb (fun p => length (fst p) =? length (snd p)) (combine a b) = true
              /\ length (map (fun p => torch.cat_rows (fst p) (snd p)) (combine a b))
                 = length a
              /\ Forall (fun m => length m = s /\ Forall (fun r => length r = d1 + d2) m)
                        (map (fun p => torch.cat_rows (fst p) (snd p)) (combine a b))).
  { revert b E Hb. induction Ha as [|m a [Hm Hrows] Ha IH]; intros [|m' b] E Hb;
      try discriminate.
    - simpl. auto.
    - inversion Hb as [|? ? [Hm' Hrows'] Hb']; subst. simpl in E.
      destruct (IH b ltac:(lia) Hb') as (G1 & G2 & G3).
      simpl. rewrite Hm', Nat.eqb_refl, G1, G2. split; [reflexivity|].
      split; [reflexivity|]. constructor; [|exact G3].
      destruct (cat_rows_shape m m' d1 d2 ltac:(congruence) Hrows Hrows')
        as [Hl HF].
      split; [congruence|exact HF]. }
  destruct G as (G1 & G2 & G3). rewrite G1.
  eexists; split; [reflexivity|]. simpl. auto.
Qed.

Lemma concat_repeat_shape (w : mat T) (n d : nat) :
  Forall (fun r => length r = d) w ->
  length (concat (repeat w n)) = n * length w
  /\ Forall (fun r => length r = d) (concat (repeat w n)).
Proof.
  intros Hw. induction n as [|n [IHl IHF]]; simpl; [auto|].
  rewrite length_app, IHl. split; [reflexivity|].
  apply Forall_app. auto.
Qed.

Lemma rows_of_shape (w : torch.Matrix T) :
  length (rows_of w) = torch.shape0 w
  /\ Forall (fun r => length r = torch.shape1 w) (rows_of w).
Proof.
  unfold rows_of, tabulate2. rewrite length_map, length_seq.
  split; [reflexivity|]. apply Forall_forall. intros r Hr.
  apply in_map_iff in Hr. destruct Hr as (i & <- & _).
  rewrite length_map, length_seq. reflexivity.
Qed.

Lemma append_node_embeddings_shape (e : nn.Embedding.t T) (x : tensor T)
    (lead : list nat) (d : nat) :
  has_shape x (lead ++ [d]) ->
  torch.shape0 (nn.Embedding.weight e) <> 0 ->
  hd 0 lead mod torch.shape0 (nn.Embedding.weight e) = 0 ->
  exists y, append_node_embeddings e x = Ok y
    /\ has_shape y (lead ++ [d + torch.shape1 (nn.Embedding.weight e)]).
Proof.
  intros Hs HN Hmod. unfold append_node_embeddings.
  set (w := nn.Embedding.weight e) in *.
  rewrite (proj2 (Nat.eqb_neq _ _) HN).
  destruct (rows_of_shape w) as [Hwl HwF].
  destruct x as [m|c]; destruct lead as [|n [|s [|? [|? ?]]]]; simpl in Hs;
    try contradiction; simpl in Hmod; destruct Hs as [Hn Hrows].
  - destruct (concat_repeat_shape (rows_of w) (length m / torch.shape0 w) _ HwF)
      as [Hl HF].
    assert (El : length m = length (concat (repeat (rows_of w) (length m / torch.shape0 w)))).
    { rewrite Hl, Hwl, Hn.
      rewrite Nat.mul_comm. apply Nat.Div0.div_exact. exact Hmod. }
    simpl. rewrite <- El, Nat.eqb_refl.
    eexists; split; [reflexivity|]. simpl.
    destruct (cat_rows_shape m _ d (torch.shape1 w) El Hrows HF) as [G1 G2].
    split; [congruence|exact G2].
  - cbn [shape_0].
    set (seq_len := match c with [] => 0 | m :: _ => length m end).
    destruct (concat_repeat_shape (rows_of w) (length c / torch.shape0 w) _ HwF)
      as [Hl HF].
    set (node_embs := concat (repeat (rows_of w) (length c / torch.shape0 w))) in *.
    clearbody node_embs.
    assert (El : length c = length (map (fun r => repeat r seq_len) node_embs)).
    { rewrite length_map, Hl, Hwl, Hn.
      rewrite Nat.mul_comm. apply Nat.Div0.div_exact. exact Hmod. }
    assert (Hseq : c <> [] -> seq_len = s).
    { intros Hne. destruct c as [|m c]; [congruence|].
      inversion Hrows as [|? ? [Hm _] _]; subst. reflexivity. }
    assert (Hb : Forall (fun m => length m = s
                                  /\ Forall (fun r => length r = torch.shape1 w) m)
                        (map (fun r => repeat r seq_len) node_embs)).
    { destruct c as [|m0 c0].
      - destruct node_embs; [constructor|discriminate El].
      - rewrite (Hseq ltac:(discriminate)).
        apply Forall_forall. intros m Hm. apply in_map_iff in Hm.
        destruct Hm as (r & <- & Hr). rewrite repeat_length.
        split; [reflexivity|]. apply Forall_forall. intros r' Hr'.
        apply repeat_spec in Hr'. subst r'.
        rewrite Forall_forall in HF. apply HF, Hr. }
    destruct (cat_last_3d_shape c _ s d (torch.shape1 w) El Hrows Hb)
      as (y & Ey & Hy).
    exists y. split; [exact Ey|]. rewrite Hn in Hy. exact Hy.
Qed.

(** C3, as amended: [output_dim] is the sum the spec writes by hand, for
    every construction that succeeds; and when each mask in use is as long
    as [features_dim] and the two masks are disjoint if both are in use,
    [forward] returns, on every input whose last dimension is
    [features_dim] (and whose first dimension is a multiple of
    [num_nodes] when node embeddings are appended), a tensor with the same
    leading dimensions and [output_dim] as last dimension. *)
Theorem output_dim_is_last_dim_of_forward (a : Args.t T) (self : t T) :
  __init__ a = Ok self ->
  output_dim self = expected_output_dim a
  /\ ((Args.use_plr_for_num_features a = true ->
       length (Args.num_features_mask a) = Args.features_dim a) ->
      (Args.use_plr_for_past_targets a = true ->
       length (Args.past_targets_mask a) = Args.features_dim a) ->
      (Args.use_plr_for_num_features a = true ->
       Args.use_plr_for_past_targets a = true ->
       disjoint_masks (Args.num_features_mask a) (Args.past_targets_mask a)
       = true) ->
      forall (x : tensor T) (lead : list nat),
        has_shape x (lead ++ [Args.features_dim a]) ->
        (Args.use_learnable_node_embeddings a = true ->
         Args.num_nodes a <> 0 /\ hd 0 lead mod Args.num_nodes a = 0) ->
        exists y d,
          forward self x = Ok y
          /\ has_shape y (lead ++ [d])
          /\ Z.of_nat d = output_dim self).
Proof.
  intros Hinit.
  destruct (init_inv a self Hinit) as (EL & EN & EP & Hod & Hne & Hnum & Hpast).
  split; [exact Hod|].
  intros Lnum Lpast Hdis x lead Hx Hnodes.
  set (F := Args.features_dim a) in *.
  set (num := Args.num_features_mask a) in *.
  set (past := Args.past_targets_mask a) in *.
  set (k := mask_sum num).
  set (p := mask_sum past).
  set (e := Args.plr_num_features_embedding_dim a) in *.
  set (e' := Args.plr_past_targets_embedding_dim a) in *.
  unfold forward. rewrite EL, EN, EP.
  (* the numeric features *)
  assert (S1 : exists x1 d1,
             (if Args.use_plr_for_num_features a
              then on_last_axis (embed_columns (num_features_mask self)
                                               (plr_embeddings_num_features self)) x
              else Ok x) = Ok x1
             /\ has_shape x1 (lead ++ [d1])
             /\ d1 = (if Args.use_plr_for_num_features a
                      then k * e + (F - k) else F)).
  { destruct (Args.use_plr_for_num_features a) eqn:En; [|eauto].
    destruct (Hnum eq_refl) as (Hm & plr & Hplr & He).
    rewrite Hm, Hplr.
    destruct (on_last_axis_shape
                (embed_columns (Some num) (Some plr)) x lead F (k * e + (F - k)) Hx)
      as (x1 & E1 & H1).
    { intros r Hr.
      destruct (embed_columns_length num plr r) as (y & Ey & Hy);
        [rewrite Lnum by reflexivity; exact Hr|].
      exists y. split; [exact Ey|]. rewrite Hy, He, Lnum by reflexivity.
      reflexivity. }
    eauto. }
  destruct S1 as (x1 & d1 & -> & Hx1 & Hd1). cbn [bind].
  (* the past targets *)
  assert (Hk : Args.use_plr_for_num_features a = true -> k <= F).
  { intros En. rewrite <- (Lnum En). apply mask_sum_le. }
  assert (S2 : exists x2 d2,
             (if Args.use_plr_for_past_targets a
              then on_last_axis (embed_columns (past_targets_mask self)
                                               (plr_embeddings_past_targets self)) x1
              else Ok x1) = Ok x2
             /\ has_shape x2 (lead ++ [d2])
             /\ (Args.use_plr_for_past_targets a = true -> p <= d1)
             /\ d2 = (if Args.use_plr_for_past_targets a
                      then p * e' + (d1 - p) else d1)).
  { destruct (Args.use_plr_for_past_targets a) eqn:Ep;
      [|exists x1, d1; repeat split; auto; discriminate].
    destruct (Hpast eq_refl) as (plr & m & Hplr & He' & Hm & Hshift).
    rewrite Hm, Hplr.
    assert (Hmask : length m = d1 /\ mask_sum m = p).
    { destruct (Args.use_plr_for_num_features a) eqn:En.
      - assert (Hlen : length num = length past)
          by (rewrite Lnum, Lpast by reflexivity; reflexivity).
        rewrite shifted_mask_ok in Hshift by exact Hlen.
        inversion Hshift as [Em]. fold num past k e. split.
        + rewrite length_app, repeat_length, length_mask_select
            by (rewrite length_map; exact Hlen).
          pose proof (mask_sum_negb num) as Hs.
          rewrite (Lnum eq_refl) in Hs. fold k in Hs. lia.
        + rewrite mask_sum_app, mask_sum_repeat_false.
          apply mask_sum_outside; [exact Hlen|apply Hdis; reflexivity].
      - subst m d1. split; [apply Lpast; reflexivity|reflexivity]. }
    destruct Hmask as [Hml Hms].
    destruct (on_last_axis_shape
                (embed_columns (Some m) (Some plr)) x1 lead d1 (p * e' + (d1 - p)) Hx1)
      as (x2 & E2 & H2).
    { intros r Hr.
      destruct (embed_columns_length m plr r) as (y & Ey & Hy); [congruence|].
      exists y. split; [exact Ey|]. rewrite Hy, He', Hml, Hms. reflexivity. }
    exists x2, (p * e' + (d1 - p)). repeat split; auto.
    intros _. rewrite <- Hml, <- Hms. apply mask_sum_le. }
  destruct S2 as (x2 & d2 & -> & Hx2 & Hp & Hd2). cbn [bind].
  (* the node embeddings *)
  assert (S3 : exists y d,
             (if Args.use_learnable_node_embeddings a
              then match node_embeddings self with
                   | Some e => append_node_embeddings e x2
                   | None => Raise AttributeError
                   end
              else Ok x2) = Ok y
             /\ has_shape y (lead ++ [d])
             /\ d = (if Args.use_learnable_node_embeddings a
                     then d2 + Args.learnable_node_embeddings_dim a else d2)).
  { destruct (Args.use_learnable_node_embeddings a) eqn:El; [|eauto].
    destruct (Hne eq_refl) as (emb & Hemb & H0 & H1 & _).
    destruct (Hnodes eq_refl) as [HN Hmod].
    rewrite Hemb.
    destruct (append_node_embeddings_shape emb x2 lead d2 Hx2) as (y & Ey & Hy);
      [rewrite H0; exact HN|rewrite H0; exact Hmod|].
    rewrite H1 in Hy. eauto. }
  destruct S3 as (y & d & Ey & Hy & Hd).
  exists y, d. split; [exact Ey|]. split; [exact Hy|].
  rewrite Hod. unfold expected_output_dim.
  fold F num past k p e e'.
  subst d d2 d1.
  destruct (Args.use_learnable_node_embeddings a);
    destruct (Args.use_plr_for_num_features a);
    destruct (Args.use_plr_for_past_targets a);
    try specialize (Hk eq_refl); try specialize (Hp eq_refl); lia.
Qed.

End PreparatorForward.

(** ** Reshaping *)

Lemma chunk_aux_nil {A} (fuel n : nat) : @chunk_aux A fuel n [] = [].
Proof. destruct fuel; reflexivity. Qed.

Lemma chunk_aux_concat {A} (n : nat) (l : list (list A)) (fuel : nat) :
0 < n ->
Forall (fun r => length r = n) l ->
length (concat l) <= fuel ->
chunk_aux fuel n (concat l) = l.
Proof.
intros Hn HF. revert fuel. induction HF as [|r l Hr HF IH]; intros fuel Hfuel.
- apply chunk_aux_nil.
- simpl in *. rewrite length_app in Hfuel.
  destruct fuel as [|fuel]; [lia|]. simpl.
  destruct (r ++ concat l) as [|a t] eqn:E.
  + apply (f_equal (@length A)) in E. rewrite length_app in E. simpl in E. lia.
  + rewrite <- E.
    rewrite firstn_app, skipn_app.
    replace (n - length r) with 0 by lia.
    rewrite firstn_all2, skipn_all2 by lia.
    simpl. rewrite app_nil_r. f_equal. apply IH. lia.
Qed.

Lemma chunk_concat {A} (n : nat) (l : list (list A)) :
0 < n -> Forall (fun r => length r = n) l -> chunk n (concat l) = l.
Proof. intros Hn HF. apply chunk_aux_concat; auto. Qed.

Lemma nth_chunk_aux {A} (n : nat) (d : A) (i : nat) :
forall (fuel : nat) (l : list A) (h : nat),
  length l <= fuel -> h < n -> i * n + h < length l ->
  nth h (nth i (chunk_aux fuel n l) []) d = nth (i * n + h) l d.
Proof.
induction i as [|i IH]; intros fuel l h Hfuel Hh Hlt.
- destruct fuel as [|fuel]; [lia|]. destruct l as [|a t]; [simpl in Hlt; lia|].
  cbn [chunk_aux nth]. rewrite nth_firstn.
  destruct (Nat.ltb_spec h n); [reflexivity|lia].
- destruct fuel as [|fuel]; [lia|]. destruct l as [|a t]; [simpl in Hlt; lia|].
  cbn [chunk_aux nth]. rewrite IH.
  + rewrite nth_skipn.
    replace (S i * n + h) with (n + (i * n + h)) by lia. reflexivity.
  + rewrite length_skipn. cbn [length] in *. lia.
  + exact Hh.
  + rewrite length_skipn. cbn [length] in *. lia.
Qed.

Lemma nth_chunk {A} `{Scalar A} (n : nat) (l : list A) (i h : nat) :
h < n -> length l mod n = 0 ->
nth h (nth i (chunk n l) []) f0 = nth (i * n + h) l f0.
Proof.
intros Hh Hmod.
destruct (Nat.lt_ge_cases (i * n + h) (length l)) as [Hlt|Hge].
- apply nth_chunk_aux; auto.
- rewrite (nth_overflow l) by exact Hge.
  assert (Hlen : forall fuel (l' : list A),
            length l' <= fuel -> length l' mod n = 0 ->
            length (chunk_aux fuel n l') * n = length l').
  { clear - Hh. induction fuel as [|fuel IH]; intros l' Hf Hm.
    - destruct l'; [reflexivity|simpl in Hf; lia].
    - destruct l' as [|a t]; [reflexivity|]. cbn [chunk_aux length].
      assert (n <= length (a :: t)).
      { destruct (Nat.lt_ge_cases (length (a :: t)) n) as [Hl|Hl]; [|exact Hl].
        rewrite Nat.mod_small in Hm by exact Hl. simpl in Hm. lia. }
      rewrite Nat.mul_succ_l, IH.
      + rewrite length_skipn. cbn [length] in *. lia.
      + rewrite length_skipn. cbn [length] in *. lia.
      + rewrite length_skipn.
        replace (length (a :: t)) with ((length (a :: t) - n) + 1 * n) in Hm by lia.
        rewrite Nat.Div0.mod_add in Hm. exact Hm. }
  specialize (Hlen (length l) l (Nat.le_refl _) Hmod).
  unfold chunk. rewrite (nth_overflow (chunk_aux _ _ _)); [destruct h; reflexivity|].
  nia.
Qed.

Lemma length_concat_uniform {A} (n : nat) (l : list (list A)) :
Forall (fun r => length r = n) l -> length (concat l) = length l * n.
Proof.
induction 1 as [|r l Hr HF IH]; [reflexivity|].
simpl. rewrite length_app, IH, Hr. reflexivity.
Qed.

Lemma nth_concat_uniform {A} (n : nat) (d : A) (l : list (list A)) :
Forall (fun r => length r = n) l ->
forall i h, h < n -> i < length l ->
  nth (i * n + h) (concat l) d = nth h (nth i l []) d.
Proof.
induction 1 as [|r l Hr HF IH]; intros i h Hh Hi; [simpl in Hi; lia|].
destruct i as [|i]; simpl.
- apply app_nth1. lia.
- rewrite app_nth2 by lia. rewrite Hr.
  replace (n + i * n + h - n) with (i * n + h) by lia.
  apply IH; [exact Hh|simpl in Hi; lia].
Qed.

Lemma fold_left_ext_in {A B} (f g : A -> B -> A) (l : list B) (a : A) :
(forall b acc, In b l -> f acc b = g acc b) ->
fold_left f l a = fold_left g l a.
Proof.
revert a; induction l as [|b l IH]; intros a Hfg; [reflexivity|].
simpl. rewrite Hfg by (left; reflexivity). apply IH.
intros b' acc Hb'. apply Hfg. right. exact Hb'.
Qed.

(** ** GraphAttnGATAggregationModule *)

Section GATFacts.
Context {T : Type} `{FloatArith T}.
Import GraphAttnGATAggregationModule.

Lemma gat_init_sizes (init : initializer T) (dim' num_heads' : Z) (self : t T) :
__init__ init dim' num_heads' = Ok self -> gat_sizes_agree self.
Proof.
unfold __init__, utils._check_dim_and_num_heads_consistency, utils.py_mod.
destruct (Z.eqb_spec num_heads' 0) as [|Hnz]; [discriminate|]. cbn [bind].
destruct (Z.eqb_spec (dim' mod num_heads') 0) as [Hmod|]; [|discriminate].
cbn [bind]. unfold nn.Linear.__init__.
destruct ((dim' <? 0)%Z || (num_heads' <? 0)%Z) eqn:Eneg; [discriminate|].
cbn [bind]. intros E; inversion E; subst self; clear E.
apply orb_false_iff in Eneg. destruct Eneg as [Hd Hn].
apply Z.ltb_ge in Hd, Hn.
unfold gat_sizes_agree; simpl.
repeat split; try reflexivity; [|lia].
apply Z.mod_divide in Hmod; [|exact Hnz]. destruct Hmod as [q Hq].
subst dim'. rewrite Z.div_mul by exact Hnz.
assert (0 <= q)%Z by nia.
rewrite Z2Nat.inj_mul by lia. reflexivity.
Qed.

Lemma linear_forward_ok (l : nn.Linear.t T) (x : mat T) :
Forall (fun r => length r = nn.Linear.in_features l) x ->
nn.Linear.forward l x
= Ok (map (fun r => map (linear_entry l r) (seq 0 (nn.Linear.out_features l))) x).
Proof.
intros HF. unfold nn.Linear.forward.
replace (forallb _ x) with true; [reflexivity|].
symmetry. apply forallb_forall. intros r Hr. apply Nat.eqb_eq.
rewrite Forall_forall in HF. apply HF, Hr.
Qed.

Lemma nth_map_lt {A B} (f : A -> B) (l : list A) (i : nat) (d : A) (d' : B) :
i < length l -> nth i (map f l) d' = f (nth i l d).
Proof.
intros Hi. rewrite (nth_indep _ d' (f d)) by (rewrite length_map; exact Hi).
apply map_nth.
Qed.

Lemma ncols_map {A B} (f : A -> list B) (x : list A) :
ncols (map f x) = match x with [] => 0 | r :: _ => length (f r) end.
Proof. destruct x; reflexivity. Qed.

Lemma well_formed_nonempty (g : ops.DGLGraph) :
ops.well_formed g -> ops.edges g <> [] -> 0 < ops.num_nodes g.
Proof.
intros Hwf Hne. destruct (ops.edges g) as [|e es] eqn:E; [congruence|].
unfold ops.well_formed in Hwf. rewrite E in Hwf. inversion Hwf; subst. lia.
Qed.

Lemma nth_combine_seq {A} (l : list A) (e : nat) (a : A) :
nth_error l e = Some a ->
nth e (combine (seq 0 (length l)) l) (0, a) = (e, a).
Proof.
intros He. assert (Hlt : e < length l) by (apply nth_error_Some; congruence).
rewrite combine_nth by (rewrite length_seq; reflexivity).
rewrite seq_nth by exact Hlt. f_equal.
apply nth_error_nth. exact He.
Qed.

(** The attention probabilities [forward] computes are the softmax of the
    scores over the incoming edges of the destination. *)
Lemma attn_probs_ok (self : t T) (g : ops.DGLGraph) (x : mat T) :
gat_sizes_agree self ->
ops.well_formed g ->
length x = ops.num_nodes g ->
Forall (fun r => length r = dim self) x ->
exists p,
  attn_probs self g x = Ok p
  /\ length p = length (ops.edges g)
  /\ Forall (fun r => length r = num_heads self) p
  /\ forall e u v h,
       nth_error (ops.edges g) e = Some (u, v) -> h < num_heads self ->
       entry p e h = gat_prob self g x u v h.
Proof.
intros (Hdim & Hnh & Hiu & Hou & Hiv & Hov) Hwf Hx HF.
unfold attn_probs.
rewrite !linear_forward_ok by (rewrite ?Hiu, ?Hiv; exact HF).
cbn [bind]. rewrite Hou, Hov.
set (su := map (fun r => map (linear_entry (attn_linear_u self) r)
                             (seq 0 (num_heads self))) x).
set (sv := map (fun r => map (linear_entry (attn_linear_v self) r)
                             (seq 0 (num_heads self))) x).
assert (Hcu : ncols su = ncols sv).
{ unfold su, sv. rewrite !ncols_map. destruct x; [reflexivity|].
  rewrite !length_map. reflexivity. }
assert (Hcn : 0 < ops.num_nodes g -> ncols su = num_heads self).
{ intros HN. unfold su. rewrite ncols_map. destruct x; [simpl in Hx; lia|].
  rewrite length_map, length_seq. reflexivity. }
assert (Hsu : forall u h, u < ops.num_nodes g -> h < num_heads self ->
          entry su u h = linear_entry (attn_linear_u self) (nth u x []) h).
{ intros u h Hu Hh. unfold entry, su.
  rewrite (nth_map_lt _ x u [] []) by lia. apply nth_map_seq. exact Hh. }
assert (Hsv : forall v h, v < ops.num_nodes g -> h < num_heads self ->
          entry sv v h = linear_entry (attn_linear_v self) (nth v x []) h).
{ intros v h Hv Hh. unfold entry, sv.
  rewrite (nth_map_lt _ x v [] []) by lia. apply nth_map_seq. exact Hh. }
unfold ops.u_add_v.
replace (length su) with (ops.num_nodes g) by (unfold su; rewrite length_map; auto).
replace (length sv) with (ops.num_nodes g) by (unfold sv; rewrite length_map; auto).
rewrite Nat.eqb_refl, Hcu, Nat.eqb_refl. cbn [andb bind].
rewrite <- Hcu.
set (s := map (map (nn.LeakyReLU (attn_act self)))
              (map (fun e => map (fun h => fadd (entry su (fst e) h) (entry sv (snd e) h))
                                 (seq 0 (ncols su)))
                   (ops.edges g))).
assert (Hls : length s = length (ops.edges g))
  by (unfold s; rewrite !length_map; reflexivity).
assert (Hcs : ops.edges g <> [] -> ncols s = num_heads self).
{ intros Hne. unfold s. rewrite map_map, ncols_map.
  destruct (ops.edges g) as [|e0 es] eqn:Ee; [congruence|].
  rewrite !length_map, length_seq. apply Hcn.
  apply well_formed_nonempty; [exact Hwf|congruence]. }
assert (Hs : forall e u v h,
          nth_error (ops.edges g) e = Some (u, v) -> h < num_heads self ->
          entry s e h = gat_score self x u v h).
{ intros e u v h He Hh.
  assert (Hlt : e < length (ops.edges g)) by (apply nth_error_Some; congruence).
  assert (Hne : ops.edges g <> []) by (intros E0; rewrite E0 in Hlt; simpl in Hlt; lia).
  pose proof (nth_error_In _ _ He) as Hin.
  destruct (proj1 (Forall_forall _ _) Hwf _ Hin) as [Hu Hv]. simpl in Hu, Hv.
  unfold entry at 1, s. rewrite map_map.
  rewrite (nth_map_lt _ (ops.edges g) e (u, v) []) by exact Hlt.
  rewrite (nth_error_nth _ _ _ He). cbn [fst snd].
  rewrite Hcn by (apply well_formed_nonempty; assumption).
  rewrite map_map, nth_map_seq by exact Hh.
  rewrite Hsu, Hsv by assumption. reflexivity. }
unfold ops.edge_softmax. rewrite Hls, Nat.eqb_refl.
eexists; split; [reflexivity|]. split; [|split].
- rewrite length_map, length_combine, length_seq, Nat.min_id. reflexivity.
- apply Forall_forall. intros r Hr. apply in_map_iff in Hr.
  destruct Hr as (pr & <- & Hpr). rewrite length_map, length_seq.
  apply Hcs. intros E0. rewrite E0 in Hpr. simpl in Hpr. exact Hpr.
- intros e u v h He Hh.
  assert (Hlt : e < length (ops.edges g)) by (apply nth_error_Some; congruence).
  assert (Hne : ops.edges g <> []) by (intros E0; rewrite E0 in Hlt; simpl in Hlt; lia).
  unfold entry at 1.
  rewrite (nth_map_lt _ _ e (0, (u, v)) [])
    by (rewrite length_combine, length_seq, Nat.min_id; exact Hlt).
  rewrite (nth_combine_seq _ _ _ He). cbn [fst snd].
  rewrite Hcs by exact Hne. rewrite nth_map_seq by exact Hh.
  unfold gat_prob. rewrite (Hs e u v h He Hh). f_equal.
  apply fold_left_ext_in. intros [e' u'] acc Hin'. cbn [fst snd].
  apply in_edges_spec in Hin'. rewrite (Hs e' u' v h Hin' Hh). reflexivity.
Qed.

Lemma chunk_aux_shape {A} (n a : nat) :
forall (fuel : nat) (l : list A),
  0 < n -> length l = a * n -> length l <= fuel ->
  length (chunk_aux fuel n l) = a
  /\ Forall (fun r => length r = n) (chunk_aux fuel n l).
Proof.
induction a as [|a IH]; intros fuel l Hn Hl Hfuel.
- destruct l; [|discriminate]. rewrite chunk_aux_nil. auto.
- destruct fuel as [|fuel]; [simpl in Hl; lia|].
  destruct l as [|b t]; [simpl in Hl; lia|].
  cbn [chunk_aux].
  destruct (IH fuel (skipn n (b :: t)) Hn) as [IHl IHF].
  + rewrite length_skipn, Hl. simpl. lia.
  + rewrite length_skipn. cbn [length] in *. lia.
  + split; [simpl; rewrite IHl; reflexivity|].
    constructor; [|exact IHF]. rewrite length_firstn, Hl. simpl. lia.
Qed.

(** [forward] up to the concatenation: the rebound [x] is the input cut
    into [head_dim] rows of [num_heads] entries per node, and entry
    [i * num_heads + h] of row [v] of [x_aggregated] is the sum over the
    incoming edges of [v] of the source's entry at the same position times
    the probability of head [h]. *)
Lemma aggregate_ok (self : t T) (g : ops.DGLGraph) (x : mat T) :
gat_sizes_agree self ->
0 < dim self ->
ops.well_formed g ->
length x = ops.num_nodes g ->
Forall (fun r => length r = dim self) x ->
exists p agg,
  attn_probs self g x = Ok p
  /\ (forall e u v h,
        nth_error (ops.edges g) e = Some (u, v) -> h < num_heads self ->
        entry p e h = gat_prob self g x u v h)
  /\ aggregate self g x = Ok (map (chunk (num_heads self)) x, agg)
  /\ length agg = ops.num_nodes g
  /\ Forall (fun r => length r = dim self) agg
  /\ forall v i h,
       v < ops.num_nodes g -> i < head_dim self -> h < num_heads self ->
       entry agg v (i * num_heads self + h)
       = fold_left (fun acc e =>
                      fadd acc (fmul (entry x (snd e) (i * num_heads self + h))
                                     (entry p (fst e) h)))
                   (ops.in_edges g v) f0.
Proof.
intros Hsizes Hpos Hwf Hx HF.
destruct (attn_probs_ok self g x Hsizes Hwf Hx HF) as (p & Ep & Hlp & Hpf & Hpe).
destruct Hsizes as (Hdim & Hnh & _).
assert (Hhd : 0 < head_dim self) by (destruct (head_dim self); [simpl in Hdim; lia|lia]).
set (nh := num_heads self) in *. set (hd := head_dim self) in *.
set (x3 := map (chunk nh) x).
assert (Hx3 : forall u i h, i < hd -> h < nh ->
          entry (nth u x3 []) i h = entry x u (i * nh + h)).
{ intros u i h Hi Hh. unfold x3.
  change (@nil (list T)) with (chunk nh (@nil T)) at 1.
  rewrite (map_nth (chunk nh)). unfold entry. apply nth_chunk; [exact Hh|].
  destruct (Nat.lt_ge_cases u (length x)) as [Hu|Hu].
  - rewrite (Forall_nth_length _ _ _ HF Hu), Hdim. apply Nat.Div0.mod_mul.
  - rewrite nth_overflow by exact Hu. apply Nat.Div0.mod_0_l. }
set (agg3 := map (fun v =>
                    map (fun i =>
                           map (fun h =>
                                  fold_left
                                    (fun acc e =>
                                       fadd acc (fmul (entry (nth (snd e) x3 []) i h)
                                                      (entry p (fst e) h)))
                                    (ops.in_edges g v) f0)
                               (seq 0 nh))
                        (seq 0 hd))
                 (seq 0 (ops.num_nodes g))).
assert (Hreshape : torch.reshape_3d x hd nh = Ok x3).
{ unfold torch.reshape_3d. fold nh hd in Hdim. rewrite <- Hdim.
  rewrite (proj2 (Nat.eqb_neq _ _)) by lia.
  rewrite (length_concat_uniform _ _ HF), Nat.Div0.mod_mul. cbn [negb orb Nat.eqb].
  rewrite chunk_concat by assumption. reflexivity. }
assert (Hsum : ops.u_mul_e_sum g x3 p = Ok agg3).
{ unfold ops.u_mul_e_sum. cbv zeta.
  assert (L3 : @length (mat T) x3 = ops.num_nodes g)
    by (unfold x3; rewrite length_map; exact Hx).
  rewrite L3, Nat.eqb_refl, (proj2 (Nat.eqb_eq _ _) Hlp). cbn [andb].
  destruct x as [|r0 x'].
  - assert (Hp0 : p = []).
    { destruct p as [|? ?]; [reflexivity|].
      assert (ops.edges g <> []) as Hne
        by (intros E0; rewrite E0 in Hlp; discriminate).
      pose proof (well_formed_nonempty g Hwf Hne). simpl in Hx. lia. }
    subst p. unfold agg3. rewrite <- Hx. reflexivity.
  - inversion HF as [|? ? Hr0 _]; subst.
    destruct (chunk_aux_shape nh hd (length r0) r0 Hnh) as [Hc1 Hc2];
      [rewrite Hr0; exact Hdim|lia|].
    fold (chunk nh r0) in Hc1, Hc2. cbn [x3 map].
    rewrite Hc1.
    assert (Hd2 : ncols (chunk nh r0) = nh).
    { destruct (chunk nh r0) as [|c0 cs]; [simpl in Hc1; lia|].
      inversion Hc2; subst. assumption. }
    rewrite Hd2.
    replace ((ncols p =? nh) || (length p =? 0)) with true; [reflexivity|].
    symmetry. destruct p as [|q0 qs]; [apply orb_true_r|].
    inversion Hpf; subst. simpl. rewrite (proj2 (Nat.eqb_eq _ _)); auto. }
assert (Hrows : Forall (fun r => length r = dim self) (map (@concat T) agg3)).
{ apply Forall_forall. intros r Hr. apply in_map_iff in Hr.
  destruct Hr as (m & <- & Hm). unfold agg3 in Hm. apply in_map_iff in Hm.
  destruct Hm as (v & <- & _).
  rewrite (length_concat_uniform nh).
  - rewrite length_map, length_seq. exact (eq_sym Hdim).
  - apply Forall_forall. intros r Hr. apply in_map_iff in Hr.
    destruct Hr as (i & <- & _). rewrite length_map, length_seq. reflexivity. }
assert (Hback : torch.reshape_2d agg3 (dim self) = Ok (map (@concat T) agg3)).
{ unfold torch.reshape_2d.
  rewrite (proj2 (Nat.eqb_neq _ _)) by lia.
  rewrite (length_concat_uniform _ _ Hrows), Nat.Div0.mod_mul.
  cbn [negb orb Nat.eqb].
  rewrite chunk_concat by assumption. reflexivity. }
exists p, (map (@concat T) agg3).
split; [exact Ep|]. split; [exact Hpe|]. split; [|split; [|split]].
- unfold aggregate. rewrite Ep. cbn [bind]. fold nh hd.
  rewrite Hreshape. cbn [bind]. rewrite Hsum. cbn [bind].
  rewrite Hback. reflexivity.
- unfold agg3. rewrite !length_map, length_seq. reflexivity.
- exact Hrows.
- intros v i h Hv Hi Hh. unfold entry at 1.
  rewrite (nth_map_lt _ agg3 v [] [])
    by (unfold agg3; rewrite length_map, length_seq; exact Hv).
  unfold agg3 at 1. rewrite nth_map_seq by exact Hv.
  rewrite (nth_concat_uniform nh).
  + rewrite nth_map_seq by exact Hi. rewrite nth_map_seq by exact Hh.
    apply fold_left_ext_in. intros e acc _. rewrite Hx3 by assumption.
    reflexivity.
  + apply Forall_forall. intros r Hr. apply in_map_iff in Hr.
    destruct Hr as (i' & <- & _). rewrite length_map, length_seq. reflexivity.
  + exact Hh.
  + rewrite length_map, length_seq. exact Hi.
Qed.

(** The concatenation of line 100 is handed the rebound, 3-dimensional [x]
    and the 2-dimensional [x_aggregated], so [forward] returns on no
    input. *)
Lemma gat_forward_never_returns (self : t T) (g : ops.DGLGraph) (x : mat T)
    (y : tensor T) :
forward self g x <> Ok y.
Proof.
unfold forward. destruct (aggregate self g x) as [[x3 agg]|e]; simpl; discriminate.
Qed.

Lemma gat_forward_raises_at_concatenation
    (self : t T) (g : ops.DGLGraph) (x : mat T) x3 agg :
aggregate self g x = Ok (x3, agg) -> forward self g x = Raise torch.rank_error.
Proof. intros E. unfold forward. rewrite E. reflexivity. Qed.

(** C2, as amended: for a module the constructor returned, [x_aggregated]
    as [forward] computes it (lines 90-98) has one row of width [dim] per
    node; its entry [i * num_heads + h] at node [v] is the sum over the
    incoming edges (u, v) of [x_u[i * num_heads + h]] times the softmax
    probability of head [h] on that edge; and at a node with one incoming
    edge the row is the row of [x] at the source. *)
Theorem gat_aggregation_is_attention_weighted_sum
    (init : initializer T) (dim' num_heads' : Z) (self : t T)
    (g : ops.DGLGraph) (x : mat T) :
__init__ init dim' num_heads' = Ok self ->
0 < dim self ->
ops.well_formed g ->
length x = ops.num_nodes g ->
Forall (fun r => length r = dim self) x ->
exists x3 agg,
  aggregate self g x = Ok (x3, agg)
  /\ length agg = ops.num_nodes g
  /\ Forall (fun r => length r = dim self) agg
  /\ (forall v i h,
        v < ops.num_nodes g -> i < head_dim self -> h < num_heads self ->
        entry agg v (i * num_heads self + h)
        = fold_left (fun acc e =>
                       fadd acc (fmul (entry x (snd e) (i * num_heads self + h))
                                      (gat_prob self g x (snd e) v h)))
                    (ops.in_edges g v) f0)
  /\ ((forall a : T, fadd f0 a = a) ->
      (forall a : T, fmul a f1 = a) ->
      (forall s : T, fdiv (fexp s) (fexp s) = f1) ->
      forall v u, v < ops.num_nodes g -> in_neighbors g v = [u] ->
        nth v agg [] = nth u x []).
Proof.
intros Hinit Hpos Hwf Hx HF.
pose proof (gat_init_sizes _ _ _ _ Hinit) as Hsizes.
destruct (aggregate_ok self g x Hsizes Hpos Hwf Hx HF)
  as (p & agg & Ep & Hpe & Eagg & Hlen & Hrows & Hentry).
destruct Hsizes as (Hdim & Hnh & _).
assert (Hsum : forall v i h,
          v < ops.num_nodes g -> i < head_dim self -> h < num_heads self ->
          entry agg v (i * num_heads self + h)
          = fold_left (fun acc e =>
                         fadd acc (fmul (entry x (snd e) (i * num_heads self + h))
                                        (gat_prob self g x (snd e) v h)))
                      (ops.in_edges g v) f0).
{ intros v i h Hv Hi Hh. rewrite (Hentry v i h Hv Hi Hh).
  apply fold_left_ext_in. intros [e u] acc Hin. cbn [fst snd].
  apply in_edges_spec in Hin. rewrite (Hpe e u v h Hin Hh). reflexivity. }
exists (map (chunk (num_heads self)) x), agg.
split; [exact Eagg|]. split; [exact Hlen|]. split; [exact Hrows|].
split; [exact Hsum|].
intros Hadd Hmul Hdiv v u Hv Hu.
unfold in_neighbors in Hu.
destruct (ops.in_edges g v) as [|[e u'] [|? ?]] eqn:Ein; try discriminate.
simpl in Hu. inversion Hu; subst u'. clear Hu.
assert (Hin : In (e, u) (ops.in_edges g v)) by (rewrite Ein; left; reflexivity).
destruct (in_edges_source_lt g v e u Hwf Hin) as [_ Hult].
assert (Lv : length (nth v agg []) = dim self)
  by (apply (Forall_nth_length _ _ _ Hrows); lia).
assert (Lu : length (nth u x []) = dim self)
  by (apply (Forall_nth_length _ _ _ HF); lia).
apply (nth_ext _ _ f0 f0); [congruence|].
intros j Hj. rewrite Lv in Hj.
assert (Hj' : j = (j / num_heads self) * num_heads self + j mod num_heads self).
{ rewrite Nat.mul_comm. apply Nat.div_mod_eq. }
assert (Hi : j / num_heads self < head_dim self).
{ apply Nat.Div0.div_lt_upper_bound. rewrite Nat.mul_comm, <- Hdim. exact Hj. }
assert (Hh : j mod num_heads self < num_heads self)
  by (apply Nat.mod_upper_bound; lia).
pose proof (Hsum v _ _ Hv Hi Hh) as E. rewrite <- Hj', Ein in E.
unfold entry in E at 1. rewrite E. simpl.
unfold gat_prob. rewrite Ein. simpl.
rewrite !Hadd, Hdiv, Hmul. reflexivity.
Qed.

End GATFacts.

(** * The theorems at concrete inputs *)

Section Instances.
Import Examples.

(** The mean aggregation on the star: node 3 receives [(1 + 3 + 5) / 3]. *)
Lemma mean_forward_appends_neighbor_mean_witness :
exists m,
  GraphMeanAggregationModule.forward star star_features
  = Ok (T2 (torch.cat_rows star_features m))
  /\ nth 3 (torch.cat_rows star_features m) [] = [0; 0]%R ++ nth 3 m []
  /\ entry m 3 0 = ((1 + 3 + 5) / 3)%R.
Proof.
destruct (mean_forward_appends_neighbor_mean star star_features 2 eq_refl)
  as (m & Hf & _ & Hrows); [repeat constructor|].
exists m. split; [exact Hf|].
destruct (Hrows 3) as (Hcat & _ & _ & _ & Habc); [simpl; lia|].
split; [exact Hcat|].
eapply eq_trans; [exact (Habc Rplus_0_l 0 1 2 eq_refl 0 ltac:(lia))|].
unfold entry, star_features. simpl. lra.
Defined.

(** The max aggregation at the isolated node 2. *)
Lemma max_forward_isolated_node_is_zero_witness :
exists y,
  GraphMaxAggregationModule.forward pair_and_loner pair_and_loner_features
  = Ok (T2 y)
  /\ nth 2 y [] = [XFin 5; XNaN; XNegInf; XFin 0; XFin 0; XFin 0]%Q.
Proof.
destruct (@max_forward_isolated_node_is_zero xfloat xfloat_FloatSpecial
            pair_and_loner pair_and_loner_features 3 2 eq_refl eq_refl)
  as (y & Hf & Hrow & _); [repeat constructor|simpl; lia|reflexivity|].
exists y. split; [exact Hf|exact Hrow].
Defined.

(** The max aggregation at node 1, whose only in-neighbour holds plus and
    minus infinity. *)
Lemma max_forward_zeroes_infinite_entries_witness :
exists y,
  GraphMaxAggregationModule.forward pair_and_loner pair_and_loner_features
  = Ok (T2 y)
  /\ firstn 3 (nth 1 y []) = [XFin 2; XFin 3; XFin 4]%Q
  /\ nth (3 + 0) (nth 1 y []) f0 = XFin 0
  /\ nth (3 + 1) (nth 1 y []) f0 = XFin 0.
Proof.
destruct (@max_forward_zeroes_infinite_entries xfloat xfloat_FloatSpecial
            pair_and_loner pair_and_loner_features 3 eq_refl)
  as (r & y & _ & Hf & Hrows); [repeat constructor|].
exists y. split; [exact Hf|].
destruct (Hrows 1) as (Hfirst & _ & Hsecond); [simpl; lia|].
split; [exact Hfirst|]. split.
- destruct (Hsecond 0) as (_ & _ & Hsole); [lia|].
  exact (Hsole eq_refl 0 eq_refl eq_refl).
- destruct (Hsecond 1) as (_ & _ & Hsole); [lia|].
  exact (Hsole eq_refl 0 eq_refl eq_refl).
Defined.

(** [dim = 5] and [num_heads = 2]: the three constructors refuse. *)
Lemma constructors_check_head_count_witness :
GraphAttnGATAggregationModule.__init__ scenario_init 5 2
= Raise ConfigurationError
/\ GraphAttnTrfAggregationModule.__init__ scenario_init 5 2 0%R
   = Raise ConfigurationError
/\ TransformerSequenceEncoderModule.__init__
     (fun _ _ _ => XFin 0) 1 5 2 8 false (XFin 0)
   = Raise ConfigurationError.
Proof.
destruct (constructors_check_head_count
            scenario_init (fun _ _ _ => XFin 0) 5 2 1 8 0%R (XFin 0) false)
  as [Hraise _].
apply (Hraise 1%Z); [reflexivity|discriminate].
Defined.

(** A DeepWalk matrix of width 2 against an embedding dimension of 3, and
    of 2. *)
Lemma deepwalk_dimension_must_match_witness :
FeaturesPreparatorForDeepModels.__init__ mismatched_args
= Raise FeaturesPreparatorForDeepModels.deepwalk_mismatch
/\ exists self,
     FeaturesPreparatorForDeepModels.__init__ disjoint_args = Ok self.
Proof.
split.
- apply (deepwalk_dimension_must_match mismatched_args deepwalk
           eq_refl eq_refl eq_refl).
  simpl. discriminate.
- apply (deepwalk_dimension_must_match disjoint_args deepwalk
           eq_refl eq_refl eq_refl); reflexivity.
Defined.

(** Numeric features 0 and 3, past target 1: the stored mask is true at
    position 4 only. *)
Lemma stored_past_targets_mask_follows_layout_witness :
exists self stored,
  FeaturesPreparatorForDeepModels.__init__ disjoint_args = Ok self
  /\ FeaturesPreparatorForDeepModels.past_targets_mask self = Some stored
  /\ length stored = 6
  /\ true_positions stored = [4].
Proof.
assert (E : exists self,
          FeaturesPreparatorForDeepModels.__init__ disjoint_args = Ok self)
  by (eexists; reflexivity).
destruct E as [self E].
destruct (stored_past_targets_mask_follows_layout disjoint_args self
            eq_refl eq_refl eq_refl eq_refl eq_refl E)
  as (stored & Hs & Hlen & _ & Htp & _).
exists self, stored. auto.
Defined.

(** Disjoint masks: [output_dim] is 10 and [forward] returns rows of 10
    entries. *)
Lemma output_dim_is_last_dim_of_forward_witness :
exists self y,
  FeaturesPreparatorForDeepModels.__init__ disjoint_args = Ok self
  /\ FeaturesPreparatorForDeepModels.output_dim self = 10%Z
  /\ FeaturesPreparatorForDeepModels.forward self features = Ok y
  /\ has_shape y [2; 10].
Proof.
assert (E : exists self,
          FeaturesPreparatorForDeepModels.__init__ disjoint_args = Ok self)
  by (eexists; reflexivity).
destruct E as [self E].
destruct (output_dim_is_last_dim_of_forward disjoint_args self E) as [Hod Hfw].
destruct (Hfw (fun _ => eq_refl) (fun _ => eq_refl) (fun _ _ => eq_refl)
              features [2]) as (y & d & Hy & Hshape & Hd).
- simpl. split; [reflexivity|repeat constructor].
- intros _. simpl. split; [discriminate|reflexivity].
- exists self, y. split; [exact E|]. split; [exact Hod|]. split; [exact Hy|].
  rewrite Hod in Hd. change (expected_output_dim disjoint_args) with 10%Z in Hd.
  replace d with 10 in Hshape by lia. exact Hshape.
Defined.

(** C3, as stated, fails: the constructor accepts two masks that both
    select the second feature and subtracts that feature twice in
    [output_dim], which is 12, while [forward] returns rows of 10
    entries. *)
Lemma output_dim_overlapping_masks_counterexample :
exists self,
  FeaturesPreparatorForDeepModels.__init__ overlapping_args = Ok self
  /\ FeaturesPreparatorForDeepModels.output_dim self = 12%Z
  /\ FeaturesPreparatorForDeepModels.forward self features
     = Ok (T2 [[-30; -31; -32; 10; 11; 20; 21; 4; 100; 101];
               [-70; -71; -72; 50; 51; 60; 61; 8; 110; 111]]%Z).
Proof.
eexists. split; [reflexivity|]. split; reflexivity.
Qed.

End Instances.
Section GATInstances.
Import Examples.
Import GraphAttnGATAggregationModule.

(** The constructor returns [fork_module] on the draw [fork_init]. *)
Lemma fork_module_is_built :
__init__ fork_init 4 2 = Ok fork_module.
Proof. reflexivity. Qed.

Lemma leaky_relu_nonneg (slope a : R) :
(0 <= a)%R -> nn.LeakyReLU slope a = a.
Proof.
intros Ha. unfold nn.LeakyReLU. simpl.
destruct (Rlt_dec a 0); [lra|reflexivity].
Qed.

Lemma fork_scores :
gat_score fork_module fork_features 0 2 0 = 0%R
/\ gat_score fork_module fork_features 1 2 0 = 0%R
/\ gat_score fork_module fork_features 0 2 1 = 1%R
/\ gat_score fork_module fork_features 1 2 1 = 0%R.
Proof.
unfold gat_score, linear_entry, nn.Linear.dot. simpl.
repeat split; rewrite leaky_relu_nonneg; lra.
Qed.

(** C2, as stated, fails on two counts.  Position 1 of the aggregated row
    of node 2 is weighted by the probabilities of head 1 (the heads are
    interleaved), not by those of head 0 as the contiguous slices would
    have it: it is [e / (e + 1)], not [1 / 2].  And [forward] raises at the
    concatenation instead of returning a tensor of width 8. *)
Lemma gat_contiguous_head_slices_counterexample :
exists x3 agg,
  __init__ fork_init 4 2 = Ok fork_module
  /\ aggregate fork_module fork fork_features = Ok (x3, agg)
  /\ entry agg 2 1 = (exp 1 / (exp 1 + 1))%R
  /\ contiguous_head_sum fork_module fork fork_features 2 1 = (1 / 2)%R
  /\ entry agg 2 1 <> contiguous_head_sum fork_module fork fork_features 2 1
  /\ forward fork_module fork fork_features = Raise torch.rank_error.
Proof.
destruct (aggregate_ok fork_module fork fork_features)
  as (p & agg & Ep & Hpe & Hagg & _ & _ & Hentry).
{ exact (gat_init_sizes _ _ _ _ fork_module_is_built). }
{ simpl. lia. }
{ repeat constructor. }
{ reflexivity. }
{ repeat constructor. }
destruct fork_scores as (S00 & S10 & S01 & S11).
assert (E0 : exp 0 = 1%R) by apply exp_0.
assert (Hagg21 : entry agg 2 1 = (exp 1 / (exp 1 + 1))%R).
{ eapply eq_trans; [exact (Hentry 2 0 1 ltac:(simpl; lia) ltac:(simpl; lia) ltac:(simpl; lia))|].
  change (ops.in_edges fork 2) with [(0, 0); (1, 1)].
  cbn [fold_left fst snd].
  rewrite (Hpe 0 0 2 1 eq_refl ltac:(simpl; lia)).
  rewrite (Hpe 1 1 2 1 eq_refl ltac:(simpl; lia)).
  unfold gat_prob.
  change (ops.in_edges fork 2) with [(0, 0); (1, 1)].
  cbn [fold_left fst snd]. rewrite S01, S11.
  unfold entry, fork_features. simpl. rewrite E0. field.
  pose proof (exp_pos 1). lra. }
assert (Hclaim : contiguous_head_sum fork_module fork fork_features 2 1 = (1 / 2)%R).
{ unfold contiguous_head_sum, gat_prob.
  change (ops.in_edges fork 2) with [(0, 0); (1, 1)].
  change (1 / head_dim fork_module) with 0.
  cbn [fold_left fst snd]. rewrite S00, S10.
  unfold entry, fork_features. simpl. rewrite E0. field. }
exists (map (chunk (num_heads fork_module)) fork_features), agg.
split; [exact fork_module_is_built|]. split; [exact Hagg|].
split; [exact Hagg21|]. split; [exact Hclaim|]. split.
- rewrite Hagg21, Hclaim. intros Heq.
  pose proof (exp_ineq1 1 ltac:(lra)) as Hexp.
  assert (Hpos : (exp 1 + 1 <> 0)%R) by lra.
  apply (f_equal (fun t => (t * (2 * (exp 1 + 1)))%R)) in Heq.
  field_simplify in Heq; lra.
- exact (gat_forward_raises_at_concatenation _ _ _ _ _ Hagg).
Qed.

(** The spec's scenario: node 4 has the single in-neighbour 3, and its
    aggregated row is the row of node 3. *)
Lemma gat_aggregation_is_attention_weighted_sum_witness :
exists self x3 agg,
  __init__ scenario_init 4 2 = Ok self
  /\ aggregate self scenario scenario_features = Ok (x3, agg)
  /\ nth 4 agg [] = [13; 14; 15; 16]%R.
Proof.
destruct (__init__ scenario_init 4 2) as [self|e] eqn:E;
  [|exfalso; revert E; unfold __init__; cbn; discriminate].
assert (Hsizes : dim self = 4).
{ revert E. unfold __init__. cbn. intros E. inversion E. reflexivity. }
destruct (gat_aggregation_is_attention_weighted_sum
            scenario_init 4 2 self scenario scenario_features E)
  as (x3 & agg & Hagg & _ & _ & _ & Hsingle).
{ rewrite Hsizes. lia. }
{ repeat constructor. }
{ reflexivity. }
{ rewrite Hsizes. repeat constructor. }
exists self, x3, agg. split; [reflexivity|]. split; [exact Hagg|].
assert (Hdiv : forall s : R, fdiv (fexp s) (fexp s) = f1).
{ intros s. simpl. unfold Rdiv. apply Rinv_r.
  pose proof (exp_pos s). lra. }
exact (Hsingle Rplus_0_l Rmult_1_r Hdiv 4 3 ltac:(simpl; lia) eq_refl).
Defined.

End GATInstances.

(** * Further properties of the code *)

(** ** ResidualModulesWrapper, continued *)

Section ResidualMore.

Variables graph tensor : Type.
Variable tensor_add : tensor -> tensor -> result tensor.

Import ResidualModulesWrapper.

(** X1: an exception raised by a wrapped module is the result of
    [forward]: when the modules before [m] return [y] and [m] raises [e] on
    [y], the wrapper raises [e], whatever modules follow [m]; the residual
    addition is not reached. *)
Theorem residual_forward_raises_first_error
    (ms1 ms2 : list (nn_Module graph tensor)) (m : nn_Module graph tensor)
    (g : graph) (x y : tensor) (e : exn) :
manual_chain g ms1 x = Ok y ->
call_by_signature g m y = Raise e ->
forward tensor_add (__init__ (ModuleSeq (ms1 ++ m :: ms2))) g x = Raise e.
Proof.
intros Hpre Hm. unfold forward, __init__. cbn [wrapped_modules].
rewrite map_app, fold_left_app, loop_is_chain, Hpre. cbn [map fold_left bind].
rewrite loop_body_flagged, Hm, loop_raise. reflexivity.
Qed.

(** X2: a wrapper can be wrapped.  Its own [forward] has a parameter named
    [graph], so the outer wrapper hands it the graph, and the result is the
    input plus what the inner wrapper returns. *)
Theorem residual_wrapper_nests (inner : t graph tensor) (g : graph) (x : tensor) :
takes_graph_as_input
  (set_takes_graph_as_input (callable.of_wrapper tensor_add inner)) = Some true
/\ forward tensor_add
     (__init__ (OneModule (callable.of_wrapper tensor_add inner))) g x
   = (y <- forward tensor_add inner g x ;; tensor_add x y).
Proof.
split; [reflexivity|].
unfold forward at 1, __init__. cbn [wrapped_modules map fold_left bind].
rewrite loop_body_flagged. reflexivity.
Qed.

End ResidualMore.

(** ** Addition of matrices *)

Section AddFacts.
Context {T : Type} `{FloatArith T}.

Lemma map_result_ok_map {A B} (f : A -> result B) (g : A -> B) (l : list A) :
(forall a, In a l -> f a = Ok (g a)) -> map_result f l = Ok (map g l).
Proof.
induction l as [|a l IH]; intros Hf; [reflexivity|].
simpl. rewrite Hf by (left; reflexivity). cbn [bind].
rewrite IH by (intros a' Ha'; apply Hf; right; exact Ha'). reflexivity.
Qed.

Lemma add_vec_same_length (a b : list T) :
length a = length b ->
elementwise.add_vec a b = Ok (map (fun q => fadd (fst q) (snd q)) (combine a b)).
Proof.
intros E. unfold elementwise.add_vec.
destruct a as [|x [|x' a]]; destruct b as [|y [|y' b]]; try discriminate;
  try reflexivity.
apply Nat.eqb_eq in E. cbv beta iota. rewrite E. reflexivity.
Qed.

Lemma add_same_shape (a b : mat T) (d : nat) :
length a = length b ->
Forall (fun r => length r = d) a ->
Forall (fun r => length r = d) b ->
elementwise.add a b = Ok (zip_add a b).
Proof.
intros E Ha Hb.
assert (G : map_result (fun p => elementwise.add_vec (fst p) (snd p)) (combine a b)
            = Ok (zip_add a b)).
{ unfold zip_add. apply map_result_ok_map. intros [r r'] Hin. cbn [fst snd].
  apply add_vec_same_length.
  rewrite Forall_forall in Ha, Hb.
  rewrite (Ha r (in_combine_l _ _ _ _ Hin)), (Hb r' (in_combine_r _ _ _ _ Hin)).
  reflexivity. }
unfold elementwise.add.
destruct a as [|r [|r2 a]]; destruct b as [|r' [|r2' b]]; try discriminate.
- exact G.
- simpl in G |- *. exact G.
- apply Nat.eqb_eq in E. cbv beta iota. rewrite E. exact G.
Qed.

Lemma zip_add_shape (a b : mat T) (d : nat) :
length a = length b ->
Forall (fun r => length r = d) a ->
Forall (fun r => length r = d) b ->
length (zip_add a b) = length a
/\ Forall (fun r => length r = d) (zip_add a b).
Proof.
intros E Ha. revert b E. unfold zip_add.
induction Ha as [|r a Hr Ha IH]; intros [|r' b] E Hb; try discriminate.
- simpl. auto.
- inversion Hb; subst. simpl in E.
  destruct (IH b ltac:(lia) ltac:(assumption)) as [Hl HF].
  simpl. split; [lia|]. constructor; [|exact HF].
  rewrite length_map, length_combine. lia.
Qed.

End AddFacts.

(** ** FeedForwardModule *)

Section FeedForwardFacts.
Context {T : Type} `{FloatArith T}.

Import FeedForwardModule.

Lemma linear_init_inv (init : initializer T) (name : string) (i o : Z) (b : bool)
    (l : nn.Linear.t T) :
nn.Linear.__init__ init name i o b = Ok l ->
(0 <= i)%Z /\ (0 <= o)%Z
/\ nn.Linear.in_features l = Z.to_nat i
/\ nn.Linear.out_features l = Z.to_nat o
/\ nn.Linear.weight l
   = tabulate2 (Z.to_nat o) (Z.to_nat i) (init (name ++ ".weight")%string)
/\ nn.Linear.bias l
   = (if b then Some (map (init (name ++ ".bias")%string 0) (seq 0 (Z.to_nat o)))
      else None).
Proof.
unfold nn.Linear.__init__.
destruct ((i <? 0)%Z || (o <? 0)%Z) eqn:Eneg; [discriminate|].
apply orb_false_iff in Eneg. destruct Eneg as [Hi Ho].
apply Z.ltb_ge in Hi, Ho.
intros E; inversion E; subst l; clear E. simpl. repeat split; auto.
Qed.

Lemma linear_forward_raises (l : nn.Linear.t T) (x : mat T) :
Exists (fun r => length r <> nn.Linear.in_features l) x ->
nn.Linear.forward l x
= Raise (RuntimeError "mat1 and mat2 shapes cannot be multiplied").
Proof.
intros HE. unfold nn.Linear.forward.
destruct (forallb _ x) eqn:E; [|reflexivity].
rewrite forallb_forall in E. apply Exists_exists in HE.
destruct HE as (r & Hr & Hne). apply E, Nat.eqb_eq in Hr. contradiction.
Qed.

Lemma linear_forward_shape (l : nn.Linear.t T) (x : mat T) :
Forall (fun r => length r = nn.Linear.in_features l) x ->
exists y, nn.Linear.forward l x = Ok y
  /\ length y = length x
  /\ Forall (fun r => length r = nn.Linear.out_features l) y.
Proof.
intros HF. rewrite (linear_forward_ok l x HF). eexists. split; [reflexivity|].
split; [apply length_map|].
apply Forall_forall. intros r Hr. apply in_map_iff in Hr.
destruct Hr as (r0 & <- & _). rewrite length_map, length_seq. reflexivity.
Qed.

Lemma dropout_shape (draw : dropout_draw T) (name : string) (tr : bool) (p : T)
    (m : mat T) (d : nat) :
preserves_shape draw ->
Forall (fun r => length r = d) m ->
length (nn_Dropout draw name tr p m) = length m
/\ Forall (fun r => length r = d) (nn_Dropout draw name tr p m).
Proof.
intros Hd HF. unfold nn_Dropout.
destruct (tr && flt f0 p); [apply Hd, HF|auto].
Qed.

Lemma map_map_shape {A B} (f : A -> B) (m : list (list A)) (d : nat) :
Forall (fun r => length r = d) m ->
Forall (fun r => length r = d) (map (map f) m).
Proof.
intros HF. apply Forall_forall. intros r Hr. apply in_map_iff in Hr.
destruct Hr as (r0 & <- & Hr0). rewrite length_map.
rewrite Forall_forall in HF. apply HF, Hr0.
Qed.

Lemma feed_forward_ok (draw : dropout_draw T) (self : t T) (x : mat T) (a d : nat) :
nn.Linear.in_features (linear_1 self) = a ->
nn.Linear.out_features (linear_1 self) = nn.Linear.in_features (linear_2 self) ->
nn.Linear.out_features (linear_2 self) = d ->
preserves_shape draw ->
Forall (fun r => length r = a) x ->
exists y, forward draw self x = Ok y
  /\ length y = length x
  /\ Forall (fun r => length r = d) y.
Proof.
intros Ha Hmid Hd Hdraw HF. subst a d. unfold forward.
destruct (linear_forward_shape (linear_1 self) x HF) as (h & -> & Hlh & HFh).
cbn [bind].
destruct (dropout_shape draw "dropout_1" (training self) (dropout_1 self) h _
            Hdraw HFh) as [Hl1 HF1].
pose proof (map_map_shape (act self) _ _ HF1) as HF2.
rewrite Hmid in HF2.
destruct (linear_forward_shape (linear_2 self) _ HF2) as (z & -> & Hlz & HFz).
cbn [bind].
destruct (dropout_shape draw "dropout_2" (training self) (dropout_2 self) z _
            Hdraw HFz) as [Hl2 HF3].
eexists. split; [reflexivity|]. split; [|exact HF3].
rewrite Hl2, Hlz, length_map, Hl1, Hlh. reflexivity.
Qed.

Lemma feed_forward_init_inv (init : initializer T) (GELU : T -> T)
    (dim' num_inputs' : Z) (p : T) (self : t T) :
__init__ init GELU dim' num_inputs' p = Ok self ->
(0 <= dim')%Z
/\ nn.Linear.in_features (linear_1 self) = Z.to_nat (dim' * num_inputs')
/\ nn.Linear.out_features (linear_1 self) = Z.to_nat dim'
/\ nn.Linear.in_features (linear_2 self) = Z.to_nat dim'
/\ nn.Linear.out_features (linear_2 self) = Z.to_nat dim'
/\ nn.Linear.weight (linear_2 self)
   = tabulate2 (Z.to_nat dim') (Z.to_nat dim') (init "linear_2.weight"%string)
/\ nn.Linear.bias (linear_2 self)
   = Some (map (init "linear_2.bias"%string 0) (seq 0 (Z.to_nat dim')))
/\ training self = true.
Proof.
unfold __init__.
destruct (nn.Linear.__init__ init "linear_1" (dim' * num_inputs') dim' true)
  as [l1|e] eqn:E1; [|discriminate].
destruct (nn.Linear.__init__ init "linear_2" dim' dim' true)
  as [l2|e] eqn:E2; [|discriminate].
cbn [bind]. intros E; inversion E; subst self; clear E. cbn.
destruct (linear_init_inv _ _ _ _ _ _ E1) as (_ & _ & H1i & H1o & _).
destruct (linear_init_inv _ _ _ _ _ _ E2) as (Hd & _ & H2i & H2o & Hw & Hb).
repeat split; assumption.
Qed.

(** X3: a module built by [FeedForwardModule(dim, num_inputs, dropout)],
    in training or in evaluation mode, maps a matrix whose rows have
    [dim * num_inputs] entries to a matrix with as many rows, of [dim]
    entries each, whatever the (shape-preserving) dropout draws. *)
Theorem feed_forward_shape (init : initializer T) (GELU : T -> T)
    (dim' num_inputs' : Z) (p : T) (self m : t T) (draw : dropout_draw T)
    (x : mat T) :
__init__ init GELU dim' num_inputs' p = Ok self ->
m = self \/ m = eval self ->
preserves_shape draw ->
Forall (fun r => length r = Z.to_nat (dim' * num_inputs')) x ->
exists y, forward draw m x = Ok y
  /\ length y = length x
  /\ Forall (fun r => length r = Z.to_nat dim') y.
Proof.
intros Hinit Hm Hdraw HF.
destruct (feed_forward_init_inv _ _ _ _ _ _ Hinit)
  as (_ & H1i & H1o & H2i & H2o & _).
apply feed_forward_ok with (a := Z.to_nat (dim' * num_inputs')); auto;
  destruct Hm; subst m; cbn; congruence.
Qed.

(** X4: the same module refuses a matrix one of whose rows does not have
    [dim * num_inputs] entries: the first linear layer raises, before any
    dropout or activation. *)
Theorem feed_forward_rejects_wrong_width (init : initializer T) (GELU : T -> T)
    (dim' num_inputs' : Z) (p : T) (self m : t T) (draw : dropout_draw T)
    (x : mat T) :
__init__ init GELU dim' num_inputs' p = Ok self ->
m = self \/ m = eval self ->
Exists (fun r => length r <> Z.to_nat (dim' * num_inputs')) x ->
forward draw m x
= Raise (RuntimeError "mat1 and mat2 shapes cannot be multiplied").
Proof.
intros Hinit Hm HE.
destruct (feed_forward_init_inv _ _ _ _ _ _ Hinit) as (_ & H1i & _).
unfold forward.
rewrite linear_forward_raises; [reflexivity|].
destruct Hm; subst m; cbn; rewrite H1i; exact HE.
Qed.

Section ZeroTail.
Hypothesis fmul_0_r : forall a : T, fmul a f0 = f0.
Hypothesis fadd_0_r : forall a : T, fadd a f0 = a.

Lemma dot_zero_r (r w : list T) :
Forall (fun a => a = f0) w -> nn.Linear.dot r w = f0.
Proof.
unfold nn.Linear.dot. intros Hw.
assert (G : forall l : list (T * T),
          Forall (fun q => snd q = f0) l ->
          fold_left (fun acc q => fadd acc (fmul (fst q) (snd q))) l f0 = f0).
{ induction l as [|q l IH]; intros Hl; [reflexivity|].
  inversion Hl; subst. cbn [fold_left].
  replace (snd q) with (@f0 T _) by (symmetry; assumption).
  rewrite fmul_0_r, fadd_0_r. apply IH. assumption. }
apply G. apply Forall_forall. intros [a b] Hin. cbn [snd].
rewrite Forall_forall in Hw. apply Hw. eapply in_combine_r, Hin.
Qed.

Lemma feed_forward_zero_tail (init : initializer T) (GELU : T -> T)
    (dim' num_inputs' : Z) (p : T) (self : t T) (draw : dropout_draw T)
    (x : mat T) :
(forall i j, init "linear_2.weight"%string i j = f0) ->
(forall i j, init "linear_2.bias"%string i j = f0) ->
__init__ init GELU dim' num_inputs' p = Ok self ->
Forall (fun r => length r = Z.to_nat (dim' * num_inputs')) x ->
forward draw (eval self) x
= Ok (map (fun _ => map (fun _ => f0) (seq 0 (Z.to_nat dim'))) x).
Proof.
intros Hw Hb Hinit HF.
destruct (feed_forward_init_inv _ _ _ _ _ _ Hinit)
  as (_ & H1i & H1o & H2i & H2o & H2w & H2b & _).
unfold forward. cbn [eval linear_1 linear_2 training dropout_1 dropout_2 act].
rewrite <- H1i in HF.
destruct (linear_forward_shape (linear_1 self) x HF) as (h & -> & Hlh & HFh).
cbn [bind]. unfold nn_Dropout. cbn [andb].
rewrite linear_forward_ok
  by (apply map_map_shape; rewrite H2i, <- H1o; exact HFh).
cbn [bind]. f_equal. rewrite map_map.
revert x Hlh HF. clear HFh. induction h as [|r h IH]; intros [|r' x] Hl HF;
  try discriminate; [reflexivity|].
cbn [map]. f_equal.
- rewrite H2o. apply map_ext_in. intros o Ho. apply in_seq in Ho.
  unfold linear_entry. rewrite H2w, H2b.
  rewrite (nth_indep _ f0 (init "linear_2.bias"%string 0 0))
    by (rewrite length_map, length_seq; lia).
  rewrite (map_nth (init "linear_2.bias"%string 0)), Hb, fadd_0_r.
  apply dot_zero_r. unfold tabulate2.
  rewrite nth_map_seq by lia.
  apply Forall_forall. intros a Ha. apply in_map_iff in Ha.
  destruct Ha as (j & <- & _). apply Hw.
- apply IH; [simpl in Hl; lia|inversion HF; assumption].
Qed.

Lemma zip_add_zero (x : mat T) (d : nat) :
Forall (fun r => length r = d) x ->
zip_add x (map (fun _ => map (fun _ => f0) (seq 0 d)) x) = x.
Proof.
unfold zip_add. intros HF. induction HF as [|r x Hr HF IH]; [reflexivity|].
cbn [map combine fst snd]. f_equal; [|exact IH].
subst d. clear HF IH. generalize 0 at 1. induction r as [|a r IH]; intros s; [reflexivity|].
cbn [length seq map combine fst snd]. rewrite fadd_0_r. f_equal. apply IH.
Qed.

(** X5: a residual block around a feed-forward module whose second linear
    layer is at zero is the identity in evaluation mode: the wrapper
    returns its input [x] (assuming [a * 0 = 0] and [a + 0 = a] of the
    arithmetic). *)
Theorem residual_over_zero_feed_forward_is_identity
    (init : initializer T) (GELU : T -> T) (dim' : Z) (p : T) (self : t T)
    (draw : dropout_draw T) (g : ops.DGLGraph) (x : mat T) :
(forall i j, init "linear_2.weight"%string i j = f0) ->
(forall i j, init "linear_2.bias"%string i j = f0) ->
__init__ init GELU dim' 1 p = Ok self ->
Forall (fun r => length r = Z.to_nat dim') x ->
ResidualModulesWrapper.forward elementwise.add
  (ResidualModulesWrapper.__init__
     (ResidualModulesWrapper.OneModule
        (@callable.without_graph ops.DGLGraph (mat T)
           (forward draw (eval self)))))
  g x
= Ok x.
Proof.
intros Hw Hb Hinit HF.
unfold ResidualModulesWrapper.forward, ResidualModulesWrapper.__init__.
cbn [ResidualModulesWrapper.wrapped_modules map fold_left bind].
rewrite loop_body_flagged.
unfold ResidualModulesWrapper.call_by_signature. cbn.
rewrite (feed_forward_zero_tail init GELU dim' 1 p self draw x Hw Hb Hinit)
  by (rewrite Z.mul_1_r; exact HF).
cbn [bind].
rewrite (add_same_shape _ _ (Z.to_nat dim')).
- rewrite zip_add_zero by exact HF. reflexivity.
- rewrite length_map. reflexivity.
- exact HF.
- apply Forall_forall. intros r Hr. apply in_map_iff in Hr.
  destruct Hr as (r0 & <- & _). rewrite length_map, length_seq. reflexivity.
Qed.

End ZeroTail.

(** X6: the layer [ResidualModulesWrapper([GraphMeanAggregationModule(),
    FeedForwardModule(dim, num_inputs=2)])] on a graph with as many nodes
    as [x] has rows, each of [dim] entries: the graph goes to the
    aggregation only, the feed-forward module receives the rows doubled in
    width, and the layer returns [x] plus its output, with the shape of
    [x]. *)
Theorem residual_mean_feed_forward_layer
    (init : initializer T) (GELU : T -> T) (dim' : Z) (p : T) (self : t T)
    (draw : dropout_draw T) (g : ops.DGLGraph) (x : mat T) :
__init__ init GELU dim' 2 p = Ok self ->
preserves_shape draw ->
length x = ops.num_nodes g ->
Forall (fun r => length r = Z.to_nat dim') x ->
exists a h,
  GraphMeanAggregationModule.forward g x = Ok (T2 a)
  /\ Forall (fun r => length r = 2 * Z.to_nat dim') a
  /\ forward draw self a = Ok h
  /\ ResidualModulesWrapper.forward elementwise.add
       (ResidualModulesWrapper.__init__
          (ResidualModulesWrapper.ModuleSeq
             [callable.with_graph
                (fun g x => as_matrix (GraphMeanAggregationModule.forward g x));
              @callable.without_graph ops.DGLGraph (mat T) (forward draw self)]))
       g x
     = Ok (zip_add x h)
  /\ length (zip_add x h) = length x
  /\ Forall (fun r => length r = Z.to_nat dim') (zip_add x h).
Proof.
intros Hinit Hdraw Hlen HF.
destruct (feed_forward_init_inv _ _ _ _ _ _ Hinit) as (Hd & _).
destruct (copy_u_mean_ok g x Hlen) as (m & Hm & Hlm & Hrows).
assert (HFm : Forall (fun r => length r = Z.to_nat dim') m).
{ apply Forall_forall. intros r Hr. destruct (In_nth _ _ [] Hr) as (v & Hv & <-).
  rewrite Hlm in Hv. rewrite (Hrows v Hv), length_map, length_seq.
  apply ncols_uniform; [exact HF|].
  intros ->. simpl in Hlen. lia. }
assert (Hxm : length x = length m) by congruence.
destruct (cat_rows_shape x m _ _ Hxm HF HFm) as [Hla HFa].
assert (Ea : GraphMeanAggregationModule.forward g x = Ok (T2 (torch.cat_rows x m))).
{ unfold GraphMeanAggregationModule.forward. rewrite Hm. cbn [bind].
  unfold torch.cat_last. rewrite (proj2 (Nat.eqb_eq _ _) Hxm). reflexivity. }
replace (Z.to_nat dim' + Z.to_nat dim') with (Z.to_nat (dim' * 2)) in HFa
  by (rewrite Z2Nat.inj_mul by lia; simpl; lia).
destruct (feed_forward_init_inv _ _ _ _ _ _ Hinit)
  as (_ & H1i & H1o & H2i & H2o & _).
destruct (feed_forward_ok draw self _ _ (Z.to_nat dim') H1i
            (eq_trans H1o (eq_sym H2i)) H2o Hdraw HFa) as (h & Hh & Hlh & HFh).
exists (torch.cat_rows x m), h.
split; [exact Ea|]. split.
{ replace (2 * Z.to_nat dim') with (Z.to_nat (dim' * 2))
    by (rewrite Z2Nat.inj_mul by lia; simpl; lia).
  exact HFa. }
split; [exact Hh|].
assert (Hxh : length x = length h) by congruence.
split; [|apply zip_add_shape; assumption].
rewrite residual_two_modules by reflexivity. cbn.
rewrite Ea. cbn [as_matrix bind]. rewrite Hh. cbn [bind].
apply add_same_shape with (d := Z.to_nat dim'); assumption.
Qed.

End FeedForwardFacts.

(** ** GraphAttnGATAggregationModule, continued *)

Section GATMore.
Context {T : Type} `{FloatArith T}.

Import GraphAttnGATAggregationModule.

(** X7: [forward] of the GAT aggregation returns no tensor.  Whatever the
    module, the graph and the input, the result is an exception; and on a
    module built by the constructor with a positive [dim], a well-formed
    graph and one row of [dim] entries per node, every line up to the
    aggregation runs and the exception is that of the concatenation of
    line 100, which is handed the 3-dimensional [x] of line 96 and the
    2-dimensional [x_aggregated]. *)
Theorem gat_forward_raises_on_well_shaped_input
    (init : initializer T) (dim' num_heads' : Z) (self : t T)
    (g : ops.DGLGraph) (x : mat T) :
__init__ init dim' num_heads' = Ok self ->
(0 < dim')%Z ->
ops.well_formed g ->
length x = ops.num_nodes g ->
Forall (fun r => length r = Z.to_nat dim') x ->
(exists agg,
   aggregate self g x = Ok (map (chunk (num_heads self)) x, agg)
   /\ length agg = ops.num_nodes g
   /\ Forall (fun r => length r = Z.to_nat dim') agg)
/\ forward self g x = Raise torch.rank_error
/\ forall self' g' x' y, forward self' g' x' <> Ok y.
Proof.
intros Hinit Hpos Hwf Hlen HF.
pose proof (gat_init_sizes _ _ _ _ Hinit) as Hsz.
assert (Hdim : dim self = Z.to_nat dim').
{ revert Hinit. unfold __init__.
  destruct (utils._check_dim_and_num_heads_consistency dim' num_heads');
    [|discriminate]. cbn [bind].
  destruct (nn.Linear.__init__ init "attn_linear_u" dim' num_heads' true);
    [|discriminate]. cbn [bind].
  destruct (nn.Linear.__init__ init "attn_linear_v" dim' num_heads' false);
    [|discriminate]. cbn [bind].
  intros E; inversion E; reflexivity. }
rewrite <- Hdim in HF.
destruct (aggregate_ok self g x Hsz ltac:(lia) Hwf Hlen HF)
  as (p & agg & _ & _ & Hagg & Hla & HFa & _).
split; [|split].
- exists agg. rewrite <- Hdim. auto.
- exact (gat_forward_raises_at_concatenation self g x _ _ Hagg).
- intros self' g' x' y. apply gat_forward_never_returns.
Qed.

End GATMore.

(** ** GraphAttnTrfAggregationModule *)

Section Blocks.
Context {A : Type}.

Lemma chunk_shape (d h : nat) (r : list A) :
0 < d -> length r = h * d ->
length (chunk d r) = h /\ Forall (fun c => length c = d) (chunk d r).
Proof. intros Hd Hr. apply chunk_aux_shape; [exact Hd|exact Hr|lia]. Qed.

Lemma map_chunk_shape (x : list (list A)) (h d : nat) :
0 < d -> Forall (fun r => length r = h * d) x ->
blocks_of_shape h d (map (chunk d) x).
Proof.
intros Hd HF. apply Forall_forall. intros m Hm. apply in_map_iff in Hm.
destruct Hm as (r & <- & Hr). rewrite Forall_forall in HF.
apply chunk_shape; [exact Hd|apply HF, Hr].
Qed.

Lemma blocks_map_map {B} (f : list A -> list B) (h d d' : nat)
    (c : list (list (list A))) :
(forall r, length r = d -> length (f r) = d') ->
blocks_of_shape h d c -> blocks_of_shape h d' (map (map f) c).
Proof.
intros Hf Hc. apply Forall_forall. intros m Hm. apply in_map_iff in Hm.
destruct Hm as (m0 & <- & Hm0).
destruct (proj1 (Forall_forall _ _) Hc _ Hm0) as [Hl HF].
split; [rewrite length_map; exact Hl|].
apply Forall_forall. intros r Hr. apply in_map_iff in Hr.
destruct Hr as (r0 & <- & Hr0). apply Hf.
rewrite Forall_forall in HF. apply HF, Hr0.
Qed.

Lemma blocks_dims (h d : nat) (c : list (list (list A))) :
blocks_of_shape h d c -> 0 < h -> c <> [] -> dim1 c = h /\ dim2 c = d.
Proof.
intros Hc Hh Hne. destruct c as [|m c]; [congruence|].
inversion Hc as [|? ? [Hl HF] _]; subst. split; [reflexivity|].
simpl. destruct m as [|r m]; [simpl in Hh; lia|].
inversion HF; assumption.
Qed.

Lemma nth_map_map {B} (f : list A -> list B) (c : list (list (list A)))
    (u h : nat) :
f [] = [] -> nth h (nth u (map (map f) c) []) [] = f (nth h (nth u c []) []).
Proof.
intros Hf.
change (@nil (list B)) with (map f (@nil (list A))) at 1.
rewrite (map_nth (map f)).
rewrite <- Hf at 1. apply map_nth.
Qed.

Lemma blocks_concat (h d : nat) (c : list (list (list A))) :
blocks_of_shape h d c ->
Forall (fun r => length r = h * d) (map (@concat A) c).
Proof.
intros Hc. apply Forall_forall. intros r Hr. apply in_map_iff in Hr.
destruct Hr as (m & <- & Hm).
destruct (proj1 (Forall_forall _ _) Hc _ Hm) as [Hl HF].
rewrite (length_concat_uniform d _ HF), Hl. reflexivity.
Qed.

End Blocks.

Section TrfFacts.
Context {T : Type} `{FloatArith T}.

Import GraphAttnTrfAggregationModule.

Lemma reshape_3d_rows (x : mat T) (d1 d2 : nat) :
0 < d1 * d2 -> Forall (fun r => length r = d1 * d2) x ->
torch.reshape_3d x d1 d2 = Ok (map (chunk d2) x).
Proof.
intros Hpos HF. unfold torch.reshape_3d.
rewrite (proj2 (Nat.eqb_neq _ _)) by lia.
rewrite (length_concat_uniform _ _ HF), Nat.Div0.mod_mul. cbn [negb orb Nat.eqb].
rewrite chunk_concat by assumption. reflexivity.
Qed.

Lemma reshape_2d_blocks (c : list (mat T)) (h d : nat) :
0 < h * d -> blocks_of_shape h d c ->
torch.reshape_2d c (h * d) = Ok (map (@concat T) c).
Proof.
intros Hpos Hc. pose proof (blocks_concat _ _ _ Hc) as HF.
unfold torch.reshape_2d.
rewrite (proj2 (Nat.eqb_neq _ _)) by lia.
rewrite (length_concat_uniform _ _ HF), Nat.Div0.mod_mul. cbn [negb orb Nat.eqb].
rewrite chunk_concat by assumption. reflexivity.
Qed.

Lemma split3_ok (c : list (mat T)) (h s : nat) :
blocks_of_shape h (s + s + s) c ->
torch.split3 c s s s
= Ok (map (map (firstn s)) c,
      map (map (fun r => firstn s (skipn s r))) c,
      map (map (skipn (s + s))) c).
Proof.
intros Hc. unfold torch.split3.
replace (forallb _ c) with true; [reflexivity|].
symmetry. apply forallb_forall. intros m Hm.
destruct (proj1 (Forall_forall _ _) Hc _ Hm) as [_ HF].
apply forallb_forall. intros r Hr. apply Nat.eqb_eq.
rewrite Forall_forall in HF. apply HF, Hr.
Qed.

Lemma trf_init_sizes (init : initializer T) (dim' num_heads' : Z) (p : T)
    (self : t T) :
__init__ init dim' num_heads' p = Ok self ->
(0 < dim')%Z -> (0 < num_heads')%Z ->
trf_sizes_agree self
/\ dim self = Z.to_nat dim'
/\ nn.Linear.weight (output_linear self)
   = tabulate2 (Z.to_nat dim') (Z.to_nat dim') (init "output_linear.weight"%string)
/\ nn.Linear.bias (output_linear self)
   = Some (map (init "output_linear.bias"%string 0) (seq 0 (Z.to_nat dim')))
/\ dropout self = p.
Proof.
intros Hinit Hd Hn. revert Hinit.
unfold __init__, utils._check_dim_and_num_heads_consistency, utils.py_mod.
destruct (Z.eqb_spec num_heads' 0) as [|Hnz]; [discriminate|]. cbn [bind].
destruct (Z.eqb_spec (dim' mod num_heads') 0) as [Hmod|]; [|discriminate].
cbn [bind].
destruct (nn.Linear.__init__ init "attn_qkv_linear" dim' (dim' * 3) true)
  as [l1|e] eqn:E1; [|discriminate].
destruct (nn.Linear.__init__ init "output_linear" dim' dim' true)
  as [l2|e] eqn:E2; [|discriminate].
cbn [bind]. intros E; inversion E; subst self; clear E.
destruct (linear_init_inv _ _ _ _ _ _ E1) as (_ & _ & H1i & H1o & _).
destruct (linear_init_inv _ _ _ _ _ _ E2) as (_ & _ & H2i & H2o & H2w & H2b).
apply Z.mod_divide in Hmod; [|exact Hnz]. destruct Hmod as [q Hq].
assert (Hqpos : (0 < q)%Z) by nia.
unfold trf_sizes_agree. cbn.
assert (Hdiv : (dim' / num_heads')%Z = q)
  by (subst dim'; apply Z.div_mul; exact Hnz).
rewrite Hdiv.
repeat split; try assumption; lia.
Qed.

Lemma trf_aggregate_ok (self : t T) (g : ops.DGLGraph) (x : mat T) :
trf_sizes_agree self ->
ops.well_formed g ->
length x = ops.num_nodes g ->
Forall (fun r => length r = dim self) x ->
exists agg,
  aggregate self g x = Ok agg
  /\ length agg = ops.num_nodes g
  /\ Forall (fun r => length r = dim self) agg
  /\ forall v h k,
       v < ops.num_nodes g -> h < num_heads self -> k < head_dim self ->
       entry agg v (h * head_dim self + k)
       = fold_left (fun acc e =>
                      fadd acc (fmul (trf_value self x (snd e) h k)
                                     (trf_prob self g x (snd e) v h)))
                   (ops.in_edges g v) f0.
Proof.
intros (Hdim & Hnh & Hhd & Hqi & Hqo & _) Hwf Hx HF.
unfold aggregate.
rewrite linear_forward_ok by (rewrite Hqi; exact HF).
cbn [bind]. rewrite Hqo.
set (l := attn_qkv_linear self).
set (nh := num_heads self) in *. set (hd := head_dim self) in *.
assert (Hw : dim self * 3 = nh * (hd * 3)) by lia.
rewrite Hw.
set (qkvs := map (fun r => map (linear_entry l r) (seq 0 (nh * (hd * 3)))) x).
assert (HFq : Forall (fun r => length r = nh * (hd * 3)) qkvs).
{ apply Forall_forall. intros r Hr. apply in_map_iff in Hr.
  destruct Hr as (r0 & <- & _). rewrite length_map, length_seq. reflexivity. }
rewrite (reshape_3d_rows qkvs nh (hd * 3)) by (try nia; exact HFq).
cbn [bind].
set (qkv3 := map (chunk (hd * 3)) qkvs).
assert (Hb3 : blocks_of_shape nh (hd + hd + hd) qkv3).
{ replace (hd + hd + hd) with (hd * 3) by lia.
  apply map_chunk_shape; [lia|exact HFq]. }
rewrite (split3_ok qkv3 nh hd Hb3). cbn [bind].
set (q3 := map (map (firstn hd)) qkv3).
set (k3 := map (map (fun r => firstn hd (skipn hd r))) qkv3).
set (v3 := map (map (skipn (hd + hd))) qkv3).
assert (Hl3 : @length (mat T) qkv3 = ops.num_nodes g)
  by (unfold qkv3, qkvs; rewrite !length_map; exact Hx).
assert (Hlq : @length (mat T) q3 = ops.num_nodes g)
  by (unfold q3; rewrite length_map; exact Hl3).
assert (Hlk : @length (mat T) k3 = ops.num_nodes g)
  by (unfold k3; rewrite length_map; exact Hl3).
assert (Hlv : @length (mat T) v3 = ops.num_nodes g)
  by (unfold v3; rewrite length_map; exact Hl3).
assert (Hbq : blocks_of_shape nh hd q3).
{ apply (blocks_map_map (firstn hd) nh (hd + hd + hd) hd); [|exact Hb3].
  intros r Hr. rewrite length_firstn. lia. }
assert (Hbk : blocks_of_shape nh hd k3).
{ apply (blocks_map_map (fun r => firstn hd (skipn hd r)) nh (hd + hd + hd) hd);
    [|exact Hb3].
  intros r Hr. rewrite length_firstn, length_skipn. lia. }
assert (Hbv : blocks_of_shape nh hd v3).
{ apply (blocks_map_map (skipn (hd + hd)) nh (hd + hd + hd) hd); [|exact Hb3].
  intros r Hr. rewrite length_skipn. lia. }
assert (Hnz : forall c : list (mat T),
          length c = ops.num_nodes g -> 0 < ops.num_nodes g -> c <> [])
  by (intros c Hc HN ->; simpl in Hc; lia).
assert (Hqkv3 : forall u h j, u < ops.num_nodes g -> h < nh -> j < hd * 3 ->
          nth j (nth h (nth u qkv3 []) []) f0
          = linear_entry l (nth u x []) (h * (hd * 3) + j)).
{ intros u h j Hu Hh Hj. unfold qkv3.
  change (@nil (list T)) with (chunk (hd * 3) (@nil T)) at 1.
  rewrite (map_nth (chunk (hd * 3))).
  rewrite nth_chunk
    by (try exact Hj;
        rewrite (Forall_nth_length _ _ _ HFq)
          by (unfold qkvs; rewrite length_map; lia);
        apply Nat.Div0.mod_mul).
  unfold qkvs. rewrite (nth_map_lt _ x u [] []) by lia.
  apply nth_map_seq. nia. }
assert (Hqe : forall u h k, u < ops.num_nodes g -> h < nh -> k < hd ->
          entry3 q3 u h k = trf_query self x u h k).
{ intros u h k Hu Hh Hk. unfold entry3, entry, q3, mat.
  rewrite (nth_map_map (firstn hd) qkv3 u h (firstn_nil T hd)).
  rewrite nth_firstn, (proj2 (Nat.ltb_lt _ _) Hk).
  apply Hqkv3; lia. }
assert (Hke : forall u h k, u < ops.num_nodes g -> h < nh -> k < hd ->
          entry3 k3 u h k = trf_key self x u h k).
{ intros u h k Hu Hh Hk. unfold entry3, entry, k3, mat.
  rewrite (nth_map_map (fun r => firstn hd (skipn hd r)) qkv3 u h
             (eq_trans (f_equal (firstn hd) (skipn_nil T hd)) (firstn_nil T hd))).
  rewrite nth_firstn, (proj2 (Nat.ltb_lt _ _) Hk), nth_skipn.
  apply Hqkv3; lia. }
assert (Hve : forall u h k, u < ops.num_nodes g -> h < nh -> k < hd ->
          entry3 v3 u h k = trf_value self x u h k).
{ intros u h k Hu Hh Hk. unfold entry3, entry, v3, mat.
  rewrite (nth_map_map (skipn (hd + hd)) qkv3 u h (skipn_nil T (hd + hd))).
  rewrite nth_skipn.
  apply Hqkv3; lia. }
clearbody q3 k3 v3. clear Hqkv3 Hb3 Hl3. clearbody qkv3. clear qkv3 HFq. clearbody qkvs.
clear qkvs.
assert (Hdims : forall c : list (mat T),
          length c = ops.num_nodes g -> blocks_of_shape nh hd c ->
          0 < ops.num_nodes g -> dim1 c = nh /\ dim2 c = hd).
{ intros c Hc Hbc HN. apply blocks_dims; auto. }
assert (HE0 : ops.num_nodes g = 0 -> ops.edges g = []).
{ intros HN. destruct (ops.edges g) as [|e0 es] eqn:Ee; [reflexivity|].
  assert (Hne : ops.edges g <> []) by congruence.
  pose proof (well_formed_nonempty g Hwf Hne). lia. }
(* line 125 *)
set (sc0 := map (fun e =>
                   map (fun h =>
                          [fold_left
                             (fun acc k =>
                                fadd acc (fmul (entry3 k3 (fst e) h k)
                                               (entry3 q3 (snd e) h k)))
                             (seq 0 hd) f0])
                       (seq 0 nh))
                (ops.edges g)).
assert (Hdot : ops.u_dot_v g k3 q3 = Ok sc0).
{ unfold ops.u_dot_v. rewrite Hlk, Hlq, Nat.eqb_refl. cbn [andb].
  destruct (Nat.eq_dec (ops.num_nodes g) 0) as [HN|HN].
  - assert (k3 = []) by (destruct k3; [reflexivity|simpl in Hlk; lia]).
    assert (q3 = []) by (destruct q3; [reflexivity|simpl in Hlq; lia]).
    subst k3 q3. cbn. unfold sc0. rewrite (HE0 HN). reflexivity.
  - destruct (Hdims k3 Hlk Hbk ltac:(lia)) as [-> ->].
    destruct (Hdims q3 Hlq Hbq ltac:(lia)) as [-> ->].
    rewrite !Nat.eqb_refl. reflexivity. }
rewrite Hdot. cbn [bind].
set (mult := attn_scores_multiplier self).
set (sc := map (map (map (fun a => fmul a mult))) sc0).
assert (Hls : @length (mat T) sc = length (ops.edges g))
  by (unfold sc, sc0; rewrite !length_map; reflexivity).
assert (Hbs : blocks_of_shape nh 1 sc).
{ unfold sc. apply (blocks_map_map (map (fun a => fmul a mult)) nh 1 1).
  - intros r Hr. rewrite length_map. exact Hr.
  - apply Forall_forall. intros m Hm. unfold sc0 in Hm. apply in_map_iff in Hm.
    destruct Hm as (e & <- & _). split; [rewrite length_map, length_seq; reflexivity|].
    apply Forall_forall. intros r Hr. apply in_map_iff in Hr.
    destruct Hr as (h & <- & _). reflexivity. }
assert (Hsc : forall e u v h,
          nth_error (ops.edges g) e = Some (u, v) -> h < nh ->
          entry3 sc e h 0 = trf_score self x u v h).
{ intros e u v h He Hh.
  assert (Hlt : e < length (ops.edges g)) by (apply nth_error_Some; congruence).
  pose proof (nth_error_In _ _ He) as Hin.
  destruct (proj1 (Forall_forall _ _) Hwf _ Hin) as [Hu Hv']. simpl in Hu, Hv'.
  unfold entry3, entry, sc, mat.
  rewrite (nth_map_map (map (fun a => fmul a mult)) sc0 e h eq_refl).
  unfold sc0. rewrite (nth_map_lt _ (ops.edges g) e (u, v) []) by exact Hlt.
  rewrite (nth_error_nth _ _ _ He). cbn [fst snd].
  rewrite nth_map_seq by exact Hh. cbn [map nth].
  unfold trf_score. fold hd mult. f_equal.
  apply fold_left_ext_in. intros k acc Hk'. apply in_seq in Hk'.
  rewrite Hke, Hqe by lia. reflexivity. }
(* line 126 *)
unfold ops.edge_softmax_heads. rewrite Hls, Nat.eqb_refl. cbn [bind].
set (p := map (fun pr : nat * (nat * nat) =>
                 map (fun h =>
                        map (fun k =>
                               fdiv (fexp (entry3 sc (fst pr) h k))
                                    (fold_left
                                       (fun acc e =>
                                          fadd acc (fexp (entry3 sc (fst e) h k)))
                                       (ops.in_edges g (snd (snd pr))) f0))
                            (seq 0 (dim2 sc)))
                     (seq 0 (dim1 sc)))
              (combine (seq 0 (length (ops.edges g))) (ops.edges g))).
assert (Hlp : @length (mat T) p = length (ops.edges g)).
{ unfold p. rewrite length_map, length_combine, length_seq. apply Nat.min_id. }
assert (Hsd : ops.edges g <> [] -> dim1 sc = nh /\ dim2 sc = 1).
{ intros Hne. apply blocks_dims; [exact Hbs|exact Hnh|].
  intros E0. rewrite E0 in Hls. simpl in Hls.
  destruct (ops.edges g); [congruence|discriminate]. }
assert (Hbp : blocks_of_shape nh 1 p).
{ apply Forall_forall. intros m Hm. unfold p in Hm. apply in_map_iff in Hm.
  destruct Hm as (pr & <- & Hpr).
  assert (Hne : ops.edges g <> [])
    by (intros E0; rewrite E0 in Hpr; simpl in Hpr; exact Hpr).
  destruct (Hsd Hne) as [-> ->].
  split; [rewrite length_map, length_seq; reflexivity|].
  apply Forall_forall. intros r Hr. apply in_map_iff in Hr.
  destruct Hr as (h & <- & _). reflexivity. }
assert (Hp : forall e u v h,
          nth_error (ops.edges g) e = Some (u, v) -> h < nh ->
          entry3 p e h 0 = trf_prob self g x u v h).
{ intros e u v h He Hh.
  assert (Hlt : e < length (ops.edges g)) by (apply nth_error_Some; congruence).
  assert (Hne : ops.edges g <> [])
    by (intros E0; rewrite E0 in Hlt; simpl in Hlt; lia).
  unfold entry3 at 1, entry, p, mat.
  rewrite (nth_map_lt _ _ e (0, (u, v)) [])
    by (rewrite length_combine, length_seq, Nat.min_id; exact Hlt).
  rewrite (nth_combine_seq _ _ _ He). cbn [fst snd].
  destruct (Hsd Hne) as [-> ->].
  rewrite nth_map_seq by exact Hh. cbn [seq map nth].
  unfold trf_prob. rewrite (Hsc e u v h He Hh). f_equal.
  apply fold_left_ext_in. intros [e' u'] acc Hin'. cbn [fst snd].
  apply in_edges_spec in Hin'. rewrite (Hsc e' u' v h Hin' Hh). reflexivity. }
clearbody p. clear Hsc Hsd Hbs Hls. clearbody sc. clear sc Hdot. clearbody sc0.
clear sc0.
(* line 128 *)
set (agg3 := map (fun v =>
                    map (fun h =>
                           map (fun k =>
                                  fold_left
                                    (fun acc e =>
                                       fadd acc (fmul (entry3 v3 (snd e) h k)
                                                      (entry3 p (fst e) h 0)))
                                    (ops.in_edges g v) f0)
                               (seq 0 hd))
                        (seq 0 nh))
                 (seq 0 (ops.num_nodes g))).
assert (Hsum : ops.u_mul_e_sum_heads g v3 p = Ok agg3).
{ unfold ops.u_mul_e_sum_heads. rewrite Hlv, Hlp, !Nat.eqb_refl. cbn [andb].
  destruct (Nat.eq_dec (ops.num_nodes g) 0) as [HN|HN].
  - assert (v3 = []) by (destruct v3; [reflexivity|simpl in Hlv; lia]).
    subst v3. rewrite (HE0 HN). cbn [length Nat.eqb orb].
    rewrite orb_true_r. unfold agg3. rewrite HN. reflexivity.
  - destruct (Hdims v3 Hlv Hbv ltac:(lia)) as [-> ->].
    replace ((dim1 p =? nh) && (dim2 p =? 1) || (length (ops.edges g) =? 0))
      with true; [reflexivity|].
    symmetry. destruct (ops.edges g) as [|e0 es] eqn:Ee; [apply orb_true_r|].
    destruct (blocks_dims nh 1 p Hbp Hnh) as [-> ->].
    + intros E0. rewrite E0 in Hlp. discriminate.
    + rewrite Nat.eqb_refl. reflexivity. }
rewrite Hsum. cbn [bind].
assert (Hba : blocks_of_shape nh hd agg3).
{ apply Forall_forall. intros m Hm. unfold agg3 in Hm. apply in_map_iff in Hm.
  destruct Hm as (v & <- & _).
  split; [rewrite length_map, length_seq; reflexivity|].
  apply Forall_forall. intros r Hr. apply in_map_iff in Hr.
  destruct Hr as (h & <- & _). rewrite length_map, length_seq. reflexivity. }
rewrite Hdim. rewrite (reshape_2d_blocks agg3 nh hd) by (try nia; exact Hba).
eexists. split; [reflexivity|]. split; [|split].
- unfold agg3. rewrite !length_map, length_seq. reflexivity.
- apply blocks_concat, Hba.
- intros v h k Hv' Hh Hk'. unfold entry at 1.
  rewrite (nth_map_lt _ agg3 v [] [])
    by (unfold agg3; rewrite length_map, length_seq; exact Hv').
  unfold agg3 at 1. rewrite nth_map_seq by exact Hv'.
  rewrite (nth_concat_uniform hd).
  + rewrite nth_map_seq by exact Hh. rewrite nth_map_seq by exact Hk'.
    apply fold_left_ext_in. intros [e u] acc Hin. cbn [fst snd].
    destruct (in_edges_source_lt g v e u Hwf Hin) as [_ Hu].
    apply in_edges_spec in Hin.
    rewrite Hve, (Hp e u v h Hin Hh) by assumption. reflexivity.
  + apply Forall_forall. intros r Hr. apply in_map_iff in Hr.
    destruct Hr as (h' & <- & _). rewrite length_map, length_seq. reflexivity.
  + exact Hk'.
  + rewrite length_map, length_seq. exact Hh.
Qed.

End TrfFacts.

Section TrfTheorems.
Context {T : Type} `{FloatArith T}.

Import GraphAttnTrfAggregationModule.

Lemma trf_forward_ok (draw : dropout_draw T) (training : bool) (self : t T)
    (g : ops.DGLGraph) (x : mat T) :
trf_sizes_agree self ->
ops.well_formed g ->
length x = ops.num_nodes g ->
Forall (fun r => length r = dim self) x ->
exists agg out,
  aggregate self g x = Ok agg
  /\ out = map (fun r => map (linear_entry (output_linear self) r)
                             (seq 0 (dim self))) agg
  /\ length out = length x
  /\ Forall (fun r => length r = dim self) out
  /\ (forall v h k,
        v < ops.num_nodes g -> h < num_heads self -> k < head_dim self ->
        entry agg v (h * head_dim self + k)
        = fold_left (fun acc e =>
                       fadd acc (fmul (trf_value self x (snd e) h k)
                                      (trf_prob self g x (snd e) v h)))
                    (ops.in_edges g v) f0)
  /\ length agg = length x
  /\ Forall (fun r => length r = dim self) agg
  /\ forward draw training self g x
     = torch.cat_last
         (T2 x) (T2 (nn_Dropout draw "dropout" training (dropout self) out)).
Proof.
intros Hsz Hwf Hx HF.
destruct (trf_aggregate_ok self g x Hsz Hwf Hx HF) as (agg & Ea & Hla & HFa & Hent).
destruct Hsz as (_ & _ & _ & _ & _ & Hoi & Hoo).
exists agg. eexists. split; [exact Ea|]. split; [reflexivity|].
split; [rewrite length_map; congruence|]. split.
{ apply Forall_forall. intros r Hr. apply in_map_iff in Hr.
  destruct Hr as (r0 & <- & _). rewrite length_map, length_seq. reflexivity. }
split; [exact Hent|]. split; [congruence|]. split; [exact HFa|].
unfold forward. rewrite Ea. cbn [bind].
rewrite linear_forward_ok by (rewrite Hoi; exact HFa).
cbn [bind]. rewrite Hoo. reflexivity.
Qed.

(** X8: the transformer attention module returns a 2-dimensional tensor.
    For a module built by the constructor with positive [dim] and
    [num_heads], a well-formed graph and one row of [dim] entries per
    node, in training or in evaluation mode, [forward] returns a matrix
    with one row per node, of [2 * dim] entries, whose first [dim] entries
    are the row of [x]. *)
Theorem trf_forward_shape
    (init : initializer T) (dim' num_heads' : Z) (p : T) (self : t T)
    (draw : dropout_draw T) (training : bool) (g : ops.DGLGraph) (x : mat T) :
__init__ init dim' num_heads' p = Ok self ->
(0 < dim')%Z -> (0 < num_heads')%Z ->
preserves_shape draw ->
ops.well_formed g ->
length x = ops.num_nodes g ->
Forall (fun r => length r = Z.to_nat dim') x ->
exists y,
  forward draw training self g x = Ok (T2 y)
  /\ length y = ops.num_nodes g
  /\ forall v, v < ops.num_nodes g ->
       length (nth v y []) = 2 * Z.to_nat dim'
       /\ firstn (Z.to_nat dim') (nth v y []) = nth v x [].
Proof.
intros Hinit Hd Hn Hdraw Hwf Hx HF.
destruct (trf_init_sizes _ _ _ _ _ Hinit Hd Hn) as (Hsz & Hdim & _).
rewrite <- Hdim in *.
destruct (trf_forward_ok draw training self g x Hsz Hwf Hx HF)
  as (agg & out & _ & _ & Hlo & HFo & _ & _ & _ & Efw).
destruct (dropout_shape draw "dropout" training (dropout self) out _ Hdraw HFo)
  as [Hld HFd].
set (out' := nn_Dropout draw "dropout" training (dropout self) out) in *.
assert (Hxo : length x = length out') by congruence.
exists (torch.cat_rows x out'). split; [|split].
- rewrite Efw. unfold torch.cat_last.
  rewrite (proj2 (Nat.eqb_eq _ _) Hxo). reflexivity.
- rewrite length_cat_rows by exact Hxo. exact Hx.
- intros v Hv. rewrite nth_cat_rows by (try exact Hxo; lia).
  assert (Hrx : length (nth v x []) = dim self)
    by (apply Forall_nth_length; [exact HF|lia]).
  assert (Hro : length (nth v out' []) = dim self)
    by (apply Forall_nth_length; [exact HFd|lia]).
  split; [rewrite length_app; lia|].
  rewrite firstn_app, Hrx, Nat.sub_diag, firstn_O, app_nil_r.
  apply firstn_all2. lia.
Qed.

(** X9: in evaluation mode the appended half is the output layer applied
    to an attention-weighted sum.  Entry [h * head_dim + k] of the
    aggregated row of [v] is the sum, over the incoming edges of [v], of
    component [k] of the value of head [h] at the source times the
    probability of the edge for head [h], the softmax over the incoming
    edges of [v] of the scaled product of the source's key with the
    query of [v].  The heads are contiguous here, and each head's query,
    key and value are consecutive slices of its own block of
    [3 * head_dim] columns of the fused projection. *)
Theorem trf_aggregation_is_attention_weighted_sum
    (init : initializer T) (dim' num_heads' : Z) (p : T) (self : t T)
    (draw : dropout_draw T) (g : ops.DGLGraph) (x : mat T) :
__init__ init dim' num_heads' p = Ok self ->
(0 < dim')%Z -> (0 < num_heads')%Z ->
ops.well_formed g ->
length x = ops.num_nodes g ->
Forall (fun r => length r = Z.to_nat dim') x ->
exists agg,
  aggregate self g x = Ok agg
  /\ forward draw false self g x
     = Ok (T2 (torch.cat_rows x
                 (map (fun r => map (linear_entry (output_linear self) r)
                                    (seq 0 (Z.to_nat dim'))) agg)))
  /\ length agg = ops.num_nodes g
  /\ forall v h k,
       v < ops.num_nodes g -> h < num_heads self -> k < head_dim self ->
       entry agg v (h * head_dim self + k)
       = fold_left (fun acc e =>
                      fadd acc (fmul (trf_value self x (snd e) h k)
                                     (trf_prob self g x (snd e) v h)))
                   (ops.in_edges g v) f0.
Proof.
intros Hinit Hd Hn Hwf Hx HF.
destruct (trf_init_sizes _ _ _ _ _ Hinit Hd Hn) as (Hsz & Hdim & _).
rewrite <- Hdim in *.
destruct (trf_forward_ok draw false self g x Hsz Hwf Hx HF)
  as (agg & out & Ea & Eo & Hlo & _ & Hent & Hla & _ & Efw).
exists agg. split; [exact Ea|]. split; [|split; [congruence|exact Hent]].
rewrite Efw. unfold nn_Dropout. cbn [andb]. subst out. unfold torch.cat_last.
rewrite length_map, (proj2 (Nat.eqb_eq _ _) (eq_sym Hla)). reflexivity.
Qed.

Section Isolated.
Hypothesis fmul_0_l : forall a : T, fmul f0 a = f0.
Hypothesis fadd_0_l : forall a : T, fadd f0 a = a.

Lemma dot_zero_l (r w : list T) :
Forall (fun a => a = f0) r -> nn.Linear.dot r w = f0.
Proof.
unfold nn.Linear.dot. intros Hr.
assert (G : forall l : list (T * T),
          Forall (fun q => fst q = f0) l ->
          fold_left (fun acc q => fadd acc (fmul (fst q) (snd q))) l f0 = f0).
{ induction l as [|q l IH]; intros Hl; [reflexivity|].
  inversion Hl; subst. cbn [fold_left].
  replace (fst q) with (@f0 T _) by (symmetry; assumption).
  rewrite fmul_0_l, fadd_0_l. apply IH. assumption. }
apply G. apply Forall_forall. intros [a b] Hin. cbn [fst].
rewrite Forall_forall in Hr. apply Hr. eapply in_combine_l, Hin.
Qed.

(** X10: a node without incoming edges receives the bias of the output
    layer.  In evaluation mode its output row is its row of [x] followed
    by [output_linear.bias], whatever the features and the other
    parameters are (assuming [0 * a = 0] and [0 + a = a] of the
    arithmetic): the attention sum over no edge is the zero vector. *)
Theorem trf_forward_isolated_node_gets_output_bias
    (init : initializer T) (dim' num_heads' : Z) (p : T) (self : t T)
    (draw : dropout_draw T) (g : ops.DGLGraph) (x : mat T) (v : nat) :
__init__ init dim' num_heads' p = Ok self ->
(0 < dim')%Z -> (0 < num_heads')%Z ->
ops.well_formed g ->
length x = ops.num_nodes g ->
Forall (fun r => length r = Z.to_nat dim') x ->
v < ops.num_nodes g ->
ops.in_edges g v = [] ->
exists y,
  forward draw false self g x = Ok (T2 y)
  /\ nth v y []
     = nth v x []
       ++ map (init "output_linear.bias"%string 0) (seq 0 (Z.to_nat dim')).
Proof.
intros Hinit Hd Hn Hwf Hx HF Hv Hiso.
destruct (trf_init_sizes _ _ _ _ _ Hinit Hd Hn) as (Hsz & Hdim & _ & Hbias & _).
rewrite <- Hdim in *.
destruct (trf_forward_ok draw false self g x Hsz Hwf Hx HF)
  as (agg & out & Ea & Eo & Hlo & _ & Hent & Hla & HFa & Efw).
destruct Hsz as (Hnhd & Hnh & Hhd & _).
assert (Hzero : Forall (fun a => a = f0) (nth v agg [])).
{ assert (Hlr : length (nth v agg []) = dim self)
    by (apply Forall_nth_length; [exact HFa|lia]).
  apply Forall_forall. intros a Ha. destruct (In_nth _ _ f0 Ha) as (j & Hj & <-).
  rewrite Hlr, Hnhd in Hj.
  pose proof (Hent v (j / head_dim self) (j mod head_dim self) Hv) as E.
  rewrite Hiso in E. cbn [fold_left] in E. unfold entry in E.
  replace (j / head_dim self * head_dim self + j mod head_dim self) with j in E.
  - apply E.
    + apply Nat.Div0.div_lt_upper_bound. lia.
    + apply Nat.mod_upper_bound. lia.
  - rewrite (Nat.div_mod_eq j (head_dim self)) at 1. lia. }
unfold nn_Dropout in Efw. cbn [andb] in Efw.
assert (Hxo : length x = length out) by congruence.
exists (torch.cat_rows x out). split.
- rewrite Efw. unfold torch.cat_last.
  rewrite (proj2 (Nat.eqb_eq _ _) Hxo). reflexivity.
- rewrite nth_cat_rows by (try exact Hxo; lia). f_equal.
  subst out. rewrite (nth_map_lt _ agg v [] []) by lia.
  apply map_ext_in. intros o Ho. apply in_seq in Ho.
  unfold linear_entry. rewrite Hbias.
  rewrite (nth_indep _ f0 (init "output_linear.bias"%string 0 0))
    by (rewrite length_map, length_seq; lia).
  rewrite (map_nth (init "output_linear.bias"%string 0)), seq_nth by lia.
  rewrite dot_zero_l by exact Hzero. apply fadd_0_l.
Qed.

End Isolated.
End TrfTheorems.

(** ** FeaturesPreparatorForDeepModels, continued *)

Lemma mask_select_keep {A} (n : nat) (mask : list bool) (pre l : list A) :
length pre = n ->
mask_select (repeat true n ++ mask) (pre ++ l) = pre ++ mask_select mask l.
Proof.
intros <-. induction pre as [|a pre IH]; [reflexivity|].
cbn [length repeat app]. rewrite mask_select_cons, IH. reflexivity.
Qed.

Lemma mask_select_plain {A} (num past : list bool) (l : list A) :
length num = length past -> length num = length l ->
mask_select (map negb (mask_select (map negb num) past))
            (mask_select (map negb num) l)
= mask_select (plain_mask num past) l.
Proof.
revert past l. induction num as [|b num IH]; intros [|c past] [|a l] E1 E2;
  try discriminate; [reflexivity|].
simpl in E1, E2. unfold plain_mask. cbn [map combine fst snd].
fold (plain_mask num past).
rewrite !mask_select_cons. destruct b; cbn [negb andb].
- apply IH; lia.
- cbn [map]. rewrite mask_select_cons. destruct c; cbn [negb];
    [|f_equal]; apply IH; lia.
Qed.

Lemma nth_concat_repeat {A} (w : list A) (b i : nat) (d : A) :
i < b * length w ->
nth i (concat (repeat w b)) d = nth (i mod length w) w d.
Proof.
revert i. induction b as [|b IH]; intros i Hi; [simpl in Hi; lia|].
cbn [repeat concat].
destruct (Nat.lt_ge_cases i (length w)) as [Hlt|Hge].
- rewrite app_nth1 by exact Hlt. rewrite Nat.mod_small by exact Hlt. reflexivity.
- rewrite app_nth2 by exact Hge. rewrite IH by (simpl in Hi; lia).
  f_equal.
  replace i with ((i - length w) + 1 * length w) at 2 by lia.
  rewrite Nat.Div0.mod_add. reflexivity.
Qed.

Section PreparatorLayout.
Context {T : Type}.

Import FeaturesPreparatorForDeepModels.

Lemma embed_columns_ok (mask : list bool) (plr : PLREmbeddings.t T) (r : list T) :
length r = length mask ->
embed_columns (Some mask) (Some plr) r
= Ok (concat (PLREmbeddings.forward plr (mask_select mask r))
      ++ mask_select (map negb mask) r).
Proof.
intros E. unfold embed_columns, index_by_mask.
rewrite length_map, E, Nat.eqb_refl. reflexivity.
Qed.

Lemma shifted_mask_inv (num past : list bool) (e : nat) (m : list bool) :
shifted_past_targets_mask num past e = Ok m ->
length num = length past
/\ m = repeat false (mask_sum num * e) ++ mask_select (map negb num) past.
Proof.
unfold shifted_past_targets_mask, index_by_mask. rewrite length_map.
destruct (Nat.eqb_spec (length num) (length past)) as [E|]; [|discriminate].
cbn [bind]. intros E'; inversion E'. auto.
Qed.

Lemma both_embeddings_row (num past : list bool) (plr_num plr_past : PLREmbeddings.t T)
    (r : list T) :
length num = length past ->
length r = length num ->
disjoint_masks num past = true ->
(r1 <- embed_columns (Some num) (Some plr_num) r ;;
 embed_columns
   (Some (repeat false (mask_sum num * PLREmbeddings.embedding_dim plr_num)
          ++ mask_select (map negb num) past))
   (Some plr_past) r1)
= Ok (concat (PLREmbeddings.forward plr_past (mask_select past r))
      ++ concat (PLREmbeddings.forward plr_num (mask_select num r))
      ++ mask_select (plain_mask num past) r).
Proof.
intros Hnp Hr Hdis.
rewrite embed_columns_ok by exact Hr. cbn [bind].
set (en := PLREmbeddings.embedding_dim plr_num).
set (emb := concat (PLREmbeddings.forward plr_num (mask_select num r))).
assert (Hemb : length emb = mask_sum num * en).
{ unfold emb. rewrite length_plr_forward, length_mask_select by congruence.
  reflexivity. }
rewrite embed_columns_ok.
- rewrite mask_select_shift by exact Hemb.
  rewrite mask_select_outside by congruence.
  rewrite map_app, map_repeat. cbn [negb].
  rewrite mask_select_keep by exact Hemb.
  rewrite mask_select_plain by congruence. reflexivity.
- rewrite !length_app, repeat_length, Hemb.
  rewrite !length_mask_select by (rewrite length_map; congruence).
  reflexivity.
Qed.

(** X11: the layout of a row that [forward] returns when both embeddings
    and the node embeddings are in use and no feature is both numeric and
    a past target: the embedded past targets, then the embedded numeric
    features, then the columns that are neither, in their order in the
    input, then the embedding of the node, which for row [i] of a batch
    is node [i mod num_nodes]. *)
Theorem preparator_forward_row_layout (a : Args.t T) (self : t T) (x : mat T) :
__init__ a = Ok self ->
Args.use_plr_for_num_features a = true ->
Args.use_plr_for_past_targets a = true ->
Args.use_learnable_node_embeddings a = true ->
disjoint_masks (Args.num_features_mask a) (Args.past_targets_mask a) = true ->
Forall (fun r => length r = length (Args.num_features_mask a)) x ->
Args.num_nodes a <> 0 ->
length x mod Args.num_nodes a = 0 ->
exists plr_num plr_past e y,
  plr_embeddings_num_features self = Some plr_num
  /\ plr_embeddings_past_targets self = Some plr_past
  /\ node_embeddings self = Some e
  /\ forward self (T2 x) = Ok (T2 y)
  /\ length y = length x
  /\ forall i, i < length x ->
       nth i y []
       = concat (PLREmbeddings.forward plr_past
                   (mask_select (Args.past_targets_mask a) (nth i x [])))
         ++ concat (PLREmbeddings.forward plr_num
                      (mask_select (Args.num_features_mask a) (nth i x [])))
         ++ mask_select (plain_mask (Args.num_features_mask a)
                                    (Args.past_targets_mask a)) (nth i x [])
         ++ nth (i mod Args.num_nodes a) (rows_of (nn.Embedding.weight e)) [].
Proof.
intros Hinit Hun Hup Hul Hdis HF HN Hmod.
destruct (init_inv a self Hinit) as (Fl & Fn & Fp & _ & Hemb & Hnum & Hpast).
destruct (Hemb Hul) as (e & He & Hs0 & _).
destruct (Hnum Hun) as (Hmask & plr_num & Hpn & Hen).
destruct (Hpast Hup) as (plr_past & m & Hpp & _ & Hm & Hshift).
rewrite Hun in Hshift.
destruct (shifted_mask_inv _ _ _ _ Hshift) as [Hnp Em].
exists plr_num, plr_past, e.
set (row := fun r : list T =>
              concat (PLREmbeddings.forward plr_past
                        (mask_select (Args.past_targets_mask a) r))
              ++ concat (PLREmbeddings.forward plr_num
                           (mask_select (Args.num_features_mask a) r))
              ++ mask_select (plain_mask (Args.num_features_mask a)
                                         (Args.past_targets_mask a)) r).
set (w := rows_of (nn.Embedding.weight e)).
set (embs := concat (repeat w (length x / Args.num_nodes a))).
assert (Hw : length w = Args.num_nodes a)
  by (unfold w; rewrite (proj1 (rows_of_shape _)); exact Hs0).
assert (Hle : length embs = length x).
{ unfold embs.
  assert (G : forall b, length (concat (repeat w b)) = b * length w).
  { induction b as [|b IH]; [reflexivity|].
    cbn [repeat concat]. rewrite length_app, IH. reflexivity. }
  rewrite G, Hw, Nat.mul_comm. symmetry. apply Nat.Div0.div_exact. exact Hmod. }
exists (torch.cat_rows (map row x) embs).
split; [exact Hpn|]. split; [exact Hpp|]. split; [exact He|].
assert (Hlm : length (map row x) = length embs)
  by (rewrite length_map; congruence).
split; [|split].
- unfold forward. rewrite Fn, Fp, Fl, Hun, Hup, Hul, Hmask, Hpn, Hm, Hpp, He.
  cbn [on_last_axis].
  destruct (map_result (embed_columns (Some (Args.num_features_mask a)) (Some plr_num)) x)
    as [x1|err] eqn:E1.
  + cbn [bind on_last_axis].
    assert (E2 : map_result (embed_columns (Some m) (Some plr_past)) x1
                 = Ok (map row x)).
    { clear Hle Hlm Hmod embs. revert x1 E1.
      induction HF as [|r x Hr HF IH]; intros x1 E1.
      - simpl in E1. inversion E1. reflexivity.
      - cbn [map_result] in E1.
        pose proof (both_embeddings_row _ _ plr_num plr_past r Hnp Hr Hdis) as Hrow.
        destruct (embed_columns (Some (Args.num_features_mask a)) (Some plr_num) r)
          as [r1|] eqn:Er; [|discriminate].
        cbn [bind] in E1, Hrow.
        destruct (map_result _ x) as [x1'|] eqn:Ex; [|discriminate].
        cbn [bind] in E1. inversion E1; subst x1.
        cbn [map_result map]. rewrite Hen, <- Em in Hrow. rewrite Hrow.
        cbn [bind]. rewrite (IH x1' eq_refl). reflexivity. }
    rewrite E2. cbn [bind].
    unfold append_node_embeddings. rewrite Hs0.
    rewrite (proj2 (Nat.eqb_neq _ _) HN). cbn [shape_0].
    rewrite length_map. fold w. fold embs. unfold torch.cat_last.
    rewrite Hlm, Nat.eqb_refl. reflexivity.
  + exfalso. clear Hle Hlm Hmod embs. revert err E1.
    induction HF as [|r x Hr HF IH]; intros err E1; [discriminate|].
    cbn [map_result] in E1. rewrite embed_columns_ok in E1 by exact Hr.
    cbn [bind] in E1.
    destruct (map_result _ x) as [x1'|err'] eqn:Ex; [discriminate|].
    eapply IH. reflexivity.
- rewrite length_cat_rows by exact Hlm. apply length_map.
- intros i Hi. rewrite nth_cat_rows by (try exact Hlm; rewrite length_map; exact Hi).
  rewrite (nth_map_lt row x i [] []) by exact Hi.
  unfold row at 1. rewrite <- !app_assoc. do 3 f_equal.
  unfold embs. rewrite <- Hw. apply nth_concat_repeat.
  rewrite Hw, Nat.mul_comm.
  rewrite <- (proj2 (Nat.Div0.div_exact _ _) Hmod). exact Hi.
Qed.

End PreparatorLayout.

Section PreparatorNodeEmbeddings.
Context {T : Type}.

Import FeaturesPreparatorForDeepModels.

Lemma length_concat_repeat (w : mat T) (b : nat) :
length (concat (repeat w b)) = b * length w.
Proof.
induction b as [|b IH]; [reflexivity|].
cbn [repeat concat]. rewrite length_app, IH. reflexivity.
Qed.

Lemma node_embs_rows (e : nn.Embedding.t T) (n : nat) :
torch.shape0 (nn.Embedding.weight e) <> 0 ->
n mod torch.shape0 (nn.Embedding.weight e) = 0 ->
let embs := concat (repeat (rows_of (nn.Embedding.weight e))
                           (n / torch.shape0 (nn.Embedding.weight e))) in
length embs = n
/\ forall i, i < n ->
     nth i embs []
     = nth (i mod torch.shape0 (nn.Embedding.weight e))
           (rows_of (nn.Embedding.weight e)) [].
Proof.
intros HN Hmod embs. unfold embs.
set (w := rows_of (nn.Embedding.weight e)).
assert (Hw : length w = torch.shape0 (nn.Embedding.weight e))
  by (unfold w; apply rows_of_shape).
assert (Hn : n / torch.shape0 (nn.Embedding.weight e) * length w = n).
{ rewrite Hw, Nat.mul_comm. symmetry. apply Nat.Div0.div_exact. exact Hmod. }
split.
- pose proof (length_concat_repeat w (n / torch.shape0 (nn.Embedding.weight e)))
    as Hl.
  rewrite Hn in Hl. exact Hl.
- intros i Hi. rewrite <- Hw. apply nth_concat_repeat.
  rewrite <- Hw in Hn. rewrite Hn. exact Hi.
Qed.

Lemma nth_repeat_lt {A} (r d : A) (s j : nat) : j < s -> nth j (repeat r s) d = r.
Proof.
intros Hj. apply (repeat_spec s r). apply nth_In. rewrite repeat_length. exact Hj.
Qed.

(** X12: with the node embeddings alone in use, row [i] of a batch
    receives the embedding of node [i mod num_nodes]: a batch is read as
    whole graphs laid end to end.  On a 3-dimensional input (one sequence
    of vectors per sample) the same embedding is appended at every
    position of the sequence. *)
Theorem preparator_node_embeddings_by_graph (a : Args.t T) (self : t T) :
__init__ a = Ok self ->
Args.use_plr_for_num_features a = false ->
Args.use_plr_for_past_targets a = false ->
Args.use_learnable_node_embeddings a = true ->
Args.num_nodes a <> 0 ->
exists e,
  node_embeddings self = Some e
  /\ torch.shape0 (nn.Embedding.weight e) = Args.num_nodes a
  /\ (forall x : mat T,
        length x mod Args.num_nodes a = 0 ->
        exists y,
          forward self (T2 x) = Ok (T2 y)
          /\ length y = length x
          /\ forall i, i < length x ->
               nth i y []
               = nth i x []
                 ++ nth (i mod Args.num_nodes a)
                        (rows_of (nn.Embedding.weight e)) [])
  /\ (forall (c : list (mat T)) (s : nat),
        length c mod Args.num_nodes a = 0 ->
        Forall (fun m => length m = s) c ->
        exists y,
          forward self (T3 c) = Ok (T3 y)
          /\ length y = length c
          /\ forall i j, i < length c -> j < s ->
               nth j (nth i y []) []
               = nth j (nth i c []) []
                 ++ nth (i mod Args.num_nodes a)
                        (rows_of (nn.Embedding.weight e)) []).
Proof.
intros Hinit Hun Hup Hul HN.
destruct (init_inv a self Hinit) as (Fl & Fn & Fp & _ & Hemb & _).
destruct (Hemb Hul) as (e & He & Hs0 & _).
exists e. split; [exact He|]. split; [exact Hs0|].
rewrite <- Hs0 in HN. rewrite <- Hs0.
set (w := nn.Embedding.weight e) in *.
split.
- intros x Hmod.
  destruct (node_embs_rows e (length x) HN Hmod) as [Hle Hrows].
  fold w in Hle, Hrows.
  set (embs := concat (repeat (rows_of w) (length x / torch.shape0 w))) in *.
  exists (torch.cat_rows x embs). split; [|split].
  + unfold forward. rewrite Fn, Fp, Fl, Hun, Hup, Hul, He. cbn [bind].
    unfold append_node_embeddings. fold w.
    rewrite (proj2 (Nat.eqb_neq _ _) HN). cbn [shape_0]. fold embs.
    unfold torch.cat_last. rewrite Hle, Nat.eqb_refl. reflexivity.
  + apply length_cat_rows. congruence.
  + intros i Hi. rewrite nth_cat_rows by (try exact Hi; congruence).
    rewrite Hrows by exact Hi. reflexivity.
- intros c s Hmod Hc.
  destruct (node_embs_rows e (length c) HN Hmod) as [Hle Hrows].
  fold w in Hle, Hrows.
  set (embs := concat (repeat (rows_of w) (length c / torch.shape0 w))) in *.
  set (seq_len := match c with [] => 0 | m :: _ => length m end).
  assert (Hseq : c <> [] -> seq_len = s).
  { intros Hne. destruct c as [|m c']; [congruence|].
    inversion Hc; subst. reflexivity. }
  set (embs3 := map (fun r => repeat r seq_len) embs).
  assert (Hl3 : @length (mat T) c = @length (mat T) embs3)
    by (unfold embs3; rewrite length_map; congruence).
  exists (map (fun p => torch.cat_rows (fst p) (snd p)) (combine c embs3)).
  assert (Hpair : forall i, i < length c ->
            nth i (combine c embs3) ([], [])
            = (nth i c [], repeat (nth i embs []) s)).
  { intros i Hi. rewrite combine_nth by exact Hl3. f_equal.
    unfold embs3. rewrite (nth_map_lt _ embs i [] []) by congruence.
    rewrite Hseq; [reflexivity|]. intros ->. simpl in Hi. lia. }
  split; [|split].
  + unfold forward. rewrite Fn, Fp, Fl, Hun, Hup, Hul, He. cbn [bind].
    unfold append_node_embeddings. fold w.
    rewrite (proj2 (Nat.eqb_neq _ _) HN). cbn [shape_0].
    change (torch.cat_last (T3 c) (T3 embs3)
            = Ok (T3 (map (fun p => torch.cat_rows (fst p) (snd p))
                          (combine c embs3)))).
    unfold torch.cat_last.
    rewrite <- Hl3, Nat.eqb_refl. cbn [andb].
    replace (forallb _ (combine c embs3)) with true; [reflexivity|].
    symmetry. apply forallb_forall. intros [m m'] Hin. cbn [fst snd].
    apply Nat.eqb_eq.
    pose proof (in_combine_l _ _ _ _ Hin) as Hm.
    pose proof (in_combine_r _ _ _ _ Hin) as Hm'.
    unfold embs3 in Hm'. apply in_map_iff in Hm'. destruct Hm' as (r & <- & _).
    rewrite repeat_length, Hseq by (intros ->; exact Hm).
    rewrite Forall_forall in Hc. apply Hc, Hm.
  + rewrite length_map, length_combine. apply Nat.min_l, Nat.eq_le_incl.
    exact Hl3.
  + intros i j Hi Hj. unfold mat.
    rewrite (nth_map_lt _ (combine c embs3) i ([], []) [])
      by (rewrite length_combine; apply Nat.min_glb_lt;
          [exact Hi|apply (Nat.lt_le_trans _ _ _ Hi), Nat.eq_le_incl; exact Hl3]).
    rewrite (Hpair i Hi). cbn [fst snd].
    assert (Hlm : length (nth i c []) = s).
    { rewrite Forall_forall in Hc. apply Hc, nth_In, Hi. }
    rewrite nth_cat_rows by (rewrite ?repeat_length; lia).
    rewrite nth_repeat_lt by exact Hj. rewrite Hrows by exact Hi. reflexivity.
Qed.

Lemma map_result_inv {A B} (f : A -> result B) (l : list A) (bs : list B) :
map_result f l = Ok bs ->
length bs = length l /\ Forall (fun a => exists b, f a = Ok b) l.
Proof.
revert bs. induction l as [|a l IH]; intros bs E.
- simpl in E. inversion E. auto.
- cbn [map_result] in E.
  destruct (f a) as [b|] eqn:Ea; [|discriminate]. cbn [bind] in E.
  destruct (map_result f l) as [bs'|] eqn:El; [|discriminate].
  cbn [bind] in E. inversion E; subst bs.
  destruct (IH bs' eq_refl) as [Hl HF].
  split; [simpl; lia|]. constructor; [exists b; exact Ea|exact HF].
Qed.

Lemma on_last_axis_inv (f : list T -> result (list T)) (x y : tensor T) (d : nat) :
(forall r r', f r = Ok r' -> length r = d) ->
on_last_axis f x = Ok y ->
last_dim_is x d /\ shape_0 y = shape_0 x.
Proof.
intros Hf E. destruct x as [m|c]; cbn [on_last_axis] in E.
- destruct (map_result f m) as [m'|] eqn:Em; [|discriminate].
  cbn [bind] in E. inversion E; subst y.
  destruct (map_result_inv _ _ _ Em) as [Hl HF].
  split; [|exact Hl]. simpl. eapply Forall_impl; [|exact HF].
  intros r [r' Hr]. eapply Hf, Hr.
- destruct (map_result (map_result f) c) as [c'|] eqn:Ec; [|discriminate].
  cbn [bind] in E. inversion E; subst y.
  destruct (map_result_inv _ _ _ Ec) as [Hl HF].
  split; [|exact Hl]. simpl. eapply Forall_impl; [|exact HF].
  intros m [m' Hm]. destruct (map_result_inv _ _ _ Hm) as [_ HFm].
  eapply Forall_impl; [|exact HFm].
  intros r [r' Hr]. eapply Hf, Hr.
Qed.

Lemma embed_columns_inv (mask : option (list bool)) (plr : option (PLREmbeddings.t T))
    (r r' : list T) :
embed_columns mask plr r = Ok r' ->
exists m, mask = Some m /\ length r = length m.
Proof.
unfold embed_columns, index_by_mask.
destruct mask as [m|]; [|discriminate]. destruct plr as [p|]; [|discriminate].
destruct (Nat.eqb_spec (length m) (length r)) as [E|]; [|discriminate].
intros _. exists m. auto.
Qed.

Lemma append_node_embeddings_inv (e : nn.Embedding.t T) (x y : tensor T) :
append_node_embeddings e x = Ok y ->
torch.shape0 (nn.Embedding.weight e) <> 0
/\ shape_0 x mod torch.shape0 (nn.Embedding.weight e) = 0
/\ shape_0 y = shape_0 x.
Proof.
unfold append_node_embeddings.
set (w := nn.Embedding.weight e).
destruct (Nat.eqb_spec (torch.shape0 w) 0) as [|HN]; [discriminate|].
pose proof (length_concat_repeat (rows_of w) (shape_0 x / torch.shape0 w)) as Hl.
rewrite (proj1 (rows_of_shape w)) in Hl.
set (embs := concat (repeat (rows_of w) (shape_0 x / torch.shape0 w))) in *.
intros E. split; [exact HN|].
assert (G : shape_0 x = length embs -> shape_0 x mod torch.shape0 w = 0).
{ intros Hx. rewrite Hl in Hx. apply Nat.Div0.div_exact. lia. }
destruct x as [m|c]; unfold torch.cat_last in E.
- destruct (Nat.eqb_spec (length m) (length embs)) as [El|]; [|discriminate].
  inversion E; subst y. split; [apply G, El|].
  cbn [shape_0]. apply length_cat_rows, El.
- rewrite length_map in E.
  destruct (Nat.eqb_spec (length c) (length embs)) as [El|]; [|discriminate].
  cbn [andb] in E. destruct (forallb _ _); [|discriminate].
  inversion E; subst y. split; [apply G, El|].
  cbn [shape_0]. rewrite length_map, length_combine, length_map, <- El.
  apply Nat.min_id.
Qed.

(** X13: what [forward] needs in order to return.  If it returns [y] on
    [x], then every vector along the last axis of [x] is as long as the
    mask of the first embedding in use; when node embeddings are
    appended, [num_nodes] is not 0 and the first dimension of [x] is a
    multiple of it (the batch is made of whole graphs); and [y] has the
    first dimension of [x]. *)
Theorem preparator_forward_preconditions (a : Args.t T) (self : t T)
    (x y : tensor T) :
__init__ a = Ok self ->
forward self x = Ok y ->
shape_0 y = shape_0 x
/\ (Args.use_plr_for_num_features a = true ->
    last_dim_is x (length (Args.num_features_mask a)))
/\ (Args.use_plr_for_num_features a = false ->
    Args.use_plr_for_past_targets a = true ->
    last_dim_is x (length (Args.past_targets_mask a)))
/\ (Args.use_learnable_node_embeddings a = true ->
    Args.num_nodes a <> 0 /\ shape_0 x mod Args.num_nodes a = 0).
Proof.
intros Hinit Hfw.
destruct (init_inv a self Hinit) as (Fl & Fn & Fp & _ & Hemb & Hnum & Hpast).
unfold forward in Hfw. rewrite Fl, Fn, Fp in Hfw.
assert (Hcols : forall (mask : option (list bool))
                        (plr : option (PLREmbeddings.t T)) (m : list bool),
          mask = Some m ->
          forall r r' : list T,
            embed_columns mask plr r = Ok r' -> length r = length m).
{ intros mask plr m -> r r' Er.
  destruct (embed_columns_inv _ _ _ _ Er) as (m' & Em & Hr).
  inversion Em; subst m'. exact Hr. }
assert (S1 : exists x1,
          (if Args.use_plr_for_num_features a
           then on_last_axis (embed_columns (num_features_mask self)
                                            (plr_embeddings_num_features self)) x
           else Ok x) = Ok x1
          /\ shape_0 x1 = shape_0 x
          /\ (Args.use_plr_for_num_features a = true ->
              last_dim_is x (length (Args.num_features_mask a)))
          /\ (Args.use_plr_for_num_features a = false -> x1 = x)).
{ destruct (Args.use_plr_for_num_features a) eqn:Eun.
  - destruct (on_last_axis _ x) as [x1|] eqn:E1; [|discriminate].
    destruct (Hnum eq_refl) as (Hmask & _).
    destruct (on_last_axis_inv _ _ _ _ (Hcols _ _ _ Hmask) E1) as [H1 H2].
    exists x1. repeat split; auto. discriminate.
  - exists x. repeat split; auto. discriminate. }
destruct S1 as (x1 & E1 & Hs1 & Hd1 & Hx1). rewrite E1 in Hfw. cbn [bind] in Hfw.
assert (S2 : exists x2,
          (if Args.use_plr_for_past_targets a
           then on_last_axis (embed_columns (past_targets_mask self)
                                            (plr_embeddings_past_targets self)) x1
           else Ok x1) = Ok x2
          /\ shape_0 x2 = shape_0 x1
          /\ (Args.use_plr_for_num_features a = false ->
              Args.use_plr_for_past_targets a = true ->
              last_dim_is x (length (Args.past_targets_mask a)))).
{ destruct (Args.use_plr_for_past_targets a) eqn:Eup.
  - destruct (on_last_axis _ x1) as [x2|] eqn:E2; [|discriminate].
    destruct (Hpast eq_refl) as (plr & m & _ & _ & Hm & Hshift).
    destruct (on_last_axis_inv _ _ _ _ (Hcols _ _ _ Hm) E2) as [H1 H2].
    exists x2. repeat split; auto.
    intros Hun _. rewrite Hun in Hshift. subst m. rewrite <- (Hx1 Hun). exact H1.
  - exists x1. repeat split; auto. discriminate. }
destruct S2 as (x2 & E2 & Hs2 & Hd2). rewrite E2 in Hfw. cbn [bind] in Hfw.
destruct (Args.use_learnable_node_embeddings a) eqn:Eul.
- destruct (Hemb eq_refl) as (e & He & Hs0 & _). rewrite He in Hfw.
  destruct (append_node_embeddings_inv _ _ _ Hfw) as (HN & Hmod & Hsy).
  rewrite Hs0 in HN, Hmod. rewrite Hs2, Hs1 in Hmod, Hsy.
  repeat split; auto.
- inversion Hfw; subst y. split; [congruence|]. repeat split; auto; discriminate.
Qed.

End PreparatorNodeEmbeddings.

Section PreparatorConstructor.
Context {T : Type}.

Import FeaturesPreparatorForDeepModels.

Lemma embedding_init_given (init : initializer T) (name : string) (n d : nat)
    (dw : torch.Matrix T) :
nn.Embedding.__init__ init name (Z.of_nat n) (Z.of_nat d) (Some dw)
= if (torch.shape0 dw =? n) && (torch.shape1 dw =? d)
  then Ok {| nn.Embedding.num_embeddings := Z.to_nat (Z.of_nat n);
             nn.Embedding.embedding_dim := Z.to_nat (Z.of_nat d);
             nn.Embedding.weight := dw |}
  else Raise AssertionError.
Proof.
unfold nn.Embedding.__init__.
replace (Z.of_nat (torch.shape0 dw) =? Z.of_nat n)%Z with (torch.shape0 dw =? n).
- replace (Z.of_nat (torch.shape1 dw) =? Z.of_nat d)%Z with (torch.shape1 dw =? d);
    [reflexivity|].
  destruct (Nat.eqb_spec (torch.shape1 dw) d) as [->|Hne];
    [symmetry; apply Z.eqb_refl|].
  symmetry. apply Z.eqb_neq. lia.
- destruct (Nat.eqb_spec (torch.shape0 dw) n) as [->|Hne];
    [symmetry; apply Z.eqb_refl|].
  symmetry. apply Z.eqb_neq. lia.
Qed.

Lemma embedding_init_fresh (init : initializer T) (name : string) (n d : nat) :
exists e, nn.Embedding.__init__ init name (Z.of_nat n) (Z.of_nat d) None = Ok e.
Proof.
unfold nn.Embedding.__init__.
replace ((Z.of_nat n <? 0)%Z || (Z.of_nat d <? 0)%Z) with false.
- eexists. reflexivity.
- symmetry. apply orb_false_iff. split; apply Z.ltb_ge; lia.
Qed.

(** X14: the outcomes of the constructor.  It succeeds exactly when the
    DeepWalk matrix, if it is to initialise the node embeddings, is given
    with [num_nodes] rows and [learnable_node_embeddings_dim] columns,
    and the two masks, if both embeddings are in use, have the same
    length.  A missing matrix is an AttributeError, a wrong number of
    columns the ValueError of line 203, a wrong number of rows the
    AssertionError of [nn.Embedding], and masks of different lengths an
    IndexError, raised only once the node embeddings are built.  Nothing
    else is checked: not the lengths of the masks against [features_dim],
    not that the masks are disjoint. *)
Theorem preparator_constructor_outcomes (a : Args.t T) :
let with_deepwalk :=
  Args.use_learnable_node_embeddings a = true
  /\ Args.initialize_learnable_node_embeddings_with_deepwalk a = true in
let both_embeddings :=
  Args.use_plr_for_num_features a = true
  /\ Args.use_plr_for_past_targets a = true in
let deepwalk_fits :=
  with_deepwalk ->
  exists dw, Args.deepwalk_node_embeddings a = Some dw
    /\ Args.learnable_node_embeddings_dim a = torch.shape1 dw
    /\ Args.num_nodes a = torch.shape0 dw in
((exists self, __init__ a = Ok self)
 <-> deepwalk_fits
     /\ (both_embeddings ->
         length (Args.num_features_mask a) = length (Args.past_targets_mask a)))
/\ (__init__ a = Raise AttributeError
    <-> with_deepwalk /\ Args.deepwalk_node_embeddings a = None)
/\ (__init__ a = Raise deepwalk_mismatch
    <-> with_deepwalk
        /\ exists dw, Args.deepwalk_node_embeddings a = Some dw
             /\ Args.learnable_node_embeddings_dim a <> torch.shape1 dw)
/\ (__init__ a = Raise AssertionError
    <-> with_deepwalk
        /\ exists dw, Args.deepwalk_node_embeddings a = Some dw
             /\ Args.learnable_node_embeddings_dim a = torch.shape1 dw
             /\ Args.num_nodes a <> torch.shape0 dw)
/\ (__init__ a = Raise IndexError
    <-> deepwalk_fits /\ both_embeddings
        /\ length (Args.num_features_mask a)
           <> length (Args.past_targets_mask a)).
Proof.
cbv zeta. unfold __init__, shifted_past_targets_mask, index_by_mask.
rewrite length_map.
destruct (Args.use_plr_for_num_features a) eqn:En;
  destruct (Args.use_plr_for_past_targets a) eqn:Ep;
  destruct (Nat.eqb_spec (length (Args.num_features_mask a))
                         (length (Args.past_targets_mask a))) as [Em|Em];
  (destruct (Args.use_learnable_node_embeddings a) eqn:El;
   [destruct (Args.initialize_learnable_node_embeddings_with_deepwalk a) eqn:Ed;
    [destruct (Args.deepwalk_node_embeddings a) as [dw|] eqn:Edw;
     [destruct (Nat.eqb_spec (Args.learnable_node_embeddings_dim a)
                             (torch.shape1 dw)) as [EL|EL]; cbn [negb];
      [rewrite embedding_init_given;
       destruct (Nat.eqb_spec (torch.shape0 dw) (Args.num_nodes a)) as [EN|EN];
       rewrite <- EL, Nat.eqb_refl; cbn [andb bind]
      |]
     |]
    |destruct (embedding_init_fresh (Args.init a) "node_embeddings"
                 (Args.num_nodes a) (Args.learnable_node_embeddings_dim a))
       as [e ->]]
   |]);
  cbn [bind]; outcome_leaf.
Qed.

End PreparatorConstructor.

(** ** GraphMaxAggregationModule, continued *)

Section MaxMore.
Context {T : Type} `{FloatSpecial T}.

Hypothesis below_finite : forall a : T, is_finite a -> flt neg_inf a = true.
Hypothesis ge_trans :
  forall a b c : T, is_finite a -> is_finite b -> is_finite c ->
    flt a b = false -> flt b c = false -> flt a c = false.
Hypothesis lt_asym : forall a b : T, flt a b = true -> flt b a = false.

Lemma max_fold_finite (vals : list T) :
Forall is_finite vals ->
forall acc, is_finite acc ->
  let m := fold_left (fun acc val => if flt acc val then val else acc) vals acc in
  is_finite m
  /\ (m = acc \/ In m vals)
  /\ flt m acc = false
  /\ forall val, In val vals -> flt m val = false.
Proof.
induction 1 as [|val vals Hval Hvals IH]; intros acc Hacc; cbn [fold_left].
- split; [exact Hacc|]. split; [left; reflexivity|]. split.
  + destruct (flt acc acc) eqn:E; [|reflexivity]. rewrite (lt_asym _ _ E) in E.
    discriminate.
  + intros val [].
- destruct (flt acc val) eqn:E.
  + destruct (IH val Hval) as (Hm & Hin & Hge & Hall).
    split; [exact Hm|]. split; [|split].
    * right. destruct Hin as [->|Hin]; [left; reflexivity|right; exact Hin].
    * apply (ge_trans _ val _ Hm Hval Hacc Hge). apply lt_asym, E.
    * intros val' [<-|Hin']; [exact Hge|apply Hall, Hin'].
  + destruct (IH acc Hacc) as (Hm & Hin & Hge & Hall).
    split; [exact Hm|]. split; [|split].
    * destruct Hin as [->|Hin]; [left; reflexivity|right; right; exact Hin].
    * exact Hge.
    * intros val' [<-|Hin']; [|apply Hall, Hin'].
      apply (ge_trans _ acc _ Hm Hacc Hval Hge E).
Qed.

Lemma max_fold_from_neg_inf (vals : list T) :
vals <> [] ->
Forall is_finite vals ->
let m := fold_left (fun acc val => if flt acc val then val else acc) vals neg_inf in
is_finite m /\ In m vals /\ forall val, In val vals -> flt m val = false.
Proof.
intros Hne HF. destruct vals as [|val vals]; [congruence|].
inversion HF as [|? ? Hval Hvals]; subst. cbn [fold_left].
rewrite (below_finite val Hval).
destruct (max_fold_finite vals Hvals val Hval) as (Hm & Hin & Hge & Hall).
split; [exact Hm|]. split.
- destruct Hin as [->|Hin]; [left; reflexivity|right; exact Hin].
- intros val' [<-|Hin']; [exact Hge|apply Hall, Hin'].
Qed.

(** X15: at a node with incoming edges whose in-neighbours hold finite
    features, entry [j] of the aggregated half is the largest of the
    entries [j] of the in-neighbours: it is the entry of one of them, and
    none of them has a greater one.  The replacement of infinite entries
    leaves it as it is.  (The order is assumed to behave on finite
    values: minus infinity is below them, [>=] is transitive and [<] is
    asymmetric.) *)
Theorem max_forward_is_neighbour_maximum
    (g : ops.DGLGraph) (x : mat T) (d v : nat) :
length x = ops.num_nodes g ->
Forall (fun r => length r = d) x ->
v < ops.num_nodes g ->
in_neighbors g v <> [] ->
(forall u j, In u (in_neighbors g v) -> j < d -> is_finite (entry x u j)) ->
exists y,
  GraphMaxAggregationModule.forward g x = Ok (T2 y)
  /\ firstn d (nth v y []) = nth v x []
  /\ forall j, j < d ->
       (exists u, In u (in_neighbors g v)
                  /\ nth (d + j) (nth v y []) f0 = entry x u j)
       /\ forall u, In u (in_neighbors g v) ->
            flt (nth (d + j) (nth v y []) f0) (entry x u j) = false.
Proof.
intros Hx HF Hv Hne Hfin.
destruct (max_forward_rows g x d Hx HF) as (r & y & _ & Hy & Hrows).
destruct (Hrows v Hv) as (Hlx & Hlr & Hrv & Hyv).
exists y. split; [exact Hy|]. split.
{ rewrite Hyv, firstn_app, <- Hlx, firstn_all, Nat.sub_diag. simpl.
  apply app_nil_r. }
intros j Hj.
set (vals := map (fun u => entry x u j) (in_neighbors g v)).
assert (Hvals : Forall is_finite vals).
{ apply Forall_forall. intros a Ha. unfold vals in Ha. apply in_map_iff in Ha.
  destruct Ha as (u & <- & Hu). apply Hfin; assumption. }
assert (Hvne : vals <> []).
{ unfold vals. intros E. apply map_eq_nil in E. contradiction. }
destruct (max_fold_from_neg_inf vals Hvne Hvals) as (Hm & Hin & Hall).
assert (E : nth (d + j) (nth v y []) f0
            = fold_left (fun acc val => if flt acc val then val else acc)
                        vals neg_inf).
{ rewrite Hyv, app_nth2 by lia.
  replace (d + j - length (nth v x [])) with j by lia.
  rewrite (nth_indep _ f0 ((fun a => if isinf a then f0 else a) f0))
    by (rewrite length_map; lia).
  rewrite (map_nth (fun a => if isinf a then f0 else a)).
  rewrite Hrv, nth_map_seq by exact Hj.
  unfold vals, in_neighbors. rewrite map_map, fold_left_map.
  cbv zeta. destruct Hm as [Hinf _].
  unfold vals, in_neighbors in Hinf. rewrite map_map, fold_left_map in Hinf.
  rewrite Hinf. reflexivity. }
rewrite E. split.
- unfold vals in Hin. apply in_map_iff in Hin. destruct Hin as (u & Eu & Hu).
  exists u. split; [exact Hu|]. symmetry. exact Eu.
- intros u Hu. apply Hall. unfold vals.
  exact (in_map (fun u' => entry x u' j) _ _ Hu).
Qed.

End MaxMore.

(** * Instances of the further properties *)

Section MoreInstances.
Import Examples.

Lemma drop_all_preserves_shape : preserves_shape drop_all.
Proof.
intros name p m d HF. unfold drop_all. split; [apply length_map|].
apply Forall_forall. intros r Hr. apply in_map_iff in Hr.
destruct Hr as (r0 & <- & Hr0). rewrite length_map.
rewrite Forall_forall in HF. apply HF, Hr0.
Qed.

Lemma scenario_well_formed : ops.well_formed scenario.
Proof. repeat constructor. Qed.

Lemma fork_well_formed : ops.well_formed fork.
Proof. repeat constructor. Qed.

(** A feed-forward module built for rows of 4 entries placed after the
    mean aggregation, which returns rows of 8: its error is the error of
    the wrapper, whatever follows it. *)
Lemma residual_forward_raises_first_error_witness :
exists ff,
  FeedForwardModule.__init__ scenario_init act 4 1 0%R = Ok ff
  /\ ResidualModulesWrapper.forward elementwise.add
       (ResidualModulesWrapper.__init__
          (ResidualModulesWrapper.ModuleSeq
             ([callable.with_graph
                 (fun g x => as_matrix (GraphMeanAggregationModule.forward g x))]
              ++ @callable.without_graph ops.DGLGraph (mat R)
                   (FeedForwardModule.forward drop_all ff)
              :: [@callable.without_graph ops.DGLGraph (mat R)
                    (FeedForwardModule.forward drop_all ff)])))
       scenario scenario_features
     = Raise (RuntimeError "mat1 and mat2 shapes cannot be multiplied").
Proof.
eexists. split; [reflexivity|].
eapply residual_forward_raises_first_error; reflexivity.
Defined.

(** [FeedForwardModule(dim=4)] on the five rows of the scenario. *)
Lemma feed_forward_shape_witness :
exists self y,
  FeedForwardModule.__init__ scenario_init act 4 1 (1 / 2)%R = Ok self
  /\ FeedForwardModule.forward drop_all self scenario_features = Ok y
  /\ length y = 5
  /\ Forall (fun r => length r = 4) y.
Proof.
destruct (FeedForwardModule.__init__ scenario_init act 4 1 (1 / 2)%R)
  as [self|e] eqn:E; [|exfalso; revert E; cbn; discriminate].
destruct (feed_forward_shape scenario_init act 4 1 (1 / 2)%R self self drop_all
            scenario_features E (or_introl eq_refl) drop_all_preserves_shape)
  as (y & Hy & Hl & HF); [repeat constructor|].
exists self, y. split; [reflexivity|]. split; [exact Hy|]. split; assumption.
Defined.

(** [FeedForwardModule(dim=4, num_inputs=2)] expects rows of 8 entries. *)
Lemma feed_forward_rejects_wrong_width_witness :
exists self,
  FeedForwardModule.__init__ scenario_init act 4 2 0%R = Ok self
  /\ FeedForwardModule.forward drop_all self scenario_features
     = Raise (RuntimeError "mat1 and mat2 shapes cannot be multiplied").
Proof.
destruct (FeedForwardModule.__init__ scenario_init act 4 2 0%R)
  as [self|e] eqn:E; [|exfalso; revert E; cbn; discriminate].
exists self. split; [reflexivity|].
apply (feed_forward_rejects_wrong_width scenario_init act 4 2 0%R self self
         drop_all scenario_features E (or_introl eq_refl)).
apply Exists_cons_hd. simpl. lia.
Defined.

(** A residual block whose second linear layer is at zero returns the
    features of the scenario. *)
Lemma residual_over_zero_feed_forward_is_identity_witness :
exists self,
  FeedForwardModule.__init__ zero_tail_init act 4 1 0%R = Ok self
  /\ ResidualModulesWrapper.forward elementwise.add
       (ResidualModulesWrapper.__init__
          (ResidualModulesWrapper.OneModule
             (@callable.without_graph ops.DGLGraph (mat R)
                (FeedForwardModule.forward drop_all
                   (FeedForwardModule.eval self)))))
       scenario scenario_features
     = Ok scenario_features.
Proof.
destruct (FeedForwardModule.__init__ zero_tail_init act 4 1 0%R)
  as [self|e] eqn:E; [|exfalso; revert E; cbn; discriminate].
exists self. split; [reflexivity|].
apply (@residual_over_zero_feed_forward_is_identity R R_FloatArith
         Rmult_0_r Rplus_0_r zero_tail_init act 4 0%R self drop_all scenario
         scenario_features (fun _ _ => eq_refl) (fun _ _ => eq_refl) E).
repeat constructor.
Defined.

(** The layer on the scenario: five rows of four entries come back. *)
Lemma residual_mean_feed_forward_layer_witness :
exists self y,
  FeedForwardModule.__init__ scenario_init act 4 2 0%R = Ok self
  /\ ResidualModulesWrapper.forward elementwise.add
       (ResidualModulesWrapper.__init__
          (ResidualModulesWrapper.ModuleSeq
             [callable.with_graph
                (fun g x => as_matrix (GraphMeanAggregationModule.forward g x));
              @callable.without_graph ops.DGLGraph (mat R)
                (FeedForwardModule.forward drop_all self)]))
       scenario scenario_features
     = Ok y
  /\ length y = 5
  /\ Forall (fun r => length r = 4) y.
Proof.
destruct (FeedForwardModule.__init__ scenario_init act 4 2 0%R)
  as [self|e] eqn:E; [|exfalso; revert E; cbn; discriminate].
destruct (residual_mean_feed_forward_layer scenario_init act 4 0%R self drop_all
            scenario scenario_features E drop_all_preserves_shape eq_refl)
  as (a & h & _ & _ & _ & Hf & Hl & HF); [repeat constructor|].
exists self, (zip_add scenario_features h).
split; [reflexivity|]. split; [exact Hf|]. split; assumption.
Defined.

(** The GAT aggregation on the scenario raises. *)
Lemma gat_forward_raises_on_well_shaped_input_witness :
exists self,
  GraphAttnGATAggregationModule.__init__ scenario_init 4 2 = Ok self
  /\ GraphAttnGATAggregationModule.forward self scenario scenario_features
     = Raise torch.rank_error.
Proof.
destruct (GraphAttnGATAggregationModule.__init__ scenario_init 4 2)
  as [self|e] eqn:E; [|exfalso; revert E; cbn; discriminate].
destruct (gat_forward_raises_on_well_shaped_input scenario_init 4 2 self scenario
            scenario_features E eq_refl scenario_well_formed eq_refl)
  as (_ & Hraise & _); [repeat constructor|].
exists self. split; [reflexivity|exact Hraise].
Defined.

(** The transformer attention on the scenario, in training mode. *)
Lemma trf_forward_shape_witness :
exists self y,
  GraphAttnTrfAggregationModule.__init__ scenario_init 4 2 (1 / 2)%R = Ok self
  /\ GraphAttnTrfAggregationModule.forward drop_all true self scenario
       scenario_features = Ok (T2 y)
  /\ length y = 5
  /\ length (nth 4 y []) = 8
  /\ firstn 4 (nth 4 y []) = [17; 18; 19; 20]%R.
Proof.
destruct (GraphAttnTrfAggregationModule.__init__ scenario_init 4 2 (1 / 2)%R)
  as [self|e] eqn:E; [|exfalso; revert E; cbn; discriminate].
destruct (trf_forward_shape scenario_init 4 2 (1 / 2)%R self drop_all true
            scenario scenario_features E eq_refl eq_refl
            drop_all_preserves_shape scenario_well_formed eq_refl)
  as (y & Hy & Hl & Hrows); [repeat constructor|].
exists self, y. split; [reflexivity|]. split; [exact Hy|]. split; [exact Hl|].
apply (Hrows 4). simpl. lia.
Defined.

(** Node 4 of the scenario has the single in-neighbour 3. *)
Lemma trf_aggregation_is_attention_weighted_sum_witness :
exists self agg,
  GraphAttnTrfAggregationModule.__init__ scenario_init 4 2 0%R = Ok self
  /\ GraphAttnTrfAggregationModule.aggregate self scenario scenario_features
     = Ok agg
  /\ length agg = 5
  /\ entry agg 4 (1 * GraphAttnTrfAggregationModule.head_dim self + 0)
     = fadd f0 (fmul (trf_value self scenario_features 3 1 0)
                     (trf_prob self scenario scenario_features 3 4 1)).
Proof.
destruct (GraphAttnTrfAggregationModule.__init__ scenario_init 4 2 0%R)
  as [self|e] eqn:E; [|exfalso; revert E; cbn; discriminate].
assert (Hsizes : GraphAttnTrfAggregationModule.num_heads self = 2
                 /\ GraphAttnTrfAggregationModule.head_dim self = 2).
{ revert E. unfold GraphAttnTrfAggregationModule.__init__. cbn.
  intros E. inversion E. split; reflexivity. }
destruct (trf_aggregation_is_attention_weighted_sum scenario_init 4 2 0%R self
            drop_all scenario scenario_features E eq_refl eq_refl
            scenario_well_formed eq_refl)
  as (agg & Ha & _ & Hl & Hent); [repeat constructor|].
exists self, agg. split; [reflexivity|]. split; [exact Ha|]. split; [exact Hl|].
apply (Hent 4 1 0); [simpl; lia|rewrite (proj1 Hsizes); lia
                    |rewrite (proj2 Hsizes); lia].
Defined.

(** Node 0 of the fork has no incoming edge. *)
Lemma trf_forward_isolated_node_gets_output_bias_witness :
exists self y,
  GraphAttnTrfAggregationModule.__init__ scenario_init 4 2 0%R = Ok self
  /\ GraphAttnTrfAggregationModule.forward drop_all false self fork fork_features
     = Ok (T2 y)
  /\ nth 0 y []
     = [1; 1; 0; 0]%R
       ++ map (scenario_init "output_linear.bias"%string 0) (seq 0 4).
Proof.
destruct (GraphAttnTrfAggregationModule.__init__ scenario_init 4 2 0%R)
  as [self|e] eqn:E; [|exfalso; revert E; cbn; discriminate].
destruct (@trf_forward_isolated_node_gets_output_bias R R_FloatArith
            Rmult_0_l Rplus_0_l scenario_init 4 2 0%R self drop_all fork
            fork_features 0 E eq_refl eq_refl fork_well_formed eq_refl)
  as (y & Hy & Hrow); [repeat constructor|simpl; lia|reflexivity|].
exists self, y. split; [reflexivity|]. split; [exact Hy|exact Hrow].
Defined.

End MoreInstances.

Section PreparatorInstances.
Import Examples.
Import FeaturesPreparatorForDeepModels.

(** Numeric features 0 and 3, past target 1, two nodes: the two rows of
    the batch. *)
Lemma preparator_forward_row_layout_witness :
exists self y,
  __init__ disjoint_args = Ok self
  /\ forward self features = Ok (T2 y)
  /\ nth 0 y [] = [-20; -21; -22; 10; 11; 40; 41; 3; 100; 101]%Z
  /\ nth 1 y [] = [-60; -61; -62; 50; 51; 80; 81; 7; 110; 111]%Z.
Proof.
destruct (__init__ disjoint_args) as [self|e] eqn:E;
  [|exfalso; revert E; cbn; discriminate].
destruct (preparator_forward_row_layout disjoint_args self
            [[1; 2; 3; 4]; [5; 6; 7; 8]]%Z E eq_refl eq_refl eq_refl eq_refl)
  as (pn & pp & e & y & Hn & Hp & He & Hf & _ & Hrows);
  [repeat constructor|simpl; lia|reflexivity|].
exists self, y. split; [reflexivity|]. split; [exact Hf|].
revert E Hn Hp He. cbn. intros E. inversion E; subst self; clear E. cbn.
intros Hn Hp He. inversion Hn; subst pn. inversion Hp; subst pp.
inversion He; subst e.
split; [exact (Hrows 0 ltac:(simpl; lia))|exact (Hrows 1 ltac:(simpl; lia))].
Defined.

(** The DeepWalk rows appended to a batch of two samples, and to every
    position of the sequence of the second sample. *)
Lemma preparator_node_embeddings_by_graph_witness :
exists self y2 y3,
  __init__ embedding_only_args = Ok self
  /\ forward self features = Ok (T2 y2)
  /\ nth 1 y2 [] = [5; 6; 7; 8; 110; 111]%Z
  /\ forward self (T3 sequence_features) = Ok (T3 y3)
  /\ nth 0 (nth 1 y3 []) [] = [9; 10; 11; 12; 110; 111]%Z
  /\ nth 1 (nth 1 y3 []) [] = [13; 14; 15; 16; 110; 111]%Z.
Proof.
destruct (__init__ embedding_only_args) as [self|e] eqn:E;
  [|exfalso; revert E; cbn; discriminate].
destruct (preparator_node_embeddings_by_graph embedding_only_args self E
            eq_refl eq_refl eq_refl ltac:(simpl; lia))
  as (e & He & _ & H2 & H3).
destruct (H2 [[1; 2; 3; 4]; [5; 6; 7; 8]]%Z eq_refl) as (y2 & Hf2 & _ & Hr2).
destruct (H3 sequence_features 2 eq_refl ltac:(repeat constructor))
  as (y3 & Hf3 & _ & Hr3).
exists self, y2, y3. split; [reflexivity|].
revert E He. cbn. intros E. inversion E; subst self; clear E. cbn.
intros He. inversion He; subst e.
split; [exact Hf2|]. split; [exact (Hr2 1 ltac:(simpl; lia))|].
split; [exact Hf3|].
split; [exact (Hr3 1 0 ltac:(simpl; lia) ltac:(lia))
       |exact (Hr3 1 1 ltac:(simpl; lia) ltac:(lia))].
Defined.

(** The preparator returns on the two rows of four features. *)
Lemma preparator_forward_preconditions_witness :
exists self y,
  __init__ disjoint_args = Ok self
  /\ forward self features = Ok y
  /\ shape_0 y = 2
  /\ last_dim_is features 4
  /\ 2 mod 2 = 0.
Proof.
destruct (__init__ disjoint_args) as [self|e] eqn:E;
  [|exfalso; revert E; cbn; discriminate].
destruct (forward self features) as [y|e] eqn:Ef.
- destruct (preparator_forward_preconditions disjoint_args self features y E Ef)
    as (Hs & Hd & _ & Hg).
  exists self, y. split; [reflexivity|]. split; [exact Ef|].
  split; [exact Hs|]. split; [exact (Hd eq_refl)|exact (proj2 (Hg eq_refl))].
- exfalso. revert E Ef. cbn. intros E. inversion E; subst self; clear E.
  cbn. discriminate.
Defined.

End PreparatorInstances.

Section MaxInstances.
Import Examples.

Lemma xfloat_below_finite (a : xfloat) : is_finite a -> flt neg_inf a = true.
Proof. destruct a; intros [Hi Hn]; try discriminate; reflexivity. Qed.

Lemma xfloat_ge_trans (a b c : xfloat) :
is_finite a -> is_finite b -> is_finite c ->
flt a b = false -> flt b c = false -> flt a c = false.
Proof.
destruct a as [|p| |]; intros [Hi Hn]; try discriminate.
destruct b as [|q| |]; intros [Hi' Hn']; try discriminate.
destruct c as [|r| |]; intros [Hi'' Hn'']; try discriminate.
simpl. rewrite !negb_false_iff, !Qle_bool_iff.
intros H1 H2. eapply Qle_trans; eassumption.
Qed.

Lemma xfloat_lt_asym (a b : xfloat) : flt a b = true -> flt b a = false.
Proof.
destruct a as [|p| |], b as [|q| |]; simpl; try discriminate; try reflexivity.
rewrite negb_true_iff, negb_false_iff, Qle_bool_iff. intros Hqp.
destruct (Qlt_le_dec p q) as [Hlt|Hle].
- apply Qlt_le_weak, Hlt.
- apply Qle_bool_iff in Hle. congruence.
Qed.

(** The three in-neighbours of node 3 of the star hold 1, 3, 2 and
    5, 4, 6. *)
Lemma max_forward_is_neighbour_maximum_witness :
exists y,
  GraphMaxAggregationModule.forward star star_finite_features = Ok (T2 y)
  /\ firstn 2 (nth 3 y []) = [XFin 0; XFin 0]
  /\ (exists u, In u (in_neighbors star 3)
                /\ nth (2 + 1) (nth 3 y []) f0 = entry star_finite_features u 1)
  /\ forall u, In u (in_neighbors star 3) ->
       flt (nth (2 + 1) (nth 3 y []) f0) (entry star_finite_features u 1) = false.
Proof.
destruct (@max_forward_is_neighbour_maximum xfloat xfloat_FloatSpecial
            xfloat_below_finite xfloat_ge_trans xfloat_lt_asym
            star star_finite_features 2 3 eq_refl)
  as (y & Hy & Hfirst & Hmax).
- repeat constructor.
- simpl. lia.
- discriminate.
- intros u j [<-|[<-|[<-|[]]]] Hj; destruct j as [|[|j]]; try lia;
    split; reflexivity.
- exists y. split; [exact Hy|]. split; [exact Hfirst|]. apply (Hmax 1). lia.
Defined.

End MaxInstances.
